(** * folder2md4llms: the budget-aware condensing and chunking core

    A shallow embedding of
      - [src/folder2md4llms/analyzers/progressive_condenser.py]
        (class [ProgressiveCondenser]) and
      - [src/folder2md4llms/utils/smart_chunker.py] (class [SmartChunker]),
    followed by the properties the specification states about them.

    Modelling conventions.
      - Python [int] is [Z] where it can be negative or is a token count
        (budgets, estimates, counters); line numbers and chunk ids, which
        the code only ever builds from [len], [enumerate] and [+ 1], are
        [nat].
      - Python [str] is [string]; a character is one 8-bit code unit.
      - A Python [float] is the rational it stands for. [a / b] on two
        ints is the quotient rounded to binary64, to nearest with ties to
        even, as CPython computes it, and OverflowError when that is out of
        range; a float literal is the decimal rounded the same way.
      - A [dict] is a [gmap string _].
      - An exception is a value of [outcome]; the mutable [self.stats] is
        threaded explicitly. [ast.parse] has three outcomes: a tree, the
        SyntaxError the code catches, and any other exception, which the
        code lets through.
      - The [while] loop of the packer takes a fuel argument; running out
        of fuel ([None]) stands for a run that has not finished. *)

From Stdlib Require Import ZArith QArith Qround Qabs Qpower Lqa String Ascii List Lia.
From stdpp Require Import base option list gmap strings pretty.

Local Open Scope string_scope.
Local Open Scope list_scope.
Local Open Scope nat_scope.

(* ===================================================================== *)
(** * Part I. Strings as the code uses them                              *)
(* ===================================================================== *)

(** The newline character and the one-character string ["\n"]. *)
Definition nl : ascii := Ascii.ascii_of_nat 10.
Definition nl_string : string := String nl EmptyString.

(** [content.split("\n")]: one more piece than there are newlines. *)
Fixpoint split_nl (s : string) : list string :=
  match s with
  | EmptyString => [EmptyString]
  | String c s' =>
      if Ascii.eqb c nl then EmptyString :: split_nl s'
      else match split_nl s' with
           | l :: ls => String c l :: ls
           | [] => [String c EmptyString]
           end
  end.

(** ["\n".join(lines)]. *)
Fixpoint join_nl (ls : list string) : string :=
  match ls with
  | [] => EmptyString
  | l :: ls' =>
      match ls' with
      | [] => l
      | _ :: _ => l +:+ String nl (join_nl ls')
      end
  end.

(** [str.isspace] on one code unit: TAB..CR, FS..US, space, NEL, NBSP. *)
Definition is_space (c : ascii) : bool :=
  let n := Ascii.nat_of_ascii c in
  ((9 <=? n) && (n <=? 13)) || ((28 <=? n) && (n <=? 32))
  || (n =? 133) || (n =? 160).

Fixpoint lstrip (s : string) : string :=
  match s with
  | EmptyString => EmptyString
  | String c s' => if is_space c then lstrip s' else s
  end.

Fixpoint rstrip (s : string) : string :=
  match s with
  | EmptyString => EmptyString
  | String c s' =>
      match rstrip s' with
      | EmptyString => if is_space c then EmptyString else String c EmptyString
      | r => String c r
      end
  end.

(** [s.strip()]. *)
Definition strip (s : string) : string := rstrip (lstrip s).

(** Python truthiness of a [str]: non-empty. *)
Definition truthy_str (s : string) : bool :=
  match s with EmptyString => false | String _ _ => true end.

(** [s.startswith(p)]. *)
Definition startswith (s p : string) : bool := String.prefix p s.

(** [str.lower] on ASCII letters. *)
Definition lower_ascii (c : ascii) : ascii :=
  let n := Ascii.nat_of_ascii c in
  if (65 <=? n) && (n <=? 90) then Ascii.ascii_of_nat (n + 32) else c.

Fixpoint lower (s : string) : string :=
  match s with
  | EmptyString => EmptyString
  | String c s' => String (lower_ascii c) (lower s')
  end.

(** [lines[a:b]] for non-negative [a] and [b]. *)
Definition slice {A} (l : list A) (a b : nat) : list A := take (b - a) (drop a l).

(** [lines[-n:]] for [n > 0]. *)
Definition last_n {A} (l : list A) (n : nat) : list A := drop (length l - n) l.

(** [x < y] on exact rationals, as a boolean. *)
Definition Qlt_bool (x y : Q) : bool := negb (Qle_bool y x).

(** ** Binary64 floats

    A finite float is kept as the rational it stands for. *)

(** [floor(log2 x)] for a positive [x]. *)
Definition floor_log2 (x : Q) : Z :=
  let k := (Z.log2 (Qnum x) - Z.log2 (Zpos (Qden x)))%Z in
  if Qle_bool (2 ^ k) x then k else (k - 1)%Z.

(** The nearest integer, ties to the even one. *)
Definition round_half_even (x : Q) : Z :=
  let f := Qfloor x in
  match Qcompare (x - inject_Z f) (1 # 2) with
  | Lt => f
  | Gt => (f + 1)%Z
  | Eq => if Z.even f then f else (f + 1)%Z
  end.

(** A positive [x] rounded to 53 significant bits, with the exponent of
    the last bit not below -1074 (the subnormal range). *)
Definition b64_pos (x : Q) : Q :=
  let e := Z.max (floor_log2 x - 52) (-1074) in
  (inject_Z (round_half_even (x / 2 ^ e)) * 2 ^ e)%Q.

(** [x] rounded to binary64, the range left aside. *)
Definition b64 (x : Q) : Q :=
  match Qnum x with
  | Z0 => 0%Q
  | Zpos _ => b64_pos x
  | Zneg _ => (- b64_pos (- x))%Q
  end.

(** The rounded value is within the range of binary64. *)
Definition b64_finite (x : Q) : bool :=
  negb (Qle_bool (inject_Z (2 ^ 1024)) (Qabs x)).

(** A float literal of the source: the decimal, rounded. *)
Definition float_lit (q : Q) : Q := b64 q.

(** [pathlib.Path] as far as the code looks at it: [.name] and [.suffix]. *)
Record Path := mkPath { path_name : string; path_suffix : string }.

(* ===================================================================== *)
(** * Part II. Data model                                                *)
(* ===================================================================== *)

(** Modelled from the spec: [PriorityLevel] lives in
    [analyzers/priority_analyzer.py], which is not among the sources; the
    specification gives it as the ordered enumeration
    CRITICAL > HIGH > MEDIUM > LOW. *)
Inductive PriorityLevel := CRITICAL | HIGH | MEDIUM | LOW.

#[global] Instance PriorityLevel_eq_dec : EqDecision PriorityLevel.
Proof. solve_decision. Defined.

(** [priority.name]. *)
Definition priority_name (p : PriorityLevel) : string :=
  match p with
  | CRITICAL => "CRITICAL" | HIGH => "HIGH" | MEDIUM => "MEDIUM" | LOW => "LOW"
  end.

(** Position in the order CRITICAL > HIGH > MEDIUM > LOW (larger = more
    important). *)
Definition priority_rank (p : PriorityLevel) : nat :=
  match p with CRITICAL => 3 | HIGH => 2 | MEDIUM => 1 | LOW => 0 end.

(** [class CondensingLevel]: five string constants. *)
Module CondensingLevel.
Definition NONE : string := "none".
Definition LIGHT : string := "light".
Definition MODERATE : string := "moderate".
Definition HEAVY : string := "heavy".
Definition MAXIMUM : string := "maximum".
End CondensingLevel.
Import CondensingLevel.

(** The list both [_increase_condensing_level] and
    [_decrease_condensing_level] build. *)
Definition levels : list string := [NONE; LIGHT; MODERATE; HEAVY; MAXIMUM].

(** [levels.index(x)]; [None] is the [ValueError]. *)
Fixpoint list_index (x : string) (l : list string) : option nat :=
  match l with
  | [] => None
  | y :: l' => if String.eqb y x then Some 0 else S <$> list_index x l'
  end.

(** Aggressiveness of a level: its position in [levels]. *)
Definition level_rank (l : string) : nat := default 0 (list_index l levels).

(** Exceptions the modelled code can raise or let through, and the outcome
    of a call. *)
Inductive exn :=
| ZeroDivisionError | OverflowError | ValueError | MemoryError | RecursionError.

Inductive outcome (A : Type) :=
| Returned (a : A)
| Raised (e : exn).
Arguments Returned {A} a.
Arguments Raised {A} e.

(** [a / b] on two ints: ZeroDivisionError for [b = 0], the quotient
    rounded to binary64, OverflowError when that is too large for a
    float. *)
Definition int_true_div (a b : Z) : outcome Q :=
  if (b =? 0)%Z then Raised ZeroDivisionError
  else
    let r := b64 (inject_Z a / inject_Z b) in
    if b64_finite r then Returned r else Raised OverflowError.

(** [float(n)] of an int, as [n * 1.2] takes it first: OverflowError for an
    int too large to convert. *)
Definition float_of_int (n : Z) : outcome Q :=
  let r := b64 (inject_Z n) in
  if b64_finite r then Returned r else Raised OverflowError.

(** [int(n * c)] for an int [n] and a float [c]: the product rounded to
    binary64 and cut towards zero; [int] of an infinite product raises
    OverflowError too. *)
Definition int_of_product (n : Z) (c : Q) : outcome Z :=
  match float_of_int n with
  | Raised e => Raised e
  | Returned x =>
      let r := b64 (x * c) in
      if b64_finite r then Returned (Z.quot (Qnum r) (Zpos (Qden r)))
      else Raised OverflowError
  end.

(** Values stored in the [condensing_info] dict. *)
Inductive info_value :=
| VStr (s : string)
| VInt (z : Z)
| VFloat (q : Q).

(** [ProgressiveCondenser.stats]. *)
Record condenser_stats := mkCondenserStats {
  files_processed : Z;
  tokens_saved : Z;
  condensing_levels_used : gmap string Z
}.

(** [__init__]. *)
Definition condenser_init : condenser_stats :=
  {| files_processed := 0; tokens_saved := 0; condensing_levels_used := ∅ |}.

(** What the code reads of a Python syntax tree: the statements of a body
    with their names and line numbers ([end_lineno] is read through
    [getattr] with a default, hence an option). *)
#[warnings="-register-all"]
Inductive stmt :=
| FunctionDef (name : string) (lineno : nat) (end_lineno : option nat)
| AsyncFunctionDef (name : string) (lineno : nat) (end_lineno : option nat)
| ClassDef (name : string) (lineno : nat) (end_lineno : option nat) (body : list stmt)
| OtherStmt.

(** What [ast.parse] does with a text: it returns a tree, raises the
    SyntaxError that the callers catch, or raises something else
    (ValueError for a NUL byte, MemoryError or RecursionError for deep
    nesting), which they do not catch. *)
Inductive parse_result :=
| Parsed (tree : list stmt)
| SyntaxError
| ParseFails (e : exn).

(** [@dataclass class Chunk]. *)
Record Chunk := mkChunk {
  content : string;
  chunk_id : nat;
  total_chunks : nat;
  start_line : option nat;
  end_line : option nat;
  context_info : option string;
  continuation_from : option nat;
  continues_to : option nat;
  estimated_tokens : option Z;
  chunk_type : string
}.

(** [@dataclass class ChunkingStrategy] with its defaults. *)
Record ChunkingStrategy := mkStrategy {
  preserve_functions : bool;
  preserve_classes : bool;
  include_context_headers : bool;
  overlap_functions : bool;
  max_context_lines : nat;
  min_chunk_size : nat
}.

Definition default_strategy : ChunkingStrategy :=
  {| preserve_functions := true; preserve_classes := true;
     include_context_headers := true; overlap_functions := true;
     max_context_lines := 5; min_chunk_size := 100 |}.

(** [SmartChunker.stats]. *)
Record chunker_stats := mkChunkerStats {
  files_chunked : Z;
  total_chunks_created : Z;
  context_preservations : Z;
  function_overlaps : Z
}.

Definition chunker_init : chunker_stats :=
  {| files_chunked := 0; total_chunks_created := 0;
     context_preservations := 0; function_overlaps := 0 |}.

(** A boundary tuple [(start_line, end_line, boundary_type, name)]. *)
Definition Boundary : Type := nat * nat * string * string.

Definition b_start (b : Boundary) : nat := b.1.1.1.
Definition b_end (b : Boundary) : nat := b.1.1.2.
Definition b_type (b : Boundary) : string := b.1.2.
Definition b_name (b : Boundary) : string := b.2.

(** ** Sample inputs

    Concrete collaborators and texts at which the properties below are
    evaluated. *)

(** A stand-in for the token estimator: a quarter of the length, rounded
    down. *)
Definition sample_estimate (s : string) : Z := (Z.of_nat (String.length s) / 4)%Z.

(** One function of three lines. *)
Definition sample_function : string :=
  join_nl ["def f():"; "    a = 1"; "    b = 2"].

(** One class with two methods. *)
Definition sample_class : string :=
  join_nl ["class C:"; "    def a(self):"; "        return 1";
           "    def b(self):"; "        return 2"].

(** Two top-level functions. *)
Definition sample_module : string :=
  join_nl ["def f():"; "    return 1"; "def g():"; "    return 2"].

(** A text with a NUL byte, on which [ast.parse] raises ValueError. *)
Definition sample_nul : string :=
  join_nl ["x = 1" +:+ String (Ascii.ascii_of_nat 0) EmptyString; "y = 2"; "z = 3"].

(** A text file with a comment line and a blank line. *)
Definition sample_notes : string := join_nl ["# note"; "x = 1"; ""; "y = 2222"].

(** What [ast.parse] gives on the sample texts; every other text is taken
    as a syntax error. *)
Definition sample_ast_parse (s : string) : parse_result :=
  if String.eqb s sample_function then Parsed [FunctionDef "f" 1 (Some 3)]
  else if String.eqb s sample_class then
    Parsed [ClassDef "C" 1 (Some 5)
              [FunctionDef "a" 2 (Some 3); FunctionDef "b" 4 (Some 5)]]
  else if String.eqb s sample_module then
    Parsed [FunctionDef "f" 1 (Some 2); FunctionDef "g" 3 (Some 4)]
  else if String.eqb s sample_nul then ParseFails ValueError
  else SyntaxError.

(** Stand-ins for the strategies and patterns that are parameters. *)
Definition sample_tree_strategy (content : string) (tree : list stmt) : string :=
  "# Functions:".
Definition sample_text_strategy (content level : string) (priority : PriorityLevel)
  : string := "// module".
Definition sample_config (content level : string) : outcome (option string) :=
  Returned None.
Definition sample_pattern (line : string) : bool := startswith line "function ".

(** A strategy with both annotation passes switched off. *)
Definition plain_strategy : ChunkingStrategy :=
  {| preserve_functions := true; preserve_classes := true;
     include_context_headers := false; overlap_functions := false;
     max_context_lines := 5; min_chunk_size := 100 |}.

(* ===================================================================== *)
(** * Part III. The code                                                 *)
(* ===================================================================== *)

Section Core.

(** External collaborators, taken as parameters: the token estimator
    ([utils/token_utils.py], not among the sources), Python's [ast.parse],
    the strategies that walk a full syntax
    tree or run regular expressions or the json/yaml parsers, and the two
    regular-expression tests of the boundary finders. *)
Variable estimate_tokens_from_text : string -> Z.
Variable ast_parse : string -> parse_result.
Variable _moderate_condense_python : string -> list stmt -> PriorityLevel -> string.
Variable _heavy_condense_python : string -> list stmt -> string.
Variable _maximum_condense_python : string -> list stmt -> string.
Variable _condense_javascript_content : string -> string -> PriorityLevel -> string.
Variable _condense_java_content : string -> string -> PriorityLevel -> string.
(** The json-then-yaml attempt of [_condense_config_content]: [Some] is the
    structure description, [None] is both parsers failing (or missing) in
    the ways the code catches, and [Raised] is an exception it does not
    catch (a RecursionError from [json.loads], say). *)
Variable describe_config_structure : string -> string -> outcome (option string).
(** [re.match] of a line against one of [function_patterns], and of a
    stripped line against the Java declaration pattern. *)
Variable js_function_pattern : string -> bool.
Variable java_declaration_pattern : string -> bool.

(** ** Progressive condenser *)

(** [_determine_condensing_level]. *)
Definition _determine_condensing_level
    (estimated_tokens available_tokens : Z) (priority : PriorityLevel)
  : outcome string :=
  if (available_tokens >=? estimated_tokens)%Z then Returned NONE
  else
    match int_true_div estimated_tokens available_tokens with
    | Raised e => Raised e
    | Returned compression_needed =>
        match priority with
        | CRITICAL =>
            if Qle_bool compression_needed (float_lit 1.3) then Returned LIGHT
            else if Qle_bool compression_needed (float_lit 2.0) then Returned MODERATE
            else if Qle_bool compression_needed (float_lit 3.0) then Returned HEAVY
            else Returned MAXIMUM
        | HIGH =>
            if Qle_bool compression_needed (float_lit 1.5) then Returned LIGHT
            else if Qle_bool compression_needed (float_lit 2.5) then Returned MODERATE
            else if Qle_bool compression_needed (float_lit 4.0) then Returned HEAVY
            else Returned MAXIMUM
        | _ =>
            if Qle_bool compression_needed (float_lit 2.0) then Returned MODERATE
            else if Qle_bool compression_needed (float_lit 3.0) then Returned HEAVY
            else Returned MAXIMUM
        end
    end.

(** [_condense_generic_content]. *)
Definition _condense_generic_content (content level : string) : string :=
  let lines := split_nl content in
  if String.eqb level LIGHT then
    join_nl (List.filter
               (fun line => truthy_str (strip line) && negb (startswith (strip line) "#"))
               lines)
  else if String.eqb level MODERATE then
    if length lines <=? 30 then content
    else join_nl (take 20 lines ++ ["# ... content truncated ..."] ++ last_n lines 10)
  else
    join_nl (take 10 lines ++ ["# ... heavily truncated ..."]).

(** One round of the loop of [_light_condense_python]. *)
Definition light_python_step (condensed_lines : list string) (line : string)
  : list string :=
  let stripped := strip line in
  if startswith stripped "#"
     && negb (existsb (fun i => startswith stripped ("#" +:+ pretty i)) (seq 0 10))
  then condensed_lines
  else if negb (truthy_str stripped)
          && (0 <? length condensed_lines)
          && negb (truthy_str (strip (List.last condensed_lines EmptyString)))
  then condensed_lines
  else condensed_lines ++ [line].

(** [_light_condense_python] (the tree is not looked at). *)
Definition _light_condense_python (content : string) (tree : list stmt) : string :=
  join_nl (fold_left light_python_step (split_nl content) []).

(** [_condense_python_content]: only the SyntaxError of [ast.parse] is
    caught. *)
Definition _condense_python_content
    (content level : string) (priority : PriorityLevel) : outcome string :=
  match ast_parse content with
  | Parsed tree =>
      Returned
        (if String.eqb level LIGHT then _light_condense_python content tree
         else if String.eqb level MODERATE
         then _moderate_condense_python content tree priority
         else if String.eqb level HEAVY then _heavy_condense_python content tree
         else if String.eqb level MAXIMUM then _maximum_condense_python content tree
         else content)
  | SyntaxError => Returned (_condense_generic_content content level)
  | ParseFails e => Raised e
  end.

(** [_condense_config_content]. *)
Definition _condense_config_content (content level : string) : outcome string :=
  if String.eqb level LIGHT then Returned content
  else
    match describe_config_structure content level with
    | Raised e => Raised e
    | Returned (Some summary) => Returned summary
    | Returned None =>
        let lines := split_nl content in
        if length lines <=? 20 then Returned content
        else Returned
               (join_nl (take 10 lines ++ ["# ... truncated ..."] ++ last_n lines 5))
    end.

(** [x in [...]] on strings. *)
Definition str_in (x : string) (l : list string) : bool :=
  existsb (String.eqb x) l.

(** [_apply_condensing]. *)
Definition _apply_condensing
    (content : string) (file_path : Path) (level : string)
    (priority : PriorityLevel) : outcome string :=
  if String.eqb level NONE then Returned content
  else
    let suffix := lower (path_suffix file_path) in
    if String.eqb suffix ".py" then _condense_python_content content level priority
    else if str_in suffix [".js"; ".ts"; ".jsx"; ".tsx"] then
      Returned (_condense_javascript_content content level priority)
    else if String.eqb suffix ".java" then
      Returned (_condense_java_content content level priority)
    else if str_in suffix [".json"; ".yaml"; ".yml"] then
      _condense_config_content content level
    else Returned (_condense_generic_content content level).

(** [condense_with_budget]: the result (or the exception) and the stats
    after the call. The quotient of the compression ratio is rounded like
    every other; its numerator is the estimator's count for a text, so it
    stays in the range of a float. *)
Definition condense_with_budget
    (stats : condenser_stats) (content : string) (file_path : Path)
    (available_tokens : Z) (priority : PriorityLevel)
    (estimated_tokens : option Z)
  : outcome (string * gmap string info_value) * condenser_stats :=
  if negb (truthy_str (strip content)) then
    (Returned (content, {[ "level" := VStr NONE; "tokens_saved" := VInt 0 ]}), stats)
  else
    let estimated_tokens :=
      match estimated_tokens with
      | None => estimate_tokens_from_text content
      | Some e => e
      end in
    match _determine_condensing_level estimated_tokens available_tokens priority with
    | Raised e => (Raised e, stats)
    | Returned target_level =>
      match _apply_condensing content file_path target_level priority with
      | Raised e => (Raised e, stats)
      | Returned condensed_content =>
        let final_tokens := estimate_tokens_from_text condensed_content in
        let tokens_saved' := (estimated_tokens - final_tokens)%Z in
        let level_count := default 0%Z (condensing_levels_used stats !! target_level) in
        let stats' :=
          {| files_processed := files_processed stats + 1;
             tokens_saved := tokens_saved stats + tokens_saved';
             condensing_levels_used :=
               <[ target_level := (level_count + 1)%Z ]> (condensing_levels_used stats) |} in
        let condensing_info : gmap string info_value :=
          {[ "level" := VStr target_level;
             "original_tokens" := VInt estimated_tokens;
             "final_tokens" := VInt final_tokens;
             "tokens_saved" := VInt tokens_saved';
             "compression_ratio" :=
               VFloat (if (estimated_tokens >? 0)%Z
                       then b64 (inject_Z final_tokens / inject_Z estimated_tokens)
                       else 1.0)%Q;
             "priority" := VStr (priority_name priority) ]} in
        (Returned (condensed_content, condensing_info), stats')
      end
    end.

(** [_increase_condensing_level]: the [except ValueError] branch is the
    [None] of [list_index]. *)
Definition _increase_condensing_level (current_level : string) : string :=
  match list_index current_level levels with
  | Some current_index =>
      nth (Nat.min (current_index + 1) (length levels - 1)) levels EmptyString
  | None => MODERATE
  end.

(** [_decrease_condensing_level]; [current_index - 1] is an [int] and can
    be [-1] before the [max]. *)
Definition _decrease_condensing_level (current_level : string) : string :=
  match list_index current_level levels with
  | Some current_index =>
      nth (Z.to_nat (Z.max (Z.of_nat current_index - 1) 0)) levels EmptyString
  | None => MODERATE
  end.

(** [adjust_condensing_level]. *)
Definition adjust_condensing_level
    (current_content current_level : string)
    (token_budget_used total_budget : Z) : outcome string :=
  match (if (total_budget >? 0)%Z
         then int_true_div token_budget_used total_budget
         else Returned 0%Q) with
  | Raised e => Raised e
  | Returned budget_usage_ratio =>
      if Qlt_bool (float_lit 0.8) budget_usage_ratio
      then Returned (_increase_condensing_level current_level)
      else if Qlt_bool budget_usage_ratio (float_lit 0.5)
      then Returned (_decrease_condensing_level current_level)
      else Returned current_level
  end.

(** ** Smart chunker *)

(** [enumerate(l)]. *)
Definition enumerate {A} (l : list A) : list (nat * A) := zip (seq 0 (length l)) l.

(** [sorted(boundaries, key=lambda x: x[0])]: a stable sort on the start
    line. *)
Fixpoint insert_by_start (b : Boundary) (l : list Boundary) : list Boundary :=
  match l with
  | [] => [b]
  | x :: l' => if b_start b <=? b_start x then b :: l else x :: insert_by_start b l'
  end.

Definition sorted_by_start (l : list Boundary) : list Boundary :=
  fold_right insert_by_start [] l.

(** The method boundaries of a class body, in [_find_python_boundaries]. *)
Definition method_boundaries (class_name : string) (end_line : nat) (body : list stmt)
  : list Boundary :=
  omap (fun item =>
          match item with
          | FunctionDef name lineno end_lineno
          | AsyncFunctionDef name lineno end_lineno =>
              let method_start := lineno - 1 in
              let method_end := default end_line end_lineno - 1 in
              Some (method_start, method_end, "method", class_name +:+ "." +:+ name)
          | _ => None
          end) body.

(** [_find_python_boundaries]; line numbers of a syntax tree start at 1, so
    [lineno - 1] is never negative. *)
Definition _find_python_boundaries (tree : list stmt) (lines : list string)
  : list Boundary :=
  sorted_by_start
    (flat_map (fun node =>
       match node with
       | FunctionDef name lineno end_lineno
       | AsyncFunctionDef name lineno end_lineno =>
           let start_line := lineno - 1 in
           let end_line := default (length lines) end_lineno - 1 in
           [(start_line, end_line, "function", name)]
       | ClassDef name lineno end_lineno body =>
           let start_line := lineno - 1 in
           let end_line := default (length lines) end_lineno - 1 in
           (start_line, end_line, "class", name)
             :: method_boundaries name end_line body
       | OtherStmt => []
       end) tree).

(** [_create_chunk]. *)
Definition _create_chunk
    (lines : list string) (chunk_id : nat) (priority : PriorityLevel)
    (start_line end_line : nat) : Chunk :=
  let content := join_nl lines in
  {| content := content; chunk_id := chunk_id; total_chunks := 0;
     start_line := Some start_line; end_line := Some end_line;
     context_info := None; continuation_from := None; continues_to := None;
     estimated_tokens := Some (estimate_tokens_from_text content);
     chunk_type := "content" |}.

(** The loop state of [_split_large_boundary]. *)
Record split_state := mkSplit {
  sp_sub_chunks : list Chunk;
  sp_current_lines : list string;
  sp_current_tokens : Z;
  sp_chunk_id : nat
}.

(** The chunk [_split_large_boundary] builds from [current_lines]. *)
Definition sub_chunk
    (current_lines : list string) (chunk_id start_chunk_id : nat)
    (boundary_type name : string) (start_line : nat) (tokens : Z) : Chunk :=
  {| content := join_nl current_lines; chunk_id := chunk_id; total_chunks := 0;
     start_line := Some start_line; end_line := None;
     context_info :=
       Some (boundary_type +:+ " " +:+ name +:+ " (part "
             +:+ pretty (chunk_id - start_chunk_id + 1) +:+ ")");
     continuation_from := None; continues_to := None;
     estimated_tokens := Some tokens; chunk_type := "content" |}.

(** One round of the loop of [_split_large_boundary]. *)
Definition split_step
    (max_tokens : Z) (start_chunk_id : nat) (boundary_type name : string)
    (start_line : nat) (signature_line : string)
    (st : split_state) (line : string) : split_state :=
  let line_tokens := estimate_tokens_from_text line in
  if (sp_current_tokens st + line_tokens <=? max_tokens)%Z then
    {| sp_sub_chunks := sp_sub_chunks st;
       sp_current_lines := sp_current_lines st ++ [line];
       sp_current_tokens := sp_current_tokens st + line_tokens;
       sp_chunk_id := sp_chunk_id st |}
  else
    {| sp_sub_chunks :=
         sp_sub_chunks st ++
           [sub_chunk (sp_current_lines st) (sp_chunk_id st) start_chunk_id
              boundary_type name start_line (sp_current_tokens st)];
       sp_current_lines := [signature_line; line];
       sp_current_tokens := estimate_tokens_from_text signature_line + line_tokens;
       sp_chunk_id := sp_chunk_id st + 1 |}.

(** [_split_large_boundary]. *)
Definition _split_large_boundary
    (boundary_lines : list string) (max_tokens : Z) (start_chunk_id : nat)
    (boundary_type name : string) (start_line : nat) : list Chunk :=
  let signature_line := List.hd EmptyString boundary_lines in
  let st0 :=
    {| sp_sub_chunks := []; sp_current_lines := [signature_line];
       sp_current_tokens := estimate_tokens_from_text signature_line;
       sp_chunk_id := start_chunk_id |} in
  let st :=
    fold_left (split_step max_tokens start_chunk_id boundary_type name start_line
                 signature_line)
      (drop 1 boundary_lines) st0 in
  match sp_current_lines st with
  | [] => sp_sub_chunks st
  | _ :: _ =>
      sp_sub_chunks st ++
        [sub_chunk (sp_current_lines st) (sp_chunk_id st) start_chunk_id
           boundary_type name start_line
           (estimate_tokens_from_text (join_nl (sp_current_lines st)))]
  end.

(** Truthiness of an optional [int]: neither [None] nor [0]. *)
Definition truthy_int (o : option nat) : bool :=
  match o with Some (S _) => true | _ => false end.

(** The markers [_add_function_overlaps] collects for one chunk. *)
Definition overlapping_functions (chunk : Chunk) (boundaries : list Boundary)
  : list string :=
  flat_map (fun b =>
    let '(start, end_, btype, name) := b in
    if str_in btype ["function"; "method"] then
      if truthy_int (start_line chunk)
         && (start <? default 0 (start_line chunk))
         && (default 0 (start_line chunk) <=? end_)
      then ["# Continued from: def " +:+ name +:+ "(...)"]
      else if truthy_int (end_line chunk)
              && (start <=? default 0 (end_line chunk))
              && (default 0 (end_line chunk) <? end_)
      then ["# Continues: def " +:+ name +:+ "(...)"]
      else []
    else []) boundaries.

(** The chunk [_add_function_overlaps] makes of one chunk. *)
Definition overlap_chunk (chunk : Chunk) (boundaries : list Boundary) : Chunk :=
  let overlapping := overlapping_functions chunk boundaries in
  let enhanced_content :=
    match overlapping with
    | [] => content chunk
    | _ :: _ => (join_nl overlapping +:+ nl_string +:+ nl_string) +:+ content chunk
    end in
  {| content := enhanced_content; chunk_id := chunk_id chunk;
     total_chunks := total_chunks chunk;
     start_line := start_line chunk; end_line := end_line chunk;
     context_info := context_info chunk;
     continuation_from := continuation_from chunk;
     continues_to := continues_to chunk;
     estimated_tokens := Some (estimate_tokens_from_text enhanced_content);
     chunk_type := chunk_type chunk |}.

(** [_add_function_overlaps]. *)
Definition _add_function_overlaps
    (stats : chunker_stats) (chunks : list Chunk) (boundaries : list Boundary)
  : list Chunk * chunker_stats :=
  (map (fun chunk => overlap_chunk chunk boundaries) chunks,
   {| files_chunked := files_chunked stats;
      total_chunks_created := total_chunks_created stats;
      context_preservations := context_preservations stats;
      function_overlaps :=
        function_overlaps stats
        + Z.of_nat (length (List.filter
             (fun chunk => 0 <? length (overlapping_functions chunk boundaries))
             chunks)) |}).

(** [chunk.total_chunks = n], the one in-place update of a chunk. *)
Definition set_total_chunks (n : nat) (chunk : Chunk) : Chunk :=
  {| content := content chunk; chunk_id := chunk_id chunk; total_chunks := n;
     start_line := start_line chunk; end_line := end_line chunk;
     context_info := context_info chunk;
     continuation_from := continuation_from chunk;
     continues_to := continues_to chunk;
     estimated_tokens := estimated_tokens chunk;
     chunk_type := chunk_type chunk |}.

(** The loop state of [_create_chunks_with_boundaries]. *)
Record pack_state := mkPack {
  pk_chunks : list Chunk;
  pk_current_chunk_lines : list string;
  pk_current_tokens : Z;
  pk_chunk_id : nat;
  pk_last_line_processed : nat;
  pk_i : nat
}.

Definition pack_init : pack_state :=
  {| pk_chunks := []; pk_current_chunk_lines := []; pk_current_tokens := 0;
     pk_chunk_id := 1; pk_last_line_processed := 0; pk_i := 0 |}.

(** The first boundary whose start is line [i]. *)
Definition find_boundary (boundaries : list Boundary) (i : nat) : option Boundary :=
  List.find (fun b => b_start b =? i) boundaries.

(** The chunk a flush appends: [_create_chunk] on the accumulated lines. *)
Definition flushed_chunk (priority : PriorityLevel) (st : pack_state) : Chunk :=
  _create_chunk (pk_current_chunk_lines st) (pk_chunk_id st) priority
    (pk_last_line_processed st)
    (pk_last_line_processed st + length (pk_current_chunk_lines st) - 1).

Section Packer.
Variable lines : list string.
Variable boundaries : list Boundary.
Variable max_tokens : Z.
Variable priority : PriorityLevel.

(** One round of the [while] loop, entered with [i < len(lines)]. *)
Definition pack_step (st : pack_state) : pack_state :=
  let i := pk_i st in
  match find_boundary boundaries i with
  | Some (start, end_, btype, name) =>
      let boundary_lines := slice lines start (end_ + 1) in
      let boundary_tokens := estimate_tokens_from_text (join_nl boundary_lines) in
      if (pk_current_tokens st + boundary_tokens <=? max_tokens)%Z then
        {| pk_chunks := pk_chunks st;
           pk_current_chunk_lines := pk_current_chunk_lines st ++ boundary_lines;
           pk_current_tokens := pk_current_tokens st + boundary_tokens;
           pk_chunk_id := pk_chunk_id st;
           pk_last_line_processed := pk_last_line_processed st;
           pk_i := end_ + 1 |}
      else if (boundary_tokens >? max_tokens)%Z then
        let st1 :=
          match pk_current_chunk_lines st with
          | [] => st
          | _ :: _ =>
              {| pk_chunks := pk_chunks st ++ [flushed_chunk priority st];
                 pk_current_chunk_lines := [];
                 pk_current_tokens := 0;
                 pk_chunk_id := pk_chunk_id st + 1;
                 pk_last_line_processed := i;
                 pk_i := i |}
          end in
        let sub_chunks :=
          _split_large_boundary boundary_lines max_tokens (pk_chunk_id st1)
            btype name start in
        {| pk_chunks := pk_chunks st1 ++ sub_chunks;
           pk_current_chunk_lines := pk_current_chunk_lines st1;
           pk_current_tokens := pk_current_tokens st1;
           pk_chunk_id := pk_chunk_id st1 + length sub_chunks;
           pk_last_line_processed := end_ + 1;
           pk_i := end_ + 1 |}
      else
        let st1 :=
          match pk_current_chunk_lines st with
          | [] => st
          | _ :: _ =>
              {| pk_chunks := pk_chunks st ++ [flushed_chunk priority st];
                 pk_current_chunk_lines := pk_current_chunk_lines st;
                 pk_current_tokens := pk_current_tokens st;
                 pk_chunk_id := pk_chunk_id st + 1;
                 pk_last_line_processed := i;
                 pk_i := i |}
          end in
        {| pk_chunks := pk_chunks st1;
           pk_current_chunk_lines := boundary_lines;
           pk_current_tokens := boundary_tokens;
           pk_chunk_id := pk_chunk_id st1;
           pk_last_line_processed := pk_last_line_processed st1;
           pk_i := end_ + 1 |}
  | None =>
      let line := nth i lines EmptyString in
      let line_tokens := estimate_tokens_from_text line in
      if (pk_current_tokens st + line_tokens <=? max_tokens)%Z then
        {| pk_chunks := pk_chunks st;
           pk_current_chunk_lines := pk_current_chunk_lines st ++ [line];
           pk_current_tokens := pk_current_tokens st + line_tokens;
           pk_chunk_id := pk_chunk_id st;
           pk_last_line_processed := pk_last_line_processed st;
           pk_i := i + 1 |}
      else
        let st1 :=
          match pk_current_chunk_lines st with
          | [] => st
          | _ :: _ =>
              {| pk_chunks := pk_chunks st ++ [flushed_chunk priority st];
                 pk_current_chunk_lines := pk_current_chunk_lines st;
                 pk_current_tokens := pk_current_tokens st;
                 pk_chunk_id := pk_chunk_id st + 1;
                 pk_last_line_processed := i;
                 pk_i := i |}
          end in
        {| pk_chunks := pk_chunks st1;
           pk_current_chunk_lines := [line];
           pk_current_tokens := line_tokens;
           pk_chunk_id := pk_chunk_id st1;
           pk_last_line_processed := pk_last_line_processed st1;
           pk_i := i + 1 |}
  end.

(** [while i < len(lines)]. The position [i] moves the same way whatever
    the token counts are (to [end + 1] at a boundary start, to [i + 1]
    elsewhere), so a run that has not left the loop after [len(lines)]
    rounds has come back to a position and never leaves it. *)
Fixpoint pack_loop (fuel : nat) (st : pack_state) : option pack_state :=
  if pk_i st <? length lines then
    match fuel with
    | O => None
    | S fuel' => pack_loop fuel' (pack_step st)
    end
  else Some st.

(** The chunks when the loop is left: the last accumulated lines are
    flushed and every chunk gets the final count. *)
Definition pack_finish (st : pack_state) : list Chunk :=
  let chunks :=
    match pk_current_chunk_lines st with
    | [] => pk_chunks st
    | _ :: _ => pk_chunks st ++ [flushed_chunk priority st]
    end in
  map (set_total_chunks (length chunks)) chunks.

End Packer.

(** [_create_chunks_with_boundaries]. *)
Definition _create_chunks_with_boundaries
    (strategy : ChunkingStrategy) (stats : chunker_stats)
    (content : string) (lines : list string) (boundaries : list Boundary)
    (max_tokens : Z) (priority : PriorityLevel)
  : option (list Chunk * chunker_stats) :=
  st ← pack_loop lines boundaries max_tokens priority (length lines) pack_init;
  let chunks := pack_finish priority st in
  if overlap_functions strategy
  then Some (_add_function_overlaps stats chunks boundaries)
  else Some (chunks, stats).

(** One character of the scan of [_find_js_block_end]: [None] is the
    [return i] inside the loop. *)
Fixpoint scan_braces (line : string) (brace_count : Z) (in_block : bool)
  : option (Z * bool) :=
  match line with
  | EmptyString => Some (brace_count, in_block)
  | String char rest =>
      if Ascii.eqb char "{" then scan_braces rest (brace_count + 1)%Z true
      else if Ascii.eqb char "}" then
        let brace_count := (brace_count - 1)%Z in
        if in_block && (brace_count =? 0)%Z then None
        else scan_braces rest brace_count in_block
      else scan_braces rest brace_count in_block
  end.

(** [for i in range(start, len(lines))] over the lines from [i] on. *)
Fixpoint block_end_from (rest : list string) (i : nat) (brace_count : Z)
    (in_block : bool) : option nat :=
  match rest with
  | [] => None
  | line :: rest' =>
      match scan_braces line brace_count in_block with
      | None => Some i
      | Some (brace_count', in_block') =>
          block_end_from rest' (S i) brace_count' in_block'
      end
  end.

(** [_find_js_block_end]. *)
Definition _find_js_block_end (lines : list string) (start : nat) : nat :=
  default (length lines - 1) (block_end_from (drop start lines) start 0%Z false).

(** [_find_java_block_end]. *)
Definition _find_java_block_end (lines : list string) (start : nat) : nat :=
  _find_js_block_end lines start.

(** The boundaries [_chunk_javascript_content] collects. *)
Definition js_boundaries (lines : list string) : list Boundary :=
  omap (fun '(i, line) =>
          if js_function_pattern line
          then Some (i, _find_js_block_end lines i, "function", "js_function")
          else None)
       (enumerate lines).

(** [_chunk_javascript_content]. *)
Definition _chunk_javascript_content
    (strategy : ChunkingStrategy) (stats : chunker_stats)
    (content : string) (max_tokens : Z) (priority : PriorityLevel)
  : option (list Chunk * chunker_stats) :=
  let lines := split_nl content in
  _create_chunks_with_boundaries strategy stats content lines (js_boundaries lines)
    max_tokens priority.

(** The boundaries [_chunk_java_content] collects ([brace_stack] is
    written there but never read). *)
Definition java_boundaries (lines : list string) : list Boundary :=
  omap (fun '(i, line) =>
          if java_declaration_pattern (strip line)
          then Some (i, _find_java_block_end lines i, "declaration", "java_declaration")
          else None)
       (enumerate lines).

(** [_chunk_java_content]. *)
Definition _chunk_java_content
    (strategy : ChunkingStrategy) (stats : chunker_stats)
    (content : string) (max_tokens : Z) (priority : PriorityLevel)
  : option (list Chunk * chunker_stats) :=
  let lines := split_nl content in
  _create_chunks_with_boundaries strategy stats content lines (java_boundaries lines)
    max_tokens priority.

(** The loop state of [_chunk_generic_content]. *)
Record generic_state := mkGeneric {
  g_chunks : list Chunk;
  g_current_lines : list string;
  g_current_tokens : Z;
  g_chunk_id : nat
}.

(** One round of the loop of [_chunk_generic_content]. *)
Definition generic_step (max_tokens : Z) (st : generic_state) (il : nat * string)
  : generic_state :=
  let '(i, line) := il in
  let line_tokens := estimate_tokens_from_text line in
  if (g_current_tokens st + line_tokens <=? max_tokens)%Z then
    {| g_chunks := g_chunks st;
       g_current_lines := g_current_lines st ++ [line];
       g_current_tokens := g_current_tokens st + line_tokens;
       g_chunk_id := g_chunk_id st |}
  else
    match g_current_lines st with
    | [] =>
        {| g_chunks := g_chunks st; g_current_lines := [line];
           g_current_tokens := line_tokens; g_chunk_id := g_chunk_id st |}
    | _ :: _ =>
        {| g_chunks :=
             g_chunks st ++
               [{| content := join_nl (g_current_lines st);
                   chunk_id := g_chunk_id st; total_chunks := 0;
                   start_line := Some (i - length (g_current_lines st));
                   end_line := Some (i - 1);
                   context_info := None; continuation_from := None;
                   continues_to := None;
                   estimated_tokens := Some (g_current_tokens st);
                   chunk_type := "content" |}];
           g_current_lines := [line];
           g_current_tokens := line_tokens;
           g_chunk_id := g_chunk_id st + 1 |}
    end.

(** [_chunk_generic_content]. *)
Definition _chunk_generic_content (content : string) (max_tokens : Z) : list Chunk :=
  let lines := split_nl content in
  let st :=
    fold_left (generic_step max_tokens) (enumerate lines)
      {| g_chunks := []; g_current_lines := []; g_current_tokens := 0;
         g_chunk_id := 1 |} in
  let chunks :=
    match g_current_lines st with
    | [] => g_chunks st
    | _ :: _ =>
        g_chunks st ++
          [{| content := join_nl (g_current_lines st);
              chunk_id := g_chunk_id st; total_chunks := 0;
              start_line := Some (length lines - length (g_current_lines st));
              end_line := Some (length lines - 1);
              context_info := None; continuation_from := None;
              continues_to := None;
              estimated_tokens :=
                Some (estimate_tokens_from_text (join_nl (g_current_lines st)));
              chunk_type := "content" |}]
    end in
  map (set_total_chunks (length chunks)) chunks.

(** What a chunking method hands back when it raises nothing. *)
Definition returned (r : option (list Chunk * chunker_stats))
  : option (outcome (list Chunk) * chunker_stats) :=
  '(chunks, stats) ← r; Some (Returned chunks, stats).

(** [_chunk_python_content]: only the SyntaxError of [ast.parse] is caught;
    another exception leaves the call, and the stats as they were. *)
Definition _chunk_python_content
    (strategy : ChunkingStrategy) (stats : chunker_stats)
    (content : string) (max_tokens : Z) (priority : PriorityLevel)
  : option (outcome (list Chunk) * chunker_stats) :=
  match ast_parse content with
  | Parsed tree =>
      let lines := split_nl content in
      let boundaries := _find_python_boundaries tree lines in
      returned (_create_chunks_with_boundaries strategy stats content lines boundaries
                  max_tokens priority)
  | SyntaxError => Some (Returned (_chunk_generic_content content max_tokens), stats)
  | ParseFails e => Some (Raised e, stats)
  end.

(** The chunk [add_continuation_context] makes of the chunk at index [i]
    of [n]. *)
Definition continuation_chunk (file_path : Path) (n i : nat) (chunk : Chunk) : Chunk :=
  let header :=
    if 0 <? i then
      ("# Continuation of " +:+ path_name file_path +:+ " (Part " +:+ pretty (i + 1)
       +:+ "/" +:+ pretty n +:+ ")" +:+ nl_string)
      +:+ (if truthy_int (continuation_from chunk)
           then "# Continued from Part "
                +:+ pretty (default 0 (continuation_from chunk)) +:+ nl_string
           else EmptyString)
    else
      "# " +:+ path_name file_path +:+ " (Part " +:+ pretty (i + 1) +:+ "/"
      +:+ pretty n +:+ ")" +:+ nl_string in
  let enhanced_content :=
    [header; content chunk]
    ++ (if i <? n - 1
        then [nl_string +:+ "# Continues in Part " +:+ pretty (i + 2) +:+ "/"
              +:+ pretty n +:+ "..."]
        else []) in
  {| content := join_nl enhanced_content; chunk_id := chunk_id chunk;
     total_chunks := total_chunks chunk;
     start_line := start_line chunk; end_line := end_line chunk;
     context_info := Some ("Part " +:+ pretty (i + 1) +:+ " of " +:+ pretty n);
     continuation_from := continuation_from chunk;
     continues_to := continues_to chunk;
     estimated_tokens := Some (estimate_tokens_from_text (join_nl enhanced_content));
     chunk_type := chunk_type chunk |}.

(** [add_continuation_context]. *)
Definition add_continuation_context
    (stats : chunker_stats) (chunks : list Chunk) (file_path : Path)
  : list Chunk * chunker_stats :=
  if length chunks <=? 1 then (chunks, stats)
  else
    (map (fun '(i, chunk) => continuation_chunk file_path (length chunks) i chunk)
         (enumerate chunks),
     {| files_chunked := files_chunked stats;
        total_chunks_created := total_chunks_created stats;
        context_preservations := context_preservations stats + Z.of_nat (length chunks);
        function_overlaps := function_overlaps stats |}).

(** [chunk_with_context]: the chunks (or the exception) and the stats after
    the call; [None] when the packer's loop does not finish. *)
Definition chunk_with_context
    (strategy : ChunkingStrategy) (stats : chunker_stats)
    (content : string) (file_path : Path) (max_tokens : Z)
    (priority : PriorityLevel) (preserve_functions : bool)
  : option (outcome (list Chunk) * chunker_stats) :=
  if negb (truthy_str (strip content)) then Some (Returned [], stats)
  else
    let total_tokens := estimate_tokens_from_text content in
    if (total_tokens <=? max_tokens)%Z then
      Some (Returned
              [ {| content := content; chunk_id := 1; total_chunks := 1;
                   start_line := None; end_line := None; context_info := None;
                   continuation_from := None; continues_to := None;
                   estimated_tokens := Some total_tokens;
                   chunk_type := "content" |} ], stats)
    else
      let file_extension := lower (path_suffix file_path) in
      '(result, stats) ←
        (if String.eqb file_extension ".py" then
           _chunk_python_content strategy stats content max_tokens priority
         else if str_in file_extension [".js"; ".ts"; ".jsx"; ".tsx"] then
           returned (_chunk_javascript_content strategy stats content max_tokens
                       priority)
         else if String.eqb file_extension ".java" then
           returned (_chunk_java_content strategy stats content max_tokens priority)
         else Some (Returned (_chunk_generic_content content max_tokens), stats));
      match result with
      | Raised e => Some (Raised e, stats)
      | Returned chunks =>
          let '(chunks, stats) :=
            if include_context_headers strategy
            then add_continuation_context stats chunks file_path
            else (chunks, stats) in
          Some (Returned chunks,
                {| files_chunked := files_chunked stats + 1;
                   total_chunks_created :=
                     total_chunks_created stats + Z.of_nat (length chunks);
                   context_preservations := context_preservations stats;
                   function_overlaps := function_overlaps stats |})
      end.

(** ** Further functions of the condenser *)

(** [sub in s]. *)
Fixpoint contains (s sub : string) : bool :=
  String.prefix sub s
  || match s with
     | EmptyString => false
     | String _ s' => contains s' sub
     end.

(** [s.count(sub)] for a non-empty [sub]: occurrences that do not overlap,
    from the left; [skip] characters of the last match are still to be
    passed over. *)
Fixpoint count_from (s sub : string) (skip : nat) : nat :=
  match s with
  | EmptyString => 0
  | String _ s' =>
      match skip with
      | S k => count_from s' sub k
      | O =>
          if String.prefix sub s
          then S (count_from s' sub (String.length sub - 1))
          else count_from s' sub 0
      end
  end.

(** [s.count(sub)]; for the empty [sub] Python counts the gaps. *)
Definition count (s sub : string) : nat :=
  match sub with
  | EmptyString => String.length s + 1
  | String _ _ => count_from s sub 0
  end.

(** The two docstring delimiters: three double quotes, three single
    quotes. *)
Definition double_quote : ascii := Ascii.ascii_of_nat 34.
Definition triple_double : string :=
  String double_quote (String double_quote (String double_quote EmptyString)).
Definition triple_single : string := "'''".

(** [s.startswith((p1, p2, ...))]. *)
Definition startswith_any (s : string) (ps : list string) : bool :=
  existsb (startswith s) ps.

(** The loop of the Python branch of
    [_condense_function_preserve_structure]: the lines appended to
    [result] from the lines still to be read, with the docstring state;
    the [break] ends the recursion. *)
Fixpoint preserve_structure_loop (lines : list string) (in_docstring : bool)
    (docstring_quotes : string) : list string :=
  match lines with
  | [] => []
  | line :: rest =>
      let stripped := strip line in
      if startswith stripped "def " || startswith stripped "async def " then
        line :: preserve_structure_loop rest in_docstring docstring_quotes
      else if negb in_docstring
              && (contains line triple_double || contains line triple_single) then
        let docstring_quotes :=
          if contains line triple_double then triple_double else triple_single in
        line :: preserve_structure_loop rest
                  (negb (2 <=? count line docstring_quotes)) docstring_quotes
      else if in_docstring then
        line :: preserve_structure_loop rest
                  (negb (contains line docstring_quotes)) docstring_quotes
      else if existsb (contains stripped) ["return"; "raise"; "yield"; "assert"] then
        line :: preserve_structure_loop rest in_docstring docstring_quotes
      else if startswith_any stripped
                ["if "; "elif "; "else:"; "for "; "while "; "try:"; "except"; "finally:"]
      then line :: preserve_structure_loop rest in_docstring docstring_quotes
      else if truthy_str stripped && negb (startswith stripped "#") then
        ["    # ... implementation details ..."]
      else preserve_structure_loop rest in_docstring docstring_quotes
  end.

(** [_condense_function_preserve_structure]; [docstring_quotes] starts as
    [None] and is only read once a docstring has set it. *)
Definition _condense_function_preserve_structure
    (function_content language : string) : string :=
  let lines := split_nl function_content in
  if String.eqb language "python" then
    join_nl (preserve_structure_loop lines false EmptyString)
  else if length lines <=? 10 then function_content
  else join_nl (take 5 lines ++ ["    // ... implementation ..."] ++ last_n lines 2).

(** [_condense_function_minimal]. *)
Definition _condense_function_minimal (function_content language : string) : string :=
  let lines := split_nl function_content in
  let found :=
    if String.eqb language "python" then
      option_map (fun line => line +:+ nl_string +:+ "    # ... implementation ...")
        (List.find (fun line => startswith_any (strip line) ["def "; "async def "]) lines)
    else
      option_map (fun line => line +:+ nl_string +:+ "    // ... implementation ...")
        (List.find
           (fun line => existsb (contains line) ["function"; "def"; "public"; "private"])
           lines) in
  match found with
  | Some text => text
  | None => List.hd EmptyString lines +:+ nl_string +:+ "    # ..."
  end.

(** [condense_function_selectively]. *)
Definition condense_function_selectively
    (function_content : string) (function_priority : PriorityLevel)
    (available_tokens : Z) (language : string) : string :=
  let estimated_tokens := estimate_tokens_from_text function_content in
  if (estimated_tokens <=? available_tokens)%Z then function_content
  else
    match function_priority with
    | CRITICAL | HIGH => _condense_function_preserve_structure function_content language
    | _ => _condense_function_minimal function_content language
    end.

(** The lines [_get_function_signature] collects from the definition's
    line on: up to and including the first that holds a colon. *)
Fixpoint signature_lines (rest : list string) : list string :=
  match rest with
  | [] => []
  | line :: rest' =>
      if contains line ":" then [line] else line :: signature_lines rest'
  end.

(** [_get_function_signature], on the name and line number of the node. *)
Definition _get_function_signature (name : string) (lineno : nat) (lines : list string)
  : string :=
  let line_no := lineno - 1 in
  if line_no <? length lines then join_nl (signature_lines (drop line_no lines))
  else "def " +:+ name +:+ "(...):".

(** [_get_class_signature]. *)
Definition _get_class_signature (name : string) (lineno : nat) (lines : list string)
  : string :=
  let line_no := lineno - 1 in
  if line_no <? length lines then nth line_no lines EmptyString
  else "class " +:+ name +:+ ":".

(** [_get_source_segment], on the node's two line numbers. *)
Definition _get_source_segment (lines : list string) (lineno end_lineno : nat) : string :=
  let start := Nat.max 0 (lineno - 1) in
  let end_ := Nat.min (length lines) end_lineno in
  join_nl (slice lines start end_).

(** ** Further functions of the chunker *)

(** [estimate_optimal_chunk_size]; the floor division raises for
    [target_chunks = 0], and [int(base_chunk_size * 1.2)] for a size beyond
    the range of a float. *)
Definition estimate_optimal_chunk_size
    (content : string) (file_path : Path) (total_token_budget target_chunks : Z)
  : outcome Z :=
  let total_tokens := estimate_tokens_from_text content in
  if (total_tokens <=? total_token_budget)%Z then Returned total_tokens
  else if (target_chunks =? 0)%Z then Raised ZeroDivisionError
  else
    let base_chunk_size := (total_token_budget / target_chunks)%Z in
    let file_extension := lower (path_suffix file_path) in
    if String.eqb file_extension ".py" then
      match int_of_product base_chunk_size (float_lit 1.2) with
      | Raised e => Raised e
      | Returned scaled => Returned (Z.min scaled (total_token_budget / 2))
      end
    else if str_in file_extension [".js"; ".ts"; ".jsx"; ".tsx"] then
      match int_of_product base_chunk_size (float_lit 0.8) with
      | Raised e => Raised e
      | Returned scaled => Returned (Z.max scaled 500)
      end
    else Returned base_chunk_size.

(* ===================================================================== *)
(** * Part IV. Definitions for the statements                             *)
(* ===================================================================== *)

(** ** The specification's own words *)

(** The level-selection table of the specification: per priority, the rows
    (threshold, level) in the order they are tried and the level taken when
    no threshold is satisfied. *)
Definition spec_threshold_table (priority : PriorityLevel)
  : list (Q * string) * string :=
  match priority with
  | CRITICAL => ([(1.3, LIGHT); (2.0, MODERATE); (3.0, HEAVY)], MAXIMUM)
  | HIGH => ([(1.5, LIGHT); (2.5, MODERATE); (4.0, HEAVY)], MAXIMUM)
  | MEDIUM | LOW => ([(2.0, MODERATE); (3.0, HEAVY)], MAXIMUM)
  end%Q.

(** "Evaluated as soon as a threshold is satisfied, else fall to next
    tier." *)
Fixpoint first_satisfied (rows : list (Q * string)) (otherwise : string)
    (compression_needed : Q) : string :=
  match rows with
  | [] => otherwise
  | (threshold, level) :: rows' =>
      if Qle_bool compression_needed threshold then level
      else first_satisfied rows' otherwise compression_needed
  end.

Definition spec_level (priority : PriorityLevel) (compression_needed : Q) : string :=
  first_satisfied (spec_threshold_table priority).1 (spec_threshold_table priority).2
    compression_needed.

(** "Increase one step" and "decrease one step" on the total order
    NONE < LIGHT < MODERATE < HEAVY < MAXIMUM, clamped at both ends. *)
Definition one_step_up (level : string) : string :=
  if String.eqb level NONE then LIGHT
  else if String.eqb level LIGHT then MODERATE
  else if String.eqb level MODERATE then HEAVY
  else MAXIMUM.

Definition one_step_down (level : string) : string :=
  if String.eqb level MAXIMUM then HEAVY
  else if String.eqb level HEAVY then MODERATE
  else if String.eqb level MODERATE then LIGHT
  else NONE.

(** The usage ratio as the claim about [adjust_condensing_level] words it:
    0 when the budget is 0, the quotient otherwise. *)
Definition claimed_usage_ratio (tokens_used total_budget : Z) : Q :=
  if (total_budget =? 0)%Z then 0%Q
  else (inject_Z tokens_used / inject_Z total_budget)%Q.

(** The usage ratio of the amended claim: the quotient for a positive
    budget, 0 for every other budget. *)
Definition usage_ratio (tokens_used total_budget : Z) : Q :=
  if (total_budget >? 0)%Z then (inject_Z tokens_used / inject_Z total_budget)%Q
  else 0%Q.

(** ** Lines, numbering and the packer's invariants *)

(** A line holds no newline. *)
Fixpoint no_nl (s : string) : bool :=
  match s with
  | EmptyString => true
  | String c s' => negb (Ascii.eqb c nl) && no_nl s'
  end.

(** The lines of a chunk's content. *)
Definition chunk_lines (c : Chunk) : list string := split_nl (content c).

(** "chunk_ids are dense, 1-based and strictly increasing; every chunk's
    total_chunks equals the final chunk count." *)
Definition well_numbered (chunks : list Chunk) : Prop :=
  map chunk_id chunks = seq 1 (length chunks)
  /\ Forall (fun c => total_chunks c = length chunks) chunks.

(** What a chunk's original content holds of the source lines, for the
    group [g] of consecutive source lines that starts at line [p]. A chunk
    with an [end_line] holds the group itself. A chunk without one is a
    part that [_split_large_boundary] made of a span starting at line
    [start_line]: it holds the group itself when the group starts at the
    span's first line (the first part), and otherwise the span's first
    line, [lines[start_line]], once more and then the group. *)
Definition carries_at (lines : list string) (p : nat) (c : Chunk) (g : list string)
  : Prop :=
  g <> []
  /\ match end_line c with
     | Some _ => content c = join_nl g
     | None =>
         exists s, start_line c = Some s
           /\ content c
              = join_nl (if p =? s then g else nth s lines EmptyString :: g)
     end.

(** The chunks, one by one, hold the groups, which lie end to end from
    line [p] on. *)
Fixpoint carried (lines : list string) (p : nat) (chunks : list Chunk)
    (gs : list (list string)) : Prop :=
  match chunks, gs with
  | [], [] => True
  | c :: chunks', g :: gs' =>
      carries_at lines p c g /\ carried lines (p + length g) chunks' gs'
  | _, _ => False
  end.

(** The states the [while] loop of the packer goes through. *)
Inductive reached (lines : list string) (boundaries : list Boundary)
    (max_tokens : Z) (priority : PriorityLevel) : pack_state -> Prop :=
| reached_init : reached lines boundaries max_tokens priority pack_init
| reached_step st :
    reached lines boundaries max_tokens priority st ->
    pk_i st < length lines ->
    reached lines boundaries max_tokens priority
      (pack_step lines boundaries max_tokens priority st).

(** Every span ends no earlier than it starts. *)
Definition spans_well_formed (boundaries : list Boundary) : Prop :=
  Forall (fun b => b_start b <= b_end b) boundaries.

(** A strategy that adds no annotation: what [chunk_with_context] returns
    under it is the chunks' original content. *)
Definition no_enrichment (strategy : ChunkingStrategy) : Prop :=
  include_context_headers strategy = false /\ overlap_functions strategy = false.

(** What the packer's loop keeps about the numbering. *)
Definition pack_numbered (st : pack_state) : Prop :=
  map chunk_id (pk_chunks st) = seq 1 (length (pk_chunks st))
  /\ pk_chunk_id st = 1 + length (pk_chunks st).

(** What the packer's loop keeps about the source lines: the chunks made so
    far and the lines being accumulated are the first [i] lines. *)
Definition pack_carries (lines : list string) (st : pack_state) : Prop :=
  exists gs,
    carried lines 0 (pk_chunks st) gs
    /\ concat gs ++ pk_current_chunk_lines st = take (pk_i st) lines.

(** The span [span], behind the lines [pre], sits in one place: in a chunk
    already made, or in the lines being accumulated. *)
Definition holds_span (pre span : list string) (st : pack_state) : Prop :=
  (exists c post, In c (pk_chunks st) /\ chunk_lines c = pre ++ span ++ post)
  \/ (exists post, pk_current_chunk_lines st = pre ++ span ++ post).

(** The strategy with its two annotation passes switched off. *)
Definition without_enrichment (strategy : ChunkingStrategy) : ChunkingStrategy :=
  {| preserve_functions := preserve_functions strategy;
     preserve_classes := preserve_classes strategy;
     include_context_headers := false;
     overlap_functions := false;
     max_context_lines := max_context_lines strategy;
     min_chunk_size := min_chunk_size strategy |}.

(** "Enrichment only adds": the returned chunk [c] has the id of the
    original chunk [o] and its content is the original content between
    added text. *)
Definition wraps (c o : Chunk) : Prop :=
  chunk_id c = chunk_id o
  /\ exists head foot, content c = head +:+ content o +:+ foot.

(** ** Predicates of the further properties *)

(** A line that is empty once stripped. *)
Definition is_blank (line : string) : bool := negb (truthy_str (strip line)).

(** A comment line: behind its indentation it starts with a hash. *)
Definition is_comment_line (line : string) : bool := startswith (strip line) "#".

(** A comment line whose hash is directly followed by a digit. *)
Definition is_numbered_comment (line : string) : bool :=
  existsb (fun d => startswith (strip line) ("#" +:+ d))
    ["0"; "1"; "2"; "3"; "4"; "5"; "6"; "7"; "8"; "9"].

(** A line of code: neither blank nor a comment line. *)
Definition is_code_line (line : string) : bool :=
  truthy_str (strip line) && negb (is_comment_line line).

(** Some blank line directly follows a blank line. *)
Fixpoint adjacent_blank (l : list string) : bool :=
  match l with
  | [] => false
  | a :: t =>
      match t with
      | [] => false
      | b :: _ => (is_blank a && is_blank b) || adjacent_blank t
      end
  end.

(** The sum of the counts of the level histogram. *)
Definition histogram_total (m : gmap string Z) : Z :=
  map_fold (fun _ v acc => (v + acc)%Z) 0%Z m.

(** The arguments of one call of [condense_with_budget]. *)
Definition call_args : Type := string * Path * Z * PriorityLevel * option Z.

Definition condense_call (stats : condenser_stats) (c : call_args)
  : outcome (string * gmap string info_value) * condenser_stats :=
  let '(text, fp, available, p, estimated) := c in
  condense_with_budget stats text fp available p estimated.

(** The stats after a sequence of calls on one instance. *)
Definition run_calls (stats : condenser_stats) (calls : list call_args)
  : condenser_stats :=
  fold_left (fun s c => (condense_call s c).2) calls stats.

(** The call is on content that is not whitespace-only and it returns:
    neither the level selection nor the condensing strategy raises. (The
    outcome does not depend on the stats the call starts from.) *)
Definition call_processed (c : call_args) : bool :=
  let '(text, fp, available, p, estimated) := c in
  truthy_str (strip text)
  && match (condense_with_budget condenser_init text fp available p estimated).1 with
     | Returned _ => true
     | Raised _ => false
     end.

(** The line ranges of the chunks lie end to end from line [from] up to,
    not including, line [to]. *)
Fixpoint ranges_tile (chunks : list Chunk) (from to : nat) : Prop :=
  match chunks with
  | [] => from = to
  | c :: rest =>
      exists e, start_line c = Some from /\ end_line c = Some e /\ from <= e
                /\ ranges_tile rest (S e) to
  end.

(** The chunk holds exactly the source lines its line range names. *)
Definition holds_its_range (lines : list string) (c : Chunk) : Prop :=
  exists s e, start_line c = Some s /\ end_line c = Some e /\ s <= e
              /\ content c = join_nl (slice lines s (S e)).

(** The sum of the estimates of the lines, as the loops add them up. *)
Definition sum_estimates (ls : list string) : Z :=
  fold_right (fun l acc => (estimate_tokens_from_text l + acc)%Z) 0%Z ls.

(** The chunk covers one line, or lines whose estimates add up to at most
    [max_tokens]. *)
Definition within_budget (lines : list string) (max_tokens : Z) (c : Chunk) : Prop :=
  exists s e, start_line c = Some s /\ end_line c = Some e
              /\ (s = e \/ (sum_estimates (slice lines s (S e)) <= max_tokens)%Z).

(** What the loop of [_chunk_generic_content] keeps after [k] lines. *)
Definition generic_kept (lines : list string) (max_tokens : Z)
    (st : generic_state) (k : nat) : Prop :=
  ranges_tile (g_chunks st) 0 (k - length (g_current_lines st))
  /\ g_current_lines st = slice lines (k - length (g_current_lines st)) k
  /\ length (g_current_lines st) <= k
  /\ Forall (holds_its_range lines) (g_chunks st)
  /\ Forall (within_budget lines max_tokens) (g_chunks st)
  /\ g_current_tokens st = sum_estimates (g_current_lines st)
  /\ (length (g_current_lines st) <= 1
      \/ (sum_estimates (g_current_lines st) <= max_tokens)%Z).

(** What every part that [_split_large_boundary] makes of a span looks
    like. *)
Definition part_of_span (signature_line : string) (start_chunk_id : nat)
    (boundary_type name : string) (start : nat) (c : Chunk) : Prop :=
  start_line c = Some start
  /\ end_line c = None
  /\ context_info c
     = Some (boundary_type +:+ " " +:+ name +:+ " (part "
             +:+ pretty (chunk_id c - start_chunk_id + 1) +:+ ")")
  /\ exists rest, content c = join_nl (signature_line :: rest).

(** A chunk with an [end_line] holds exactly the source lines from its
    [start_line] to its [end_line]. *)
Definition holds_range_if_any (lines : list string) (c : Chunk) : Prop :=
  forall e, end_line c = Some e ->
    exists s, start_line c = Some s /\ s <= e
              /\ content c = join_nl (slice lines s (S e)).

(** What the packer's loop keeps about the line ranges. *)
Definition pack_ranged (lines : list string) (st : pack_state) : Prop :=
  pk_last_line_processed st <= pk_i st
  /\ pk_current_chunk_lines st = slice lines (pk_last_line_processed st) (pk_i st)
  /\ Forall (holds_range_if_any lines) (pk_chunks st).

(** The chunk's [estimated_tokens] is the estimate of its content. *)
Definition fresh_estimate (c : Chunk) : Prop :=
  estimated_tokens c = Some (estimate_tokens_from_text (content c)).

(** Every chunk carries the estimate of its content, or there are at least
    two chunks (and the continuation pass will rewrite them). *)
Definition fresh_or_many (chunks : list Chunk) : Prop :=
  Forall fresh_estimate chunks \/ 2 <= length chunks.

(** The line holds no opening brace. *)
Fixpoint no_open_brace (s : string) : bool :=
  match s with
  | EmptyString => true
  | String c s' => negb (Ascii.eqb c "{") && no_open_brace s'
  end.

(** The passes between the dispatch and the end of [chunk_with_context]
    leave the file and chunk counters alone. *)
Definition same_file_counters (stats stats1 : chunker_stats) : Prop :=
  files_chunked stats1 = files_chunked stats
  /\ total_chunks_created stats1 = total_chunks_created stats
  /\ context_preservations stats1 = context_preservations stats
  /\ (function_overlaps stats <= function_overlaps stats1)%Z.

(** The numbers never go down along the list. *)
Fixpoint ascending (l : list nat) : Prop :=
  match l with
  | [] => True
  | x :: l' => Forall (fun y => x <= y) l' /\ ascending l'
  end.

(** A function or method that carries its two line numbers, in order. *)
Definition def_has_line_range (node : stmt) : Prop :=
  match node with
  | FunctionDef _ lineno end_lineno | AsyncFunctionDef _ lineno end_lineno =>
      match end_lineno with
      | Some e => 1 <= lineno <= e
      | None => False
      end
  | _ => True
  end.

(** The same for a top-level statement: a class also needs it of the
    functions directly in its body. *)
Definition has_line_range (node : stmt) : Prop :=
  match node with
  | ClassDef _ lineno end_lineno body =>
      match end_lineno with
      | Some e => 1 <= lineno <= e /\ Forall def_has_line_range body
      | None => False
      end
  | _ => def_has_line_range node
  end.

(** The chunks come in document order: their start lines never go down. *)
Definition in_document_order (chunks : list Chunk) : Prop :=
  ascending (omap start_line chunks).

(** What the packer's loop keeps about the order of the chunks. *)
Definition pack_ordered (st : pack_state) : Prop :=
  ascending (omap start_line (pk_chunks st))
  /\ Forall (fun s => s <= pk_last_line_processed st) (omap start_line (pk_chunks st))
  /\ pk_last_line_processed st <= pk_i st.

(** [ast.parse] raises nothing but SyntaxError on the text of a file that
    [chunk_with_context] parses. *)
Definition parser_answers (fp : Path) (source : string) : Prop :=
  String.eqb (lower (path_suffix fp)) ".py" = true ->
  forall e, ast_parse source <> ParseFails e.

(** The spans [chunk_with_context] works with for a file, by its
    extension. *)
Definition file_spans (fp : Path) (source : string) : list Boundary :=
  let lines := split_nl source in
  let file_extension := lower (path_suffix fp) in
  if String.eqb file_extension ".py" then
    match ast_parse source with
    | Parsed tree => _find_python_boundaries tree lines
    | _ => []
    end
  else if str_in file_extension [".js"; ".ts"; ".jsx"; ".tsx"] then js_boundaries lines
  else if String.eqb file_extension ".java" then java_boundaries lines
  else [].

(** The cost of a span as the packer computes it. *)
Definition span_cost (lines : list string) (b : Boundary) : Z :=
  estimate_tokens_from_text (join_nl (slice lines (b_start b) (b_end b + 1))).

(** No span is oversized. *)
Definition spans_fit (lines : list string) (boundaries : list Boundary)
    (max_tokens : Z) : Prop :=
  Forall (fun b => (span_cost lines b <= max_tokens)%Z) boundaries.

(** The level the code selects for a quotient, read as a function of the
    float. *)
Definition float_level (priority : PriorityLevel) (compression_needed : Q) : string :=
  match priority with
  | CRITICAL =>
      if Qle_bool compression_needed (float_lit 1.3) then LIGHT
      else if Qle_bool compression_needed (float_lit 2.0) then MODERATE
      else if Qle_bool compression_needed (float_lit 3.0) then HEAVY
      else MAXIMUM
  | HIGH =>
      if Qle_bool compression_needed (float_lit 1.5) then LIGHT
      else if Qle_bool compression_needed (float_lit 2.5) then MODERATE
      else if Qle_bool compression_needed (float_lit 4.0) then HEAVY
      else MAXIMUM
  | _ =>
      if Qle_bool compression_needed (float_lit 2.0) then MODERATE
      else if Qle_bool compression_needed (float_lit 3.0) then HEAVY
      else MAXIMUM
  end.

(** Closes the list equations of the packer's invariant. *)
Ltac cat_solve Hext Hcat :=
  rewrite Hext, <- Hcat; rewrite ?concat_app; cbn [concat];
  rewrite ?app_nil_r, <- ?app_assoc; cbn [app]; reflexivity.

(* ===================================================================== *)
(** * Part V. Properties of the condenser                                 *)
(* ===================================================================== *)

(** ** Rounding to binary64 *)

Section FloatFacts.
Local Open Scope Q_scope.

Lemma round_half_even_mono (x y : Q) :
  x <= y -> (round_half_even x <= round_half_even y)%Z.
Proof.
  intros Hxy. pose proof (Qfloor_resp_le x y Hxy) as Hf.
  pose proof (Qfloor_le x) as Hx1. pose proof (Qlt_floor x) as Hx2.
  pose proof (Qfloor_le y) as Hy1. pose proof (Qlt_floor y) as Hy2.
  unfold round_half_even.
  destruct (Z.eq_dec (Qfloor x) (Qfloor y)) as [Heq|Hne].
  - rewrite <- Heq in *.
    destruct (Qcompare_spec (x - inject_Z (Qfloor x)) (1 # 2)) as [Hc|Hc|Hc];
      destruct (Qcompare_spec (y - inject_Z (Qfloor x)) (1 # 2)) as [Hd|Hd|Hd];
      destruct (Z.even (Qfloor x)); try lia; exfalso; lra.
  - destruct (Qcompare (x - inject_Z (Qfloor x)) (1 # 2));
      destruct (Qcompare (y - inject_Z (Qfloor y)) (1 # 2));
      destruct (Z.even (Qfloor x)); destruct (Z.even (Qfloor y)); lia.
Qed.

Lemma round_half_even_Z (z : Z) : round_half_even (inject_Z z) = z.
Proof.
  unfold round_half_even. rewrite Qfloor_Z.
  destruct (Qcompare_spec (inject_Z z - inject_Z z) (1 # 2)) as [H|H|H];
    [exfalso; lra | reflexivity | exfalso; lra].
Qed.

Lemma two_power_pos (e : Z) : 0 < 2 ^ e.
Proof. apply Qpower_0_lt. reflexivity. Qed.

Lemma two_power_le (a b : Z) : (a <= b)%Z -> 2 ^ a <= 2 ^ b.
Proof. intros H. apply Qpower_le_compat_l; [exact H | discriminate]. Qed.

Lemma two_power_plus (a b : Z) : 2 ^ (a + b) == 2 ^ a * 2 ^ b.
Proof. apply Qpower_plus. discriminate. Qed.

Lemma two_power_Z (a : Z) : (0 <= a)%Z -> inject_Z (2 ^ a) == 2 ^ a.
Proof. intros H. now rewrite Zpower_Qpower. Qed.

Lemma floor_log2_spec (x : Q) :
  0 < x -> 2 ^ floor_log2 x <= x /\ x < 2 ^ (floor_log2 x + 1).
Proof.
  intros Hx. destruct x as [n d]. unfold floor_log2. cbn [Qnum Qden].
  assert (Hn : (0 < n)%Z) by (unfold Qlt in Hx; cbn in Hx; lia).
  set (a := Z.log2 n). set (b := Z.log2 (Zpos d)).
  destruct (Z.log2_spec n Hn) as [Ha1 Ha2]. fold a in Ha1, Ha2.
  destruct (Z.log2_spec (Zpos d) eq_refl) as [Hb1 Hb2]. fold b in Hb1, Hb2.
  assert (Ha0 : (0 <= a)%Z) by apply Z.log2_nonneg.
  assert (Hb0 : (0 <= b)%Z) by apply Z.log2_nonneg.
  assert (HN1 : 2 ^ a <= inject_Z n)
    by (rewrite <- two_power_Z by lia; now rewrite <- Zle_Qle).
  assert (HN2 : inject_Z n < 2 ^ (a + 1))
    by (rewrite <- two_power_Z by lia; rewrite <- Zlt_Qlt; now rewrite <- Z.add_1_r in Ha2).
  assert (HD1 : 2 ^ b <= inject_Z (Zpos d))
    by (rewrite <- two_power_Z by lia; now rewrite <- Zle_Qle).
  assert (HD2 : inject_Z (Zpos d) < 2 ^ (b + 1))
    by (rewrite <- two_power_Z by lia; rewrite <- Zlt_Qlt; now rewrite <- Z.add_1_r in Hb2).
  assert (HD0 : 0 < inject_Z (Zpos d)) by reflexivity.
  assert (Hq : n # d == inject_Z n / inject_Z (Zpos d)) by apply Qmake_Qdiv.
  destruct (Qle_bool (2 ^ (a - b)) (n # d)) eqn:Hk.
  - apply Qle_bool_iff in Hk. split; [exact Hk|].
    rewrite Hq. apply Qlt_shift_div_r; [exact HD0|].
    eapply Qlt_le_trans; [exact HN2|].
    replace (a + 1)%Z with ((a - b + 1) + b)%Z by lia.
    rewrite two_power_plus. apply Qmult_le_l; [apply two_power_pos | exact HD1].
  - assert (Hlt : n # d < 2 ^ (a - b)).
    { apply Qnot_le_lt. intros H. apply Qle_bool_iff in H. congruence. }
    split.
    + rewrite Hq. apply Qle_shift_div_l; [exact HD0|].
      eapply Qle_trans; [|exact HN1].
      replace a with ((a - b - 1) + (b + 1))%Z at 2 by lia.
      rewrite two_power_plus. apply Qmult_le_l; [apply two_power_pos|].
      now apply Qlt_le_weak.
    + replace (a - b - 1 + 1)%Z with (a - b)%Z by lia. exact Hlt.
Qed.

Lemma floor_log2_mono (x y : Q) :
  0 < x -> x <= y -> (floor_log2 x <= floor_log2 y)%Z.
Proof.
  intros Hx Hxy.
  assert (Hy : 0 < y) by (eapply Qlt_le_trans; eauto).
  destruct (floor_log2_spec x Hx) as [Hx1 _].
  destruct (floor_log2_spec y Hy) as [_ Hy2].
  destruct (Z_le_gt_dec (floor_log2 x) (floor_log2 y)) as [H|H]; [exact H|].
  exfalso. pose proof (two_power_le (floor_log2 y + 1) (floor_log2 x) ltac:(lia)).
  lra.
Qed.

Lemma scaled_le_53 (x : Q) (e : Z) :
  0 < x -> (floor_log2 x - 52 <= e)%Z ->
  (round_half_even (x / 2 ^ e) <= 2 ^ 53)%Z.
Proof.
  intros Hx He. rewrite <- (round_half_even_Z (2 ^ 53)).
  apply round_half_even_mono. apply Qle_shift_div_r; [apply two_power_pos|].
  destruct (floor_log2_spec x Hx) as [_ H2].
  rewrite two_power_Z by lia. rewrite <- two_power_plus.
  eapply Qle_trans; [apply Qlt_le_weak; exact H2|]. apply two_power_le. lia.
Qed.

Lemma scaled_ge_52 (x : Q) :
  0 < x ->
  (2 ^ 52 <= round_half_even (x / 2 ^ (floor_log2 x - 52)))%Z.
Proof.
  intros Hx. rewrite <- (round_half_even_Z (2 ^ 52)) at 1.
  apply round_half_even_mono. apply Qle_shift_div_l; [apply two_power_pos|].
  destruct (floor_log2_spec x Hx) as [H1 _].
  rewrite two_power_Z by lia. rewrite <- two_power_plus.
  replace (52 + (floor_log2 x - 52))%Z with (floor_log2 x) by lia. exact H1.
Qed.

Lemma b64_pos_mono (x y : Q) : 0 < x -> x <= y -> b64_pos x <= b64_pos y.
Proof.
  intros Hx Hxy.
  assert (Hy : 0 < y) by (eapply Qlt_le_trans; eauto).
  pose proof (floor_log2_mono x y Hx Hxy) as HL.
  unfold b64_pos.
  set (ex := Z.max (floor_log2 x - 52) (-1074)).
  set (ey := Z.max (floor_log2 y - 52) (-1074)).
  cbv zeta.
  destruct (Z.eq_dec ex ey) as [Heq|Hne].
  - rewrite <- Heq. apply Qmult_le_compat_r; [|apply Qlt_le_weak, two_power_pos].
    rewrite <- Zle_Qle. apply round_half_even_mono.
    apply Qmult_le_compat_r; [exact Hxy|].
    apply Qlt_le_weak, Qinv_lt_0_compat, two_power_pos.
  - assert (Hlt : (ex + 1 <= ey)%Z) by (subst ex ey; lia).
    assert (Hey : ey = (floor_log2 y - 52)%Z) by (subst ex ey; lia).
    pose proof (scaled_le_53 x ex Hx ltac:(subst ex; lia)) as Hrx.
    pose proof (scaled_ge_52 y Hy) as Hry. rewrite <- Hey in Hry.
    rewrite Zle_Qle in Hrx, Hry.
    rewrite two_power_Z in Hrx, Hry by lia.
    eapply Qle_trans; [apply Qmult_le_compat_r; [exact Hrx | apply Qlt_le_weak, two_power_pos]|].
    eapply Qle_trans; [|apply Qmult_le_compat_r; [exact Hry | apply Qlt_le_weak, two_power_pos]].
    rewrite <- !two_power_plus. apply two_power_le. lia.
Qed.

Lemma b64_pos_nonneg (x : Q) : 0 < x -> 0 <= b64_pos x.
Proof.
  intros Hx. unfold b64_pos. cbv zeta.
  apply Qmult_le_0_compat; [|apply Qlt_le_weak, two_power_pos].
  change 0 with (inject_Z 0). rewrite <- Zle_Qle.
  rewrite <- (round_half_even_Z 0). apply round_half_even_mono.
  apply Qle_shift_div_l; [apply two_power_pos|].
  change (inject_Z 0) with 0. rewrite Qmult_0_l. now apply Qlt_le_weak.
Qed.

Lemma Qnum_sign (x : Q) :
  match Qnum x with
  | Z0 => x == 0
  | Zpos _ => 0 < x
  | Zneg _ => x < 0
  end.
Proof. destruct x as [[|n|n] d]; unfold Qeq, Qlt; cbn; lia. Qed.

(** Rounding to binary64 is monotone. *)
Lemma b64_mono (x y : Q) : x <= y -> b64 x <= b64 y.
Proof.
  intros Hxy. unfold b64.
  pose proof (Qnum_sign x) as Hsx. pose proof (Qnum_sign y) as Hsy.
  pose proof (Qnum_sign (- x)) as Hnx. pose proof (Qnum_sign (- y)) as Hny.
  destruct (Qnum x) eqn:Ex; destruct (Qnum y) eqn:Ey; try (exfalso; lra).
  - apply Qle_refl.
  - now apply b64_pos_nonneg.
  - now apply b64_pos_mono.
  - assert (0 <= b64_pos (- x)) by (apply b64_pos_nonneg; lra). lra.
  - assert (0 <= b64_pos (- x)) by (apply b64_pos_nonneg; lra).
    assert (0 <= b64_pos y) by (apply b64_pos_nonneg; lra). lra.
  - assert (b64_pos (- y) <= b64_pos (- x)) by (apply b64_pos_mono; lra). lra.
Qed.

Lemma b64_le_lit (q t u : Q) :
  b64 u == u -> b64 t < u -> (t < q -> u <= q) ->
  Qle_bool (b64 q) (b64 t) = Qle_bool q t.
Proof.
  intros Hu Htu Hm. destruct (Qle_bool q t) eqn:E.
  - apply Qle_bool_iff. apply Qle_bool_iff in E. now apply b64_mono.
  - apply not_true_iff_false. apply not_true_iff_false in E.
    intros H. apply E. apply Qle_bool_iff. apply Qle_bool_iff in H.
    apply Qnot_lt_le. intros Hlt. specialize (Hm Hlt). apply b64_mono in Hm.
    rewrite Hu in Hm. lra.
Qed.

Lemma b64_ge_lit (q t l : Q) :
  b64 l == l -> l < b64 t -> (q < t -> q <= l) ->
  Qle_bool (b64 t) (b64 q) = Qle_bool t q.
Proof.
  intros Hl Hlt Hm. destruct (Qle_bool t q) eqn:E.
  - apply Qle_bool_iff. apply Qle_bool_iff in E. now apply b64_mono.
  - apply not_true_iff_false. apply not_true_iff_false in E.
    intros H. apply E. apply Qle_bool_iff. apply Qle_bool_iff in H.
    apply Qnot_lt_le. intros Hq. specialize (Hm Hq). apply b64_mono in Hm.
    rewrite Hl in Hm. lra.
Qed.

Ltac margin :=
  match goal with
  | |- context [inject_Z ?a / inject_Z ?b] =>
      let p := fresh "p" in
      destruct b as [|p|p]; try lia;
      unfold Qlt, Qle, Qdiv, Qmult, Qinv, inject_Z; cbn [Qnum Qden]; lia
  end.

Lemma float_tests_agree (a b : Z) :
  (0 < b < 2 ^ 48)%Z ->
  let q := inject_Z a / inject_Z b in
  Qle_bool (b64 q) (float_lit 1.3) = Qle_bool q 1.3
  /\ Qle_bool (b64 q) (float_lit 1.5) = Qle_bool q 1.5
  /\ Qle_bool (b64 q) (float_lit 2.0) = Qle_bool q 2.0
  /\ Qle_bool (b64 q) (float_lit 2.5) = Qle_bool q 2.5
  /\ Qle_bool (b64 q) (float_lit 3.0) = Qle_bool q 3.0
  /\ Qle_bool (b64 q) (float_lit 4.0) = Qle_bool q 4.0
  /\ Qle_bool (b64 q) (float_lit 0.8) = Qle_bool q 0.8
  /\ Qle_bool (float_lit 0.5) (b64 q) = Qle_bool 0.5 q.
Proof.
  intros Hb q. subst q. unfold float_lit. repeat split.
  - apply (b64_le_lit _ _ (5854679515581646 # 4503599627370496));
      [vm_compute; reflexivity | vm_compute; reflexivity | margin].
  - apply (b64_le_lit _ _ (6755399441055745 # 4503599627370496));
      [vm_compute; reflexivity | vm_compute; reflexivity | margin].
  - apply (b64_le_lit _ _ (4503599627370497 # 2251799813685248));
      [vm_compute; reflexivity | vm_compute; reflexivity | margin].
  - apply (b64_le_lit _ _ (5629499534213121 # 2251799813685248));
      [vm_compute; reflexivity | vm_compute; reflexivity | margin].
  - apply (b64_le_lit _ _ (6755399441055745 # 2251799813685248));
      [vm_compute; reflexivity | vm_compute; reflexivity | margin].
  - apply (b64_le_lit _ _ (4503599627370497 # 1125899906842624));
      [vm_compute; reflexivity | vm_compute; reflexivity | margin].
  - apply (b64_le_lit _ _ (7205759403792795 # 9007199254740992));
      [vm_compute; reflexivity | vm_compute; reflexivity | margin].
  - apply (b64_ge_lit _ _ (9007199254740991 # 18014398509481984));
      [vm_compute; reflexivity | vm_compute; reflexivity | margin].
Qed.

Lemma int_true_div_returns (a b : Z) :
  b <> 0%Z -> (Z.abs a < 2 ^ 1000)%Z ->
  int_true_div a b = Returned (b64 (inject_Z a / inject_Z b)).
Proof.
  intros Hb Ha. unfold int_true_div.
  destruct (Z.eqb_spec b 0) as [?|_]; [contradiction|]. cbv zeta.
  set (q := inject_Z a / inject_Z b).
  assert (Hq : - inject_Z (2 ^ 1000) <= q /\ q <= inject_Z (2 ^ 1000)).
  { subst q. destruct b as [|p|p]; try lia;
      unfold Qle, Qdiv, Qmult, Qinv, Qopp, inject_Z; cbn [Qnum Qden]; lia. }
  destruct Hq as [Hlo Hhi]. apply b64_mono in Hlo, Hhi.
  assert (E1 : b64 (- inject_Z (2 ^ 1000)) == - inject_Z (2 ^ 1000))
    by (vm_compute; reflexivity).
  assert (E2 : b64 (inject_Z (2 ^ 1000)) == inject_Z (2 ^ 1000))
    by (vm_compute; reflexivity).
  rewrite E1 in Hlo. rewrite E2 in Hhi.
  assert (Hfin : b64_finite (b64 q) = true).
  { unfold b64_finite. apply negb_true_iff. apply not_true_iff_false.
    intros H. apply Qle_bool_iff in H.
    assert (Habs : Qabs (b64 q) <= inject_Z (2 ^ 1000)) by (apply Qabs_Qle_condition; split; assumption).
    assert (Hlt : inject_Z (2 ^ 1000) < inject_Z (2 ^ 1024)) by (rewrite <- Zlt_Qlt; reflexivity).
    lra. }
  now rewrite Hfin.
Qed.

(** A quotient or product between two floats stays between them once
    rounded. *)
Lemma b64_within (q B : Q) :
  b64 B == B -> b64 (- B) == - B -> B < inject_Z (2 ^ 1024) ->
  - B <= q -> q <= B ->
  b64_finite (b64 q) = true /\ - B <= b64 q /\ b64 q <= B.
Proof.
  intros E2 E1 HB Hlo Hhi. apply b64_mono in Hlo, Hhi.
  rewrite E1 in Hlo. rewrite E2 in Hhi.
  split; [|split; assumption].
  unfold b64_finite. apply negb_true_iff. apply not_true_iff_false.
  intros H. apply Qle_bool_iff in H.
  assert (Habs : Qabs (b64 q) <= B) by (apply Qabs_Qle_condition; split; assumption).
  lra.
Qed.

Lemma product_within (x c B : Q) :
  - B <= x -> x <= B -> 0 <= c -> c <= 2 -> - (2 * B) <= x * c /\ x * c <= 2 * B.
Proof. intros. split; nra. Qed.

(** [int(n * c)] returns for an int below 2^1000 in absolute value and a
    float between 0 and 2. *)
Lemma int_of_product_returns (n : Z) (c : Q) :
  (Z.abs n < 2 ^ 1000)%Z -> 0 <= c -> c <= 2 ->
  exists z, int_of_product n c = Returned z.
Proof.
  intros Hn Hc0 Hc2. unfold int_of_product, float_of_int. cbv zeta.
  assert (Hq : - inject_Z (2 ^ 1000) <= inject_Z n /\ inject_Z n <= inject_Z (2 ^ 1000)).
  { rewrite <- inject_Z_opp, <- !Zle_Qle. lia. }
  destruct Hq as [Hlo Hhi].
  destruct (b64_within (inject_Z n) (inject_Z (2 ^ 1000))) as (Hfin & Hxlo & Hxhi);
    [vm_compute; reflexivity | vm_compute; reflexivity
    | rewrite <- Zlt_Qlt; reflexivity | exact Hlo | exact Hhi|].
  rewrite Hfin.
  destruct (product_within (b64 (inject_Z n)) c (inject_Z (2 ^ 1000))
              Hxlo Hxhi Hc0 Hc2) as [Hplo Hphi].
  assert (E : 2 * inject_Z (2 ^ 1000) == inject_Z (2 ^ 1001))
    by (vm_compute; reflexivity).
  rewrite E in Hplo, Hphi.
  destruct (b64_within (b64 (inject_Z n) * c) (inject_Z (2 ^ 1001))) as (Hfin' & _);
    [vm_compute; reflexivity | vm_compute; reflexivity
    | rewrite <- Zlt_Qlt; reflexivity | exact Hplo | exact Hphi|].
  rewrite Hfin'. eauto.
Qed.

End FloatFacts.

(** ** The level selection *)

Lemma Qlt_bool_iff (x y : Q) : Qlt_bool x y = true <-> (x < y)%Q.
Proof.
  unfold Qlt_bool. rewrite negb_true_iff. split.
  - intros H. apply Qnot_le_lt. intros Hle.
    apply Qle_bool_iff in Hle. congruence.
  - intros H. destruct (Qle_bool y x) eqn:E; [|reflexivity].
    apply Qle_bool_iff in E. exfalso. eapply Qlt_not_le; eauto.
Qed.

Lemma Qlt_bool_false_iff (x y : Q) : Qlt_bool x y = false <-> (y <= x)%Q.
Proof.
  unfold Qlt_bool. rewrite negb_false_iff. apply Qle_bool_iff.
Qed.

(** Under budget the level is NONE, whatever the priority. *)
Lemma determine_level_under_budget (estimated available : Z) (p : PriorityLevel) :
  (available >= estimated)%Z ->
  _determine_condensing_level estimated available p = Returned NONE.
Proof.
  intros H. unfold _determine_condensing_level.
  destruct (Z.geb_spec available estimated); [reflexivity | lia].
Qed.

(** Over budget, with a budget that is not 0 and an estimate within the
    range of a float, the level is the one the tests give on the rounded
    quotient. *)
Lemma determine_level_float (estimated available : Z) (p : PriorityLevel) :
  available <> 0%Z -> (available < estimated)%Z -> (Z.abs estimated < 2 ^ 1000)%Z ->
  _determine_condensing_level estimated available p
  = Returned (float_level p (b64 (inject_Z estimated / inject_Z available))).
Proof.
  intros Hnz Hlt Hbound. unfold _determine_condensing_level.
  destruct (Z.geb_spec available estimated) as [Hge|_]; [lia|].
  rewrite (int_true_div_returns estimated available Hnz Hbound).
  unfold float_level.
  destruct p; repeat (match goal with |- context [if ?b then _ else _] => destruct b end);
    reflexivity.
Qed.

(** With a budget that is not 0 and an estimate within the range of a
    float, the level selection returns. *)
Lemma determine_level_returns (estimated available : Z) (p : PriorityLevel) :
  (estimated <= available \/ (available <> 0 /\ Z.abs estimated < 2 ^ 1000))%Z ->
  exists level, _determine_condensing_level estimated available p = Returned level.
Proof.
  intros H. destruct (Z_le_gt_dec estimated available) as [Hle|Hgt].
  - rewrite determine_level_under_budget by lia. eauto.
  - destruct H as [H|[Hnz Hb]]; [lia|].
    rewrite determine_level_float by lia. eauto.
Qed.

(** At NONE the content is passed through. *)
Lemma apply_condensing_none (content : string) (fp : Path) (p : PriorityLevel) :
  _apply_condensing content fp NONE p = Returned content.
Proof. reflexivity. Qed.

(** The strategy returns when the parsers it calls raise nothing that the
    code does not catch. *)
Lemma apply_condensing_returns
    (content : string) (fp : Path) (level : string) (p : PriorityLevel) :
  (String.eqb (lower (path_suffix fp)) ".py" = true ->
   forall e, ast_parse content <> ParseFails e) ->
  (str_in (lower (path_suffix fp)) [".json"; ".yaml"; ".yml"] = true ->
   forall e, describe_config_structure content level <> Raised e) ->
  exists out, _apply_condensing content fp level p = Returned out.
Proof.
  intros Hpy Hcfg. unfold _apply_condensing.
  destruct (String.eqb level NONE); [eauto|]. cbv zeta.
  destruct (String.eqb (lower (path_suffix fp)) ".py").
  { unfold _condense_python_content. specialize (Hpy eq_refl).
    destruct (ast_parse content) as [tree| |e]; [eauto | eauto | now destruct (Hpy e)]. }
  destruct (str_in (lower (path_suffix fp)) [".js"; ".ts"; ".jsx"; ".tsx"]); [eauto|].
  destruct (String.eqb (lower (path_suffix fp)) ".java"); [eauto|].
  destruct (str_in (lower (path_suffix fp)) [".json"; ".yaml"; ".yml"]); [|eauto].
  unfold _condense_config_content. specialize (Hcfg eq_refl).
  destruct (String.eqb level LIGHT); [eauto|].
  destruct (describe_config_structure content level) as [[summary|]|e];
    [eauto | | now destruct (Hcfg e)].
  destruct (length (split_nl content) <=? 20); eauto.
Qed.

(** For a positive budget below 2^48 the tests on the rounded quotient
    agree with the rows of the specification's table on the exact one. *)
Lemma float_level_is_spec_level (estimated available : Z) (p : PriorityLevel) :
  (0 < available < 2 ^ 48)%Z ->
  float_level p (b64 (inject_Z estimated / inject_Z available))
  = spec_level p (inject_Z estimated / inject_Z available).
Proof.
  intros Hb.
  destruct (float_tests_agree estimated available Hb)
    as (H13 & H15 & H20 & H25 & H30 & H40 & _ & _).
  unfold float_level, spec_level.
  destruct p; cbn [spec_threshold_table fst snd first_satisfied];
    rewrite ?H13, ?H15, ?H20, ?H25, ?H30, ?H40; reflexivity.
Qed.

Lemma determine_level_is_spec_level
    (estimated available : Z) (p : PriorityLevel) :
  (0 < available < 2 ^ 48)%Z -> (available < estimated < 2 ^ 1000)%Z ->
  _determine_condensing_level estimated available p
  = Returned (spec_level p (inject_Z estimated / inject_Z available)).
Proof.
  intros Hb He.
  rewrite determine_level_float by lia.
  now rewrite float_level_is_spec_level.
Qed.

(** C4 (as amended). For every priority, every available_tokens with
    0 < available_tokens < 2^48 and every estimated_tokens with
    available_tokens < estimated_tokens < 2^1000, the level
    [_determine_condensing_level] returns is the one the specification's
    threshold table gives for the exact quotient
    compression_needed = estimated_tokens / available_tokens: for CRITICAL,
    LIGHT up to 1.3, MODERATE up to 2.0, HEAVY up to 3.0, else MAXIMUM; for
    HIGH, LIGHT up to 1.5, MODERATE up to 2.5, HEAVY up to 4.0, else
    MAXIMUM; for MEDIUM and LOW, MODERATE up to 2.0, HEAVY up to 3.0, else
    MAXIMUM. *)
Theorem determine_level_matches_table
    (estimated available : Z) (p : PriorityLevel) :
  (0 < available < 2 ^ 48)%Z -> (available < estimated < 2 ^ 1000)%Z ->
  _determine_condensing_level estimated available p
  = Returned (spec_level p (inject_Z estimated / inject_Z available)).
Proof. exact (determine_level_is_spec_level estimated available p). Qed.

(** C2 (the code at the failing input). At compression_needed = 1.4 the
    CRITICAL thresholds select MODERATE while the HIGH thresholds select
    LIGHT: the higher priority gets the more aggressive level. *)
Theorem critical_condensed_harder_than_high :
  _determine_condensing_level 14 10 CRITICAL = Returned MODERATE
  /\ _determine_condensing_level 14 10 HIGH = Returned LIGHT
  /\ priority_rank HIGH < priority_rank CRITICAL
  /\ level_rank LIGHT < level_rank MODERATE.
Proof. repeat split; vm_compute; lia. Qed.

(** The float literals of the tests, in their order. *)
Lemma float_literals_ascend :
  (float_lit 1.3 <= float_lit 1.5)%Q /\ (float_lit 1.5 <= float_lit 2.0)%Q
  /\ (float_lit 2.0 <= float_lit 2.5)%Q /\ (float_lit 2.5 <= float_lit 3.0)%Q
  /\ (float_lit 3.0 <= float_lit 4.0)%Q.
Proof. repeat split; vm_compute; discriminate. Qed.

(** Every pair of priorities other than CRITICAL above HIGH is treated in
    order: the level of the higher priority is never the more aggressive
    one. *)
Lemma float_level_priority_order (p1 p2 : PriorityLevel) (r : Q) :
  priority_rank p2 < priority_rank p1 ->
  ~ (p1 = CRITICAL /\ p2 = HIGH) ->
  level_rank (float_level p1 r) <= level_rank (float_level p2 r).
Proof.
  intros Hrank Hpair.
  destruct float_literals_ascend as (L1 & L2 & L3 & L4 & L5).
  set (c13 := float_lit 1.3) in *. set (c15 := float_lit 1.5) in *.
  set (c20 := float_lit 2.0) in *. set (c25 := float_lit 2.5) in *.
  set (c30 := float_lit 3.0) in *. set (c40 := float_lit 4.0) in *.
  destruct p1, p2; cbn in Hrank; try lia; try (exfalso; apply Hpair; split; reflexivity);
    unfold float_level; fold c13 c15 c20 c25 c30 c40;
    repeat match goal with
           | |- context [Qle_bool r ?t] =>
               let E := fresh "E" in
               destruct (Qle_bool r t) eqn:E;
               [apply Qle_bool_iff in E
               |apply not_true_iff_false in E; rewrite Qle_bool_iff in E;
                apply Qnot_le_lt in E]
           end;
    try (vm_compute; lia); exfalso; lra.
Qed.

Lemma determine_level_priority_order
    (estimated available : Z) (p1 p2 : PriorityLevel) :
  available <> 0%Z -> (available < estimated)%Z -> (Z.abs estimated < 2 ^ 1000)%Z ->
  priority_rank p2 < priority_rank p1 ->
  ~ (p1 = CRITICAL /\ p2 = HIGH) ->
  exists l1 l2,
    _determine_condensing_level estimated available p1 = Returned l1
    /\ _determine_condensing_level estimated available p2 = Returned l2
    /\ level_rank l1 <= level_rank l2.
Proof.
  intros Hnz Hlt Hb Hrank Hpair.
  rewrite !determine_level_float by assumption.
  eexists _, _. split; [reflexivity|]. split; [reflexivity|].
  now apply float_level_priority_order.
Qed.

(** C3 (the code at the failing input). With available_tokens = 0 and a
    positive estimate, [condense_with_budget] raises ZeroDivisionError from
    the division in [_determine_condensing_level]; the stats are
    untouched. *)
Theorem zero_budget_raises
    (stats : condenser_stats) (fp : Path) (p : PriorityLevel) :
  condense_with_budget stats "x = 1" fp 0 p (Some 1%Z)
  = (Raised ZeroDivisionError, stats).
Proof. reflexivity. Qed.

(** C5. Whenever available_tokens >= estimated_tokens (the estimate passed
    in, or the estimator's when none is passed), [condense_with_budget]
    returns the content as it was with level NONE, and condensing that
    output again at the same budget returns the same output with the same
    info record. *)
Theorem condense_under_budget_is_identity
    (stats : condenser_stats) (content : string) (fp : Path)
    (available : Z) (p : PriorityLevel) (estimated : option Z) :
  (available >= default (estimate_tokens_from_text content) estimated)%Z ->
  match condense_with_budget stats content fp available p estimated with
  | (Returned (out, info), stats1) =>
      out = content
      /\ info !! "level" = Some (VStr NONE)
      /\ match condense_with_budget stats1 out fp available p estimated with
         | (Returned (out2, info2), _) => out2 = out /\ info2 = info
         | (Raised _, _) => False
         end
  | (Raised _, _) => False
  end.
Proof.
  intros H. unfold condense_with_budget.
  destruct (negb (truthy_str (strip content))) eqn:Hws.
  - rewrite Hws. repeat split. 
  - assert (Hd : _determine_condensing_level
                   match estimated with
                   | Some e => e
                   | None => estimate_tokens_from_text content
                   end available p = Returned NONE).
    { apply determine_level_under_budget. destruct estimated; exact H. }
    rewrite Hd. rewrite apply_condensing_none. rewrite Hws, Hd.
    rewrite apply_condensing_none. repeat split.
Qed.

(** C8 (as amended). A call on content that is not whitespace-only returns
    when the level selection and the condensing strategy do: when the
    estimate does not exceed available_tokens, or available_tokens is not 0
    and the estimate is below 2^1000 in absolute value; when [ast.parse]
    raises nothing but SyntaxError on the content of a .py file; and when
    the json-then-yaml attempt on a .json, .yaml or .yml file raises nothing
    the code does not catch. It then returns the condensed content with an
    info record holding the level used, the original estimate, the final
    estimate, tokens saved (original minus final), the compression ratio
    (the float final / original when original > 0, 1.0 otherwise) and the
    priority name. Whitespace-only or empty content is returned unchanged,
    with an info record that holds only level NONE and tokens_saved 0, and
    the stats are left alone. *)
Theorem condense_info_record
    (stats : condenser_stats) (content : string) (fp : Path)
    (available : Z) (p : PriorityLevel) (estimated : option Z) :
  let original := default (estimate_tokens_from_text content) estimated in
  (truthy_str (strip content) = true ->
   (original <= available \/ (available <> 0 /\ Z.abs original < 2 ^ 1000))%Z
   /\ (String.eqb (lower (path_suffix fp)) ".py" = true ->
       forall e, ast_parse content <> ParseFails e)
   /\ (str_in (lower (path_suffix fp)) [".json"; ".yaml"; ".yml"] = true ->
       forall level e, describe_config_structure content level <> Raised e)) ->
  exists out info stats1,
    condense_with_budget stats content fp available p estimated
    = (Returned (out, info), stats1)
    /\ if truthy_str (strip content) then
         exists level,
           _determine_condensing_level original available p = Returned level
           /\ _apply_condensing content fp level p = Returned out
           /\ info !! "level" = Some (VStr level)
           /\ info !! "original_tokens" = Some (VInt original)
           /\ info !! "final_tokens" = Some (VInt (estimate_tokens_from_text out))
           /\ info !! "tokens_saved"
              = Some (VInt (original - estimate_tokens_from_text out))
           /\ info !! "compression_ratio"
              = Some (VFloat (if (original >? 0)%Z
                              then b64 (inject_Z (estimate_tokens_from_text out)
                                        / inject_Z original)
                              else 1.0)%Q)
           /\ info !! "priority" = Some (VStr (priority_name p))
           /\ dom info = list_to_set ["level"; "original_tokens"; "final_tokens";
                                      "tokens_saved"; "compression_ratio"; "priority"]
       else
         out = content
         /\ info = {[ "level" := VStr NONE; "tokens_saved" := VInt 0 ]}
         /\ stats1 = stats.
Proof.
  intros original Hret. unfold condense_with_budget.
  destruct (truthy_str (strip content)) eqn:Hws; cbn [negb].
  - destruct (Hret eq_refl) as (Hlvl & Hpy & Hcfg).
    destruct (determine_level_returns original available p Hlvl) as [level Hlevel].
    destruct (apply_condensing_returns content fp level p Hpy (fun H => Hcfg H level))
      as [out Hout].
    assert (Horig : match estimated with
                    | Some e => e
                    | None => estimate_tokens_from_text content
                    end = original) by (unfold original; destruct estimated; reflexivity).
    rewrite Horig, Hlevel, Hout.
    eexists _, _, _. split; [reflexivity|].
    exists level. split; [reflexivity|]. split; [exact Hout|].
    repeat split; simplify_map_eq; reflexivity.
  - eexists _, _, _. split; [reflexivity|]. repeat split.
Qed.

(** C10. The result of [condense_with_budget] (the text and the info
    record, or the exception) is the same from any two states of the stats
    counters: what earlier calls accumulated never reaches the output. *)
Theorem condense_result_ignores_stats
    (stats1 stats2 : condenser_stats) (content : string) (fp : Path)
    (available : Z) (p : PriorityLevel) (estimated : option Z) :
  (condense_with_budget stats1 content fp available p estimated).1
  = (condense_with_budget stats2 content fp available p estimated).1.
Proof.
  unfold condense_with_budget.
  destruct (negb (truthy_str (strip content))); [reflexivity|].
  destruct (_determine_condensing_level _ available p) as [level|e]; [|reflexivity].
  destruct (_apply_condensing content fp level p); reflexivity.
Qed.

(** The tests of [adjust_condensing_level] on the float of a positive
    budget below 2^48 are the tests on the exact ratio. *)
Lemma adjust_on_exact_ratio
    (current_content current_level : string) (tokens_used total_budget : Z) :
  (total_budget < 2 ^ 48)%Z -> (Z.abs tokens_used < 2 ^ 1000)%Z ->
  adjust_condensing_level current_content current_level tokens_used total_budget
  = Returned
      (if Qlt_bool 0.8 (usage_ratio tokens_used total_budget)
       then _increase_condensing_level current_level
       else if Qlt_bool (usage_ratio tokens_used total_budget) 0.5
       then _decrease_condensing_level current_level
       else current_level).
Proof.
  intros Hb Hu. unfold adjust_condensing_level, usage_ratio.
  destruct (Z.gtb_spec total_budget 0) as [Hpos|Hneg].
  - rewrite (int_true_div_returns tokens_used total_budget) by lia.
    destruct (float_tests_agree tokens_used total_budget ltac:(lia))
      as (_ & _ & _ & _ & _ & _ & H08 & H05).
    unfold Qlt_bool. rewrite H08, H05.
    repeat (match goal with |- context [if ?b then _ else _] => destruct b end);
      reflexivity.
  - reflexivity.
Qed.

(** C9 (as amended). For each of the five levels, every total_budget below
    2^48 and every tokens_used below 2^1000 in absolute value, with the
    ratio tokens_used / total_budget taken as 0 whenever total_budget <= 0:
    the result is one step up when the ratio is above 0.8, one step down
    when it is below 0.5, and the level itself otherwise, the steps being
    clamped at NONE and MAXIMUM. *)
Theorem adjust_condensing_level_steps
    (current_content current_level : string) (tokens_used total_budget : Z) :
  In current_level levels ->
  (total_budget < 2 ^ 48)%Z -> (Z.abs tokens_used < 2 ^ 1000)%Z ->
  let ratio := usage_ratio tokens_used total_budget in
  ((0.8 < ratio)%Q ->
   adjust_condensing_level current_content current_level tokens_used total_budget
   = Returned (one_step_up current_level))
  /\ ((ratio < 0.5)%Q ->
      adjust_condensing_level current_content current_level tokens_used total_budget
      = Returned (one_step_down current_level))
  /\ ((0.5 <= ratio)%Q -> (ratio <= 0.8)%Q ->
      adjust_condensing_level current_content current_level tokens_used total_budget
      = Returned current_level).
Proof.
  intros Hin Hb Hu ratio.
  rewrite (adjust_on_exact_ratio current_content current_level tokens_used
             total_budget Hb Hu).
  fold ratio.
  assert (Hup : _increase_condensing_level current_level = one_step_up current_level).
  { cbn in Hin. destruct Hin as [<-|[<-|[<-|[<-|[<-|[]]]]]]; reflexivity. }
  assert (Hdown : _decrease_condensing_level current_level = one_step_down current_level).
  { cbn in Hin. destruct Hin as [<-|[<-|[<-|[<-|[<-|[]]]]]]; reflexivity. }
  repeat split.
  - intros H. apply Qlt_bool_iff in H. rewrite H. now rewrite Hup.
  - intros H.
    assert (H8 : Qlt_bool 0.8 ratio = false).
    { apply Qlt_bool_false_iff. apply Qlt_le_weak.
      eapply Qlt_trans; [exact H | reflexivity]. }
    apply Qlt_bool_iff in H. rewrite H8, H. now rewrite Hdown.
  - intros H5 H8.
    apply Qlt_bool_false_iff in H5. apply Qlt_bool_false_iff in H8.
    rewrite H8, H5. reflexivity.
Qed.

(* ===================================================================== *)
(** * Part VI. Properties of the chunker                                  *)
(* ===================================================================== *)

(** ** Lines and strings *)

Lemma split_nl_nonempty (s : string) : split_nl s <> [].
Proof.
  induction s as [|c s IH]; cbn; [discriminate|].
  destruct (Ascii.eqb c nl); [discriminate|].
  destruct (split_nl s); discriminate.
Qed.

Lemma join_nl_cons (l : string) (ls : list string) :
  ls <> [] -> join_nl (l :: ls) = l +:+ String nl (join_nl ls).
Proof. destruct ls; [congruence | reflexivity]. Qed.

(** ["\n".join(s.split("\n")) == s]. *)
Lemma join_split_nl (s : string) : join_nl (split_nl s) = s.
Proof.
  induction s as [|c s IH]; [reflexivity|].
  cbn [split_nl]. destruct (Ascii.eqb_spec c nl) as [->|Hc].
  - rewrite join_nl_cons by apply split_nl_nonempty. cbn. now rewrite IH.
  - pose proof (split_nl_nonempty s) as Hne.
    destruct (split_nl s) as [|l ls]; [congruence|].
    destruct ls as [|l' ls]; cbn in *; now rewrite <- IH.
Qed.

Lemma split_nl_no_nl (s : string) : Forall (fun l => no_nl l = true) (split_nl s).
Proof.
  induction s as [|c s IH]; cbn [split_nl]; [repeat constructor|].
  destruct (Ascii.eqb c nl) eqn:Hc; [constructor; [reflexivity | exact IH]|].
  destruct (split_nl s) as [|l ls]; [repeat constructor; cbn; now rewrite Hc|].
  inversion IH as [|? ? Hl Hls]; subst. constructor; [|exact Hls].
  cbn. now rewrite Hc, Hl.
Qed.

Lemma split_nl_line (l : string) : no_nl l = true -> split_nl l = [l].
Proof.
  induction l as [|c l IH]; [reflexivity|]. cbn. intros H.
  apply andb_true_iff in H as [Hc Hl]. apply negb_true_iff in Hc.
  rewrite Hc, (IH Hl). reflexivity.
Qed.

Lemma split_nl_append (l r : string) :
  no_nl l = true -> split_nl (l +:+ String nl r) = l :: split_nl r.
Proof.
  induction l as [|c l IH]; intros H.
  - reflexivity.
  - cbn in H. apply andb_true_iff in H as [Hc Hl]. apply negb_true_iff in Hc.
    change (String c l +:+ String nl r) with (String c (l +:+ String nl r)).
    cbn [split_nl]. rewrite Hc, (IH Hl). reflexivity.
Qed.

(** [("\n".join(ls)).split("\n") == ls] for a non-empty list of lines. *)
Lemma split_join_nl (ls : list string) :
  ls <> [] -> Forall (fun l => no_nl l = true) ls -> split_nl (join_nl ls) = ls.
Proof.
  induction ls as [|l ls IH]; [congruence|]. intros _ H.
  inversion H as [|? ? Hl Hls]; subst.
  destruct ls as [|l' ls]; [now apply split_nl_line|].
  rewrite join_nl_cons by discriminate.
  rewrite split_nl_append by exact Hl. f_equal. apply IH; [discriminate | exact Hls].
Qed.

Lemma string_append_assoc (a b c : string) : (a +:+ b) +:+ c = a +:+ (b +:+ c).
Proof.
  induction a as [|x a IH]; [reflexivity|].
  change (String x ((a +:+ b) +:+ c) = String x (a +:+ (b +:+ c))).
  now rewrite IH.
Qed.

Lemma join_nl_app (g r : list string) :
  g <> [] -> r <> [] -> join_nl (g ++ r) = join_nl g +:+ String nl (join_nl r).
Proof.
  intros Hg Hr. induction g as [|l g IH]; [congruence|].
  destruct g as [|l2 g].
  - cbn [app]. now rewrite join_nl_cons.
  - change ((l :: l2 :: g) ++ r) with (l :: ((l2 :: g) ++ r)).
    rewrite !join_nl_cons by discriminate.
    rewrite IH by discriminate.
    now rewrite string_append_assoc.
Qed.

(** Joining the joined groups is joining all their lines. *)
Lemma join_nl_groups (gs : list (list string)) :
  Forall (fun g => g <> []) gs -> join_nl (map join_nl gs) = join_nl (concat gs).
Proof.
  induction gs as [|g gs IH]; [reflexivity|]. intros H.
  inversion H as [|? ? Hg Hgs]; subst. specialize (IH Hgs).
  destruct gs as [|g' gs].
  - cbn. now rewrite app_nil_r.
  - assert (Hne : concat (g' :: gs) <> []).
    { inversion Hgs; subst. cbn. destruct g'; [congruence | discriminate]. }
    cbn [map]. rewrite join_nl_cons by discriminate. cbn [map] in IH. rewrite IH.
    change (concat (g :: g' :: gs)) with (g ++ concat (g' :: gs)).
    now rewrite join_nl_app.
Qed.

(** ** Loops *)

Lemma fold_left_invariant {S X} (P : S -> Prop) (f : S -> X -> S) (l : list X) (s : S) :
  P s -> (forall s x, P s -> P (f s x)) -> P (fold_left f l s).
Proof.
  intros Hs Hstep. revert s Hs. induction l as [|x l IH]; intros s Hs; cbn; auto.
Qed.

Section PackerFacts.
Variable lines : list string.
Variable boundaries : list Boundary.
Variable max_tokens : Z.
Variable priority : PriorityLevel.

#[local] Abbreviation step := (pack_step lines boundaries max_tokens priority).
#[local] Abbreviation loop := (pack_loop lines boundaries max_tokens priority).

Lemma find_boundary_Some (i : nat) (b : Boundary) :
  find_boundary boundaries i = Some b -> In b boundaries /\ b_start b = i.
Proof.
  unfold find_boundary. intros H. apply find_some in H as [Hin Heq].
  split; [exact Hin|]. now apply Nat.eqb_eq.
Qed.

(** A property the loop keeps is a property of the state it ends in. *)
Lemma pack_loop_invariant (P : pack_state -> Prop) :
  (forall st, P st -> pk_i st < length lines -> P (step st)) ->
  forall fuel st final, P st -> loop fuel st = Some final ->
    P final /\ length lines <= pk_i final.
Proof.
  intros Hstep fuel. induction fuel as [|fuel IH]; intros st final Hst; cbn [pack_loop].
  - destruct (Nat.ltb_spec (pk_i st) (length lines)); [intros ?; discriminate|].
    intros [= <-]. auto.
  - destruct (Nat.ltb_spec (pk_i st) (length lines)).
    + apply IH. now apply Hstep.
    + intros [= <-]. auto.
Qed.

(** Each round moves [i] forward when spans are well formed. *)
Lemma pack_step_advances (st : pack_state) :
  spans_well_formed boundaries -> pk_i st < pk_i (step st).
Proof.
  intros Hwf. unfold pack_step.
  destruct (find_boundary boundaries (pk_i st)) as [[[[start end_] btype] name]|] eqn:Hb.
  - apply find_boundary_Some in Hb as [Hin Hstart].
    unfold spans_well_formed in Hwf. rewrite List.Forall_forall in Hwf.
    specialize (Hwf _ Hin). unfold b_start, b_end in *. cbn in *.
    repeat (match goal with |- context [if ?b then _ else _] => destruct b end);
      cbn; lia.
  - repeat (match goal with |- context [if ?b then _ else _] => destruct b end);
      cbn; lia.
Qed.

(** With well-formed spans the loop is left within [len(lines)] rounds. *)
Lemma pack_loop_terminates (fuel : nat) (st : pack_state) :
  spans_well_formed boundaries ->
  length lines <= pk_i st + fuel ->
  exists final, loop fuel st = Some final.
Proof.
  intros Hwf. revert st. induction fuel as [|fuel IH]; intros st Hle; cbn [pack_loop].
  - destruct (Nat.ltb_spec (pk_i st) (length lines)); [lia | eauto].
  - destruct (Nat.ltb_spec (pk_i st) (length lines)); [|eauto].
    apply IH. pose proof (pack_step_advances st Hwf). lia.
Qed.

End PackerFacts.

(** ** Numbering of the chunks *)

Lemma ids_app (a : nat) (cs ds : list Chunk) :
  map chunk_id cs = seq a (length cs) ->
  map chunk_id ds = seq (a + length cs) (length ds) ->
  map chunk_id (cs ++ ds) = seq a (length (cs ++ ds)).
Proof.
  intros Hc Hd. rewrite map_app, length_app, seq_app, Hc, Hd. reflexivity.
Qed.

Lemma ids_snoc (a : nat) (cs : list Chunk) (c : Chunk) :
  map chunk_id cs = seq a (length cs) ->
  chunk_id c = a + length cs ->
  map chunk_id (cs ++ [c]) = seq a (length (cs ++ [c])).
Proof.
  intros Hc Hid. apply ids_app; [exact Hc|]. cbn. now rewrite Hid.
Qed.

(** The sub-chunks of an oversized span are numbered from [start_chunk_id]
    on, and there is at least one. *)
Lemma split_large_boundary_ids
    (boundary_lines : list string) (max_tokens : Z) (start_chunk_id : nat)
    (btype name : string) (start : nat) :
  let subs :=
    _split_large_boundary boundary_lines max_tokens start_chunk_id btype name start in
  map chunk_id subs = seq start_chunk_id (length subs) /\ subs <> [].
Proof.
  unfold _split_large_boundary.
  set (sig := List.hd EmptyString boundary_lines).
  match goal with |- context [fold_left ?f ?l ?s0] => set (st := fold_left f l s0) end.
  assert (Hinv : (map chunk_id (sp_sub_chunks st)
                  = seq start_chunk_id (length (sp_sub_chunks st))
                  /\ sp_chunk_id st = start_chunk_id + length (sp_sub_chunks st))
                 /\ sp_current_lines st <> []).
  { subst st. apply fold_left_invariant.
    - cbn. repeat split; [lia | discriminate].
    - intros s line [[Hids Hid] Hne]. unfold split_step.
      destruct (_ <=? max_tokens)%Z; cbn.
      + repeat split; auto. destruct (sp_current_lines s); discriminate.
      + repeat split; [|rewrite length_app; cbn; lia | discriminate].
        now apply ids_snoc. }
  destruct Hinv as [[Hids Hid] Hne].
  destruct (sp_current_lines st) eqn:Hcur; [congruence|].
  cbn zeta. split.
  - now apply ids_snoc.
  - destruct (sp_sub_chunks st); discriminate.
Qed.

Lemma set_total_chunks_ids (n : nat) (chunks : list Chunk) :
  map chunk_id (map (set_total_chunks n) chunks) = map chunk_id chunks.
Proof. rewrite map_map. reflexivity. Qed.

Lemma set_total_chunks_well_numbered (chunks : list Chunk) :
  map chunk_id chunks = seq 1 (length chunks) ->
  well_numbered (map (set_total_chunks (length chunks)) chunks).
Proof.
  intros H. split.
  - rewrite set_total_chunks_ids, length_map. exact H.
  - rewrite length_map. apply List.Forall_forall. intros c Hc.
    apply in_map_iff in Hc as (c0 & <- & _). reflexivity.
Qed.

(** A pass that keeps every chunk's id and total keeps the numbering. *)
Lemma well_numbered_map (f : Chunk -> Chunk) (chunks : list Chunk) :
  (forall c, chunk_id (f c) = chunk_id c /\ total_chunks (f c) = total_chunks c) ->
  well_numbered chunks -> well_numbered (map f chunks).
Proof.
  intros Hf [Hids Htot]. split.
  - rewrite map_map, length_map, <- Hids. apply map_ext. intros c. apply Hf.
  - rewrite length_map. apply List.Forall_forall. intros c Hc.
    apply in_map_iff in Hc as (c0 & <- & Hc0).
    rewrite List.Forall_forall in Htot. rewrite (proj2 (Hf c0)). now apply Htot.
Qed.

Lemma enumerate_map_snd {A} (l : list A) (k : nat) :
  map snd (zip (seq k (length l)) l) = l.
Proof.
  revert k. induction l as [|x l IH]; intros k; [reflexivity|].
  cbn. now rewrite IH.
Qed.

Lemma enumerate_length {A} (l : list A) (k : nat) :
  length (zip (seq k (length l)) l) = length l.
Proof.
  revert k. induction l as [|x l IH]; intros k; [reflexivity|].
  cbn. now rewrite IH.
Qed.

Lemma well_numbered_imap (f : nat * Chunk -> Chunk) (chunks : list Chunk) :
  (forall i c, chunk_id (f (i, c)) = chunk_id c
               /\ total_chunks (f (i, c)) = total_chunks c) ->
  well_numbered chunks -> well_numbered (map f (enumerate chunks)).
Proof.
  intros Hf [Hids Htot]. unfold enumerate.
  assert (Hlen : length (map f (zip (seq 0 (length chunks)) chunks)) = length chunks).
  { rewrite length_map. apply enumerate_length. }
  split.
  - rewrite Hlen, <- Hids, map_map.
    rewrite <- (enumerate_map_snd chunks 0) at 3. rewrite map_map.
    apply map_ext. intros [i c]. apply Hf.
  - rewrite Hlen. apply List.Forall_forall. intros c Hc.
    apply in_map_iff in Hc as ([i c0] & <- & Hc0).
    rewrite List.Forall_forall in Htot. rewrite (proj2 (Hf i c0)). apply Htot.
    rewrite <- (enumerate_map_snd chunks 0). apply in_map_iff.
    exists (i, c0). auto.
Qed.

Lemma add_function_overlaps_well_numbered
    (stats : chunker_stats) (chunks : list Chunk) (boundaries : list Boundary) :
  well_numbered chunks ->
  well_numbered (_add_function_overlaps stats chunks boundaries).1.
Proof. intros H. cbn. apply well_numbered_map; [|exact H]. intros c. split; reflexivity. Qed.

Lemma add_continuation_context_well_numbered
    (stats : chunker_stats) (chunks : list Chunk) (fp : Path) :
  well_numbered chunks ->
  well_numbered (add_continuation_context stats chunks fp).1.
Proof.
  intros H. unfold add_continuation_context.
  destruct (length chunks <=? 1); [exact H|]. cbn [fst].
  apply (well_numbered_imap
           (fun '(i, chunk) => continuation_chunk fp (length chunks) i chunk));
    [|exact H].
  intros i c. split; reflexivity.
Qed.

Lemma pack_step_numbered
    (lines : list string) (boundaries : list Boundary) (max_tokens : Z)
    (priority : PriorityLevel) (st : pack_state) :
  pack_numbered st -> pack_numbered (pack_step lines boundaries max_tokens priority st).
Proof.
  intros [Hids Hid]. unfold pack_step, pack_numbered.
  destruct (find_boundary boundaries (pk_i st)) as [[[[start end_] btype] name]|].
  - destruct (_ <=? max_tokens)%Z; [cbn; auto|].
    destruct (_ >? max_tokens)%Z.
    + match goal with |- context [_split_large_boundary ?a ?b ?c ?d ?e ?f] =>
        pose proof (split_large_boundary_ids a b c d e f) as [Hsub _];
        set (subs := _split_large_boundary a b c d e f) in *
      end.
      cbn zeta in Hsub.
      destruct (pk_current_chunk_lines st); cbn [pk_chunks pk_chunk_id] in *.
      * split; [|rewrite length_app; lia].
        apply ids_app; [exact Hids|]. rewrite Hsub. f_equal. lia.
      * split; [|rewrite !length_app; cbn; lia].
        apply ids_app; [now apply ids_snoc|].
        rewrite Hsub. f_equal. rewrite length_app. cbn. lia.
    + destruct (pk_current_chunk_lines st); cbn; [auto|].
      split; [now apply ids_snoc | rewrite length_app; cbn; lia].
  - destruct (_ <=? max_tokens)%Z; [cbn; auto|].
    destruct (pk_current_chunk_lines st); cbn; [auto|].
    split; [now apply ids_snoc | rewrite length_app; cbn; lia].
Qed.

Lemma pack_finish_well_numbered (priority : PriorityLevel) (st : pack_state) :
  pack_numbered st -> well_numbered (pack_finish priority st).
Proof.
  intros [Hids Hid]. unfold pack_finish.
  destruct (pk_current_chunk_lines st); apply set_total_chunks_well_numbered;
    [exact Hids | now apply ids_snoc].
Qed.

Lemma create_chunks_with_boundaries_well_numbered
    (strategy : ChunkingStrategy) (stats : chunker_stats) (content : string)
    (lines : list string) (boundaries : list Boundary) (max_tokens : Z)
    (priority : PriorityLevel) (chunks : list Chunk) (stats' : chunker_stats) :
  _create_chunks_with_boundaries strategy stats content lines boundaries
    max_tokens priority = Some (chunks, stats') ->
  well_numbered chunks.
Proof.
  unfold _create_chunks_with_boundaries.
  destruct (pack_loop _ _ _ _ _ _) as [final|] eqn:Hloop; [|discriminate].
  cbn.
  pose proof (pack_loop_invariant lines boundaries max_tokens priority pack_numbered
                (fun st Hst _ => pack_step_numbered lines boundaries max_tokens priority st Hst)
                _ pack_init final ltac:(split; reflexivity) Hloop) as [Hnum _].
  pose proof (pack_finish_well_numbered priority final Hnum) as Hfin.
  destruct (overlap_functions strategy); intros [= <- <-]; [|exact Hfin].
  now apply (add_function_overlaps_well_numbered stats _ boundaries).
Qed.

Lemma chunk_generic_content_well_numbered (content : string) (max_tokens : Z) :
  well_numbered (_chunk_generic_content content max_tokens).
Proof.
  unfold _chunk_generic_content.
  match goal with |- context [fold_left ?f ?l ?s0] => set (st := fold_left f l s0) end.
  assert (Hinv : map chunk_id (g_chunks st) = seq 1 (length (g_chunks st))
                 /\ g_chunk_id st = 1 + length (g_chunks st)).
  { subst st. apply fold_left_invariant; [split; reflexivity|].
    intros s [i line] [Hids Hid]. unfold generic_step.
    destruct (_ <=? max_tokens)%Z; [cbn; auto|].
    destruct (g_current_lines s); cbn; [auto|].
    split; [now apply ids_snoc | rewrite length_app; cbn; lia]. }
  destruct Hinv as [Hids Hid]. cbn zeta.
  destruct (g_current_lines st); apply set_total_chunks_well_numbered;
    [exact Hids | now apply ids_snoc].
Qed.

(** ** The spans of the brace-delimited finders are well formed *)

Lemma block_end_from_ge (rest : list string) (i : nat) (bc : Z) (ib : bool) (e : nat) :
  block_end_from rest i bc ib = Some e -> i <= e.
Proof.
  revert i bc ib. induction rest as [|line rest IH]; intros i bc ib; cbn; [discriminate|].
  destruct (scan_braces line bc ib) as [[bc' ib']|].
  - intros H. apply IH in H. lia.
  - intros [= <-]. lia.
Qed.

Lemma find_js_block_end_ge (lines : list string) (start : nat) :
  start < length lines -> start <= _find_js_block_end lines start.
Proof.
  intros Hlt. unfold _find_js_block_end.
  destruct (block_end_from _ _ _ _) as [e|] eqn:He; cbn.
  - now apply block_end_from_ge in He.
  - lia.
Qed.

Lemma enumerate_In {A} (l : list A) (k i : nat) (x : A) :
  In (i, x) (zip (seq k (length l)) l) -> k <= i < k + length l.
Proof.
  revert k. induction l as [|y l IH]; intros k; cbn; [tauto|].
  intros [[= <- <-]|H]; [lia|]. apply IH in H. lia.
Qed.

Lemma js_boundaries_well_formed (lines : list string) :
  spans_well_formed (js_boundaries lines).
Proof.
  apply List.Forall_forall. intros b Hb. apply list_elem_of_In in Hb.
  unfold js_boundaries in Hb. apply list_elem_of_omap in Hb as ([i line] & Hin & Hf).
  apply list_elem_of_In, enumerate_In in Hin.
  destruct (js_function_pattern line); [|discriminate].
  injection Hf as <-. cbn. apply find_js_block_end_ge. lia.
Qed.

Lemma java_boundaries_well_formed (lines : list string) :
  spans_well_formed (java_boundaries lines).
Proof.
  apply List.Forall_forall. intros b Hb. apply list_elem_of_In in Hb.
  unfold java_boundaries in Hb. apply list_elem_of_omap in Hb as ([i line] & Hin & Hf).
  apply list_elem_of_In, enumerate_In in Hin.
  destruct (java_declaration_pattern (strip line)); [|discriminate].
  injection Hf as <-. cbn. apply find_js_block_end_ge. lia.
Qed.

(** ** The loop of the generic chunker *)

Lemma fold_left_enumerate_invariant {St} (P : St -> nat -> Prop)
    (f : St -> nat * string -> St) (lines : list string) (s0 : St) :
  P s0 0 ->
  (forall s k line, lines !! k = Some line -> P s k -> P (f s (k, line)) (S k)) ->
  P (fold_left f (enumerate lines) s0) (length lines).
Proof.
  intros H0 Hstep. unfold enumerate.
  enough (H : forall l a s,
             drop a lines = l -> P s a ->
             P (fold_left f (zip (seq a (length l)) l) s) (a + length l)).
  { apply (H lines 0 s0); [reflexivity | exact H0]. }
  induction l as [|x l IH]; intros a s Hl Hs; cbn [length seq zip zip_with fold_left].
  - now rewrite Nat.add_0_r.
  - assert (Hx : lines !! a = Some x).
    { rewrite <- (Nat.add_0_r a), <- lookup_drop, Hl. reflexivity. }
    replace (a + S (length l)) with (S a + length l) by lia.
    apply IH; [|now apply Hstep].
    rewrite (drop_S lines x a Hx) in Hl. now injection Hl.
Qed.

Lemma slice_snoc (l : list string) (a k : nat) (x : string) :
  a <= k -> l !! k = Some x -> slice l a k ++ [x] = slice l a (S k).
Proof.
  intros Ha Hx. unfold slice.
  replace (S k - a) with (S (k - a)) by lia.
  symmetry. apply take_S_r. rewrite lookup_drop.
  replace (a + (k - a)) with k by lia. exact Hx.
Qed.

Lemma slice_one (l : list string) (k : nat) (x : string) :
  l !! k = Some x -> slice l k (S k) = [x].
Proof.
  intros Hx. rewrite <- (slice_snoc l k k x) by (auto; lia).
  unfold slice. now rewrite Nat.sub_diag.
Qed.

Lemma slice_length_le (l : list string) (a b : nat) : length (slice l a b) <= b - a.
Proof. unfold slice. rewrite length_take. lia. Qed.

Lemma ranges_tile_snoc (chunks : list Chunk) (c : Chunk) (from mid e : nat) :
  ranges_tile chunks from mid ->
  start_line c = Some mid -> end_line c = Some e -> mid <= e ->
  ranges_tile (chunks ++ [c]) from (S e).
Proof.
  revert from. induction chunks as [|c0 chunks IH]; intros from; cbn.
  - intros <- Hs He Hle. exists e. auto.
  - intros (e0 & Hs0 & He0 & Hle0 & Hrest) Hs He Hle.
    exists e0. repeat split; auto.
Qed.

Lemma ranges_tile_set_total (n : nat) (chunks : list Chunk) (from to : nat) :
  ranges_tile chunks from to -> ranges_tile (map (set_total_chunks n) chunks) from to.
Proof.
  revert from. induction chunks as [|c chunks IH]; intros from; cbn; [auto|].
  intros (e & Hs & He & Hle & Hrest). exists e. auto.
Qed.

Lemma sum_estimates_snoc (ls : list string) (x : string) :
  sum_estimates (ls ++ [x]) = (sum_estimates ls + estimate_tokens_from_text x)%Z.
Proof.
  unfold sum_estimates. induction ls as [|l ls IH]; cbn; [lia|].
  fold (sum_estimates (ls ++ [x])) in *. cbn in IH. lia.
Qed.

(** What the loop of [_chunk_generic_content] keeps, after [k] lines:
    the chunks made so far cover the lines before the accumulated ones,
    range by range, and the accumulated lines are the last lines read. *)
Lemma generic_loop_invariant (text : string) (max_tokens : Z) :
  let lines := split_nl text in
  let st :=
    fold_left (generic_step max_tokens) (enumerate lines)
      {| g_chunks := []; g_current_lines := []; g_current_tokens := 0;
         g_chunk_id := 1 |} in
  generic_kept lines max_tokens st (length lines).
Proof.
  intros lines st. subst st.
  apply (fold_left_enumerate_invariant (generic_kept lines max_tokens)).
  - unfold generic_kept. cbn. repeat split; try constructor; lia.
  - intros s k line Hline (Htile & Hcur & Hlen & Hrng & Hbud & Hsum & Hfit).
    assert (Hk : k < length lines) by (eapply lookup_lt_Some; eauto).
    unfold generic_step, generic_kept.
    destruct (Z.leb_spec (g_current_tokens s + estimate_tokens_from_text line)
                max_tokens) as [Hle|Hgt];
      cbn [g_chunks g_current_lines g_current_tokens].
    + repeat split.
      * rewrite length_app. cbn [length].
        replace (S k - (length (g_current_lines s) + 1))
          with (k - length (g_current_lines s)) by lia. exact Htile.
      * rewrite length_app. cbn [length].
        replace (S k - (length (g_current_lines s) + 1))
          with (k - length (g_current_lines s)) by lia.
        rewrite Hcur at 1. apply slice_snoc; [lia | exact Hline].
      * rewrite length_app. cbn [length]. lia.
      * exact Hrng.
      * exact Hbud.
      * rewrite sum_estimates_snoc. lia.
      * right. rewrite sum_estimates_snoc. lia.
    + destruct (g_current_lines s) as [|l0 cur] eqn:Hc;
        cbn [g_chunks g_current_lines g_current_tokens].
      * cbn [length] in *. rewrite Nat.sub_0_r in Htile.
        repeat split.
        -- replace (S k - 1) with k by lia. exact Htile.
        -- replace (S k - 1) with k by lia. symmetry. now apply slice_one.
        -- lia.
        -- exact Hrng.
        -- exact Hbud.
        -- cbn. lia.
        -- left. cbn. lia.
      * assert (Hpos : 1 <= length (l0 :: cur)) by (cbn; lia).
        set (n := length (l0 :: cur)) in *.
        repeat split.
        -- cbn [length]. replace (S k - 1) with (S (k - 1)) by lia.
           eapply ranges_tile_snoc; [exact Htile | reflexivity | reflexivity | lia].
        -- cbn [length]. replace (S k - 1) with k by lia.
           symmetry. now apply slice_one.
        -- cbn [length]. lia.
        -- apply Forall_app. split; [exact Hrng|]. constructor; [|constructor].
           exists (k - n), (k - 1). cbn [start_line end_line content].
           repeat split; [lia|]. rewrite Hcur. f_equal. f_equal. lia.
        -- apply Forall_app. split; [exact Hbud|]. constructor; [|constructor].
           exists (k - n), (k - 1). cbn [start_line end_line].
           repeat split. destruct Hfit as [Hone|Hfit]; [left; lia|right].
           replace (S (k - 1)) with k by lia. now rewrite <- Hcur.
        -- cbn. lia.
        -- left. cbn. lia.
Qed.

(** The same for what [_chunk_generic_content] returns. *)
Lemma chunk_generic_content_ranges (text : string) (max_tokens : Z) :
  let lines := split_nl text in
  let chunks := _chunk_generic_content text max_tokens in
  ranges_tile chunks 0 (length lines)
  /\ Forall (holds_its_range lines) chunks
  /\ Forall (within_budget lines max_tokens) chunks.
Proof.
  intros lines chunks. subst chunks. unfold _chunk_generic_content.
  pose proof (generic_loop_invariant text max_tokens) as Hinv. cbv zeta in Hinv.
  fold lines in Hinv |- *.
  match goal with |- context [fold_left ?f ?l ?s0] => set (st := fold_left f l s0) in * end.
  destruct Hinv as (Htile & Hcur & Hlen & Hrng & Hbud & Hsum & Hfit).
  assert (Hset : forall n (cs : list Chunk),
             Forall (holds_its_range lines) cs ->
             Forall (holds_its_range lines) (map (set_total_chunks n) cs)).
  { intros n cs H. apply Forall_map. eapply Forall_impl; [exact H|].
    intros c (s & e & ? & ? & ? & ?). exists s, e. auto. }
  assert (Hset' : forall n (cs : list Chunk),
             Forall (within_budget lines max_tokens) cs ->
             Forall (within_budget lines max_tokens) (map (set_total_chunks n) cs)).
  { intros n cs H. apply Forall_map. eapply Forall_impl; [exact H|].
    intros c (s & e & ? & ? & ?). exists s, e. auto. }
  destruct (g_current_lines st) as [|l0 cur] eqn:Hc.
  - cbn [length] in Htile. rewrite Nat.sub_0_r in Htile.
    repeat split; [now apply ranges_tile_set_total | now apply Hset | now apply Hset'].
  - set (n := length (l0 :: cur)) in *.
    assert (Hpos : 1 <= n) by (subst n; cbn; lia).
    repeat split.
    + apply ranges_tile_set_total.
      match goal with
      | |- ranges_tile (_ ++ [?c]) _ _ =>
          pose proof (ranges_tile_snoc (g_chunks st) c 0 (length lines - n)
                        (length lines - 1) Htile eq_refl eq_refl) as Hsnoc
      end.
      replace (S (length lines - 1)) with (length lines) in Hsnoc by lia.
      apply Hsnoc. lia.
    + apply Hset. apply Forall_app. split; [exact Hrng|]. constructor; [|constructor].
      exists (length lines - n), (length lines - 1). cbn [start_line end_line content].
      repeat split; [lia|]. rewrite Hcur. f_equal. f_equal. lia.
    + apply Hset'. apply Forall_app. split; [exact Hbud|]. constructor; [|constructor].
      exists (length lines - n), (length lines - 1). cbn [start_line end_line].
      repeat split. destruct Hfit as [Hone|Hfit]; [left; lia|right].
      replace (S (length lines - 1)) with (length lines) by lia. now rewrite <- Hcur.
Qed.


Lemma ranges_tile_le (chunks : list Chunk) (from to : nat) :
  ranges_tile chunks from to -> from <= to.
Proof.
  revert from. induction chunks as [|c chunks IH]; intros from; cbn; [lia|].
  intros (e & _ & _ & Hle & Hrest). apply IH in Hrest. lia.
Qed.

Lemma slice_cons (l : list string) (a b : nat) (x : string) :
  l !! a = Some x -> a < b -> slice l a b = x :: slice l (S a) b.
Proof.
  intros Hx Hab. unfold slice. rewrite (drop_S l x a Hx).
  replace (b - a) with (S (b - S a)) by lia. reflexivity.
Qed.

Lemma slice_all (l : list string) : slice l 0 (length l) = l.
Proof. unfold slice. rewrite Nat.sub_0_r, drop_0. apply firstn_all. Qed.

Lemma one_line_ranges (lines : list string) (chunks : list Chunk) (from to : nat) :
  ranges_tile chunks from to -> to <= length lines ->
  Forall (holds_its_range lines) chunks ->
  Forall (fun c => forall s e, start_line c = Some s -> end_line c = Some e -> s = e)
    chunks ->
  map content chunks = slice lines from to.
Proof.
  revert from. induction chunks as [|c chunks IH]; intros from; cbn [ranges_tile map].
  - intros <- _ _ _. unfold slice. now rewrite Nat.sub_diag.
  - intros (e & Hs & He & Hle & Hrest) Hto Hrng Hone.
    inversion Hrng as [|? ? (s' & e' & Hs' & He' & _ & Hcont) Hrng']; subst.
    inversion Hone as [|? ? Hc Hone']; subst.
    pose proof (Hc _ _ Hs He) as <-.
    pose proof (ranges_tile_le _ _ _ Hrest) as Hlt.
    destruct (lookup_lt_is_Some_2 lines from ltac:(lia)) as [x Hx].
    rewrite (slice_cons lines from to x Hx) by lia.
    rewrite (IH (S from) Hrest Hto Hrng' Hone'). f_equal.
    rewrite Hcont. rewrite Hs in Hs'. rewrite He in He'.
    injection Hs' as <-. injection He' as <-.
    now rewrite (slice_one lines from x Hx).
Qed.

Lemma sum_estimates_nonneg (ls : list string) :
  (forall s, (0 <= estimate_tokens_from_text s)%Z) -> (0 <= sum_estimates ls)%Z.
Proof.
  intros Hest. unfold sum_estimates.
  induction ls as [|l ls IH]; cbn; [lia|]. specialize (Hest l). lia.
Qed.

(** ** The parts of an oversized span, one by one *)

Lemma split_large_boundary_shape
    (boundary_lines : list string) (max_tokens : Z) (start_chunk_id : nat)
    (btype name : string) (start : nat) :
  Forall (part_of_span (List.hd EmptyString boundary_lines) start_chunk_id btype name start)
    (_split_large_boundary boundary_lines max_tokens start_chunk_id btype name start).
Proof.
  unfold _split_large_boundary.
  set (sig := List.hd EmptyString boundary_lines).
  match goal with |- context [fold_left ?f ?l ?s0] => set (st := fold_left f l s0) end.
  assert (Hinv : Forall (part_of_span sig start_chunk_id btype name start) (sp_sub_chunks st)
                 /\ exists rest, sp_current_lines st = sig :: rest).
  { subst st. apply fold_left_invariant.
    - cbn. split; [constructor | exists []; reflexivity].
    - intros s line [Hsubs [rest Hcur]]. unfold split_step.
      destruct (_ <=? max_tokens)%Z; cbn [sp_sub_chunks sp_current_lines].
      + split; [exact Hsubs|]. exists (rest ++ [line]). now rewrite Hcur.
      + split; [|exists [line]; reflexivity].
        apply Forall_app. split; [exact Hsubs|]. constructor; [|constructor].
        repeat split. exists rest. cbn. now rewrite Hcur. }
  destruct Hinv as [Hsubs [rest Hcur]]. rewrite Hcur.
  apply Forall_app. split; [exact Hsubs|]. constructor; [|constructor].
  repeat split. exists rest. reflexivity.
Qed.

Lemma slice_app (l : list string) (a b c : nat) :
  a <= b -> b <= c -> slice l a b ++ slice l b c = slice l a c.
Proof.
  intros Hab Hbc. unfold slice.
  replace (drop b l) with (drop (b - a) (drop a l))
    by (rewrite drop_drop; f_equal; lia).
  rewrite take_take_drop. f_equal. lia.
Qed.

Lemma take_length_take (d cur : list string) (m : nat) :
  cur = take m d -> take (length cur) d = cur.
Proof.
  intros ->. rewrite length_take.
  destruct (Nat.le_gt_cases m (length d)).
  - now rewrite Nat.min_l.
  - rewrite Nat.min_r by lia. now rewrite !take_ge by lia.
Qed.

(** ** The packer returns *)

Lemma create_chunks_with_boundaries_returns
    (strategy : ChunkingStrategy) (stats : chunker_stats) (content : string)
    (lines : list string) (boundaries : list Boundary) (max_tokens : Z)
    (priority : PriorityLevel) :
  spans_well_formed boundaries ->
  exists final,
    pack_loop lines boundaries max_tokens priority (length lines) pack_init = Some final
    /\ length lines <= pk_i final
    /\ _create_chunks_with_boundaries strategy stats content lines boundaries
         max_tokens priority
       = Some (if overlap_functions strategy
               then _add_function_overlaps stats (pack_finish priority final) boundaries
               else (pack_finish priority final, stats)).
Proof.
  intros Hwf.
  destruct (pack_loop_terminates lines boundaries max_tokens priority
              (length lines) pack_init Hwf) as [final Hfinal]; [cbn; lia|].
  exists final. split; [exact Hfinal|]. split.
  - eapply (pack_loop_invariant lines boundaries max_tokens priority (fun _ => True));
      eauto.
  - unfold _create_chunks_with_boundaries. rewrite Hfinal. cbn.
    destruct (overlap_functions strategy); reflexivity.
Qed.

(** ** Document order *)

Lemma ascending_app (l k : list nat) (m : nat) :
  ascending l -> Forall (fun x => x <= m) l ->
  ascending k -> Forall (fun y => m <= y) k ->
  ascending (l ++ k).
Proof.
  intros Hl Hm Hk Hmk. induction l as [|x l IH]; cbn [app ascending]; [exact Hk|].
  destruct Hl as [Hx Hl]. inversion Hm as [|? ? Hxm Hm']; subst.
  split; [|now apply IH].
  apply Forall_app. split; [exact Hx|].
  eapply Forall_impl; [exact Hmk|]. cbn. intros y ?. lia.
Qed.

Lemma omap_start_line_cons (c : Chunk) (cs : list Chunk) :
  omap start_line (c :: cs)
  = match start_line c with
    | Some s => s :: omap start_line cs
    | None => omap start_line cs
    end.
Proof. reflexivity. Qed.

Lemma omap_start_line_map (f : Chunk -> Chunk) (cs : list Chunk) :
  (forall c, start_line (f c) = start_line c) ->
  omap start_line (map f cs) = omap start_line cs.
Proof.
  intros Hf. induction cs as [|c cs IH]; [reflexivity|].
  cbn [map]. rewrite !omap_start_line_cons, Hf, IH. reflexivity.
Qed.

Lemma omap_start_line_imap (f : nat * Chunk -> Chunk) (cs : list Chunk) (k : nat) :
  (forall i c, start_line (f (i, c)) = start_line c) ->
  omap start_line (map f (zip (seq k (length cs)) cs)) = omap start_line cs.
Proof.
  intros Hf. revert k. induction cs as [|c cs IH]; intros k; [reflexivity|].
  cbn [length seq zip zip_with map]. rewrite !omap_start_line_cons, Hf, IH. reflexivity.
Qed.

Lemma same_start_omap (cs : list Chunk) (s : nat) :
  Forall (fun c => start_line c = Some s) cs ->
  ascending (omap start_line cs) /\ Forall (fun y => y = s) (omap start_line cs).
Proof.
  induction 1 as [|c cs Hc _ [IHa IHs]]; [split; constructor|].
  rewrite omap_start_line_cons, Hc. cbn [ascending]. repeat split.
  - eapply Forall_impl; [exact IHs|]. cbn. intros y ->. lia.
  - exact IHa.
  - constructor; [reflexivity | exact IHs].
Qed.

(** Chunks that all start at line [s], appended to chunks that start no
    later than [m <= s], keep the order. *)
Lemma ordered_app (cs ds : list Chunk) (m s m' : nat) :
  ascending (omap start_line cs) ->
  Forall (fun x => x <= m) (omap start_line cs) ->
  Forall (fun c => start_line c = Some s) ds ->
  m <= s -> s <= m' ->
  ascending (omap start_line (cs ++ ds))
  /\ Forall (fun x => x <= m') (omap start_line (cs ++ ds)).
Proof.
  intros Ha Hm Hds Hms Hsm. rewrite omap_app.
  destruct (same_start_omap ds s Hds) as [Hda Hdeq]. split.
  - apply (ascending_app _ _ m); [exact Ha | exact Hm | exact Hda|].
    eapply Forall_impl; [exact Hdeq|]. cbn. intros y ->. exact Hms.
  - apply Forall_app. split.
    + eapply Forall_impl; [exact Hm|]. cbn. intros; lia.
    + eapply Forall_impl; [exact Hdeq|]. cbn. intros y ->. exact Hsm.
Qed.

Lemma split_large_boundary_starts
    (boundary_lines : list string) (max_tokens : Z) (start_chunk_id : nat)
    (btype name : string) (start : nat) :
  Forall (fun c => start_line c = Some start)
    (_split_large_boundary boundary_lines max_tokens start_chunk_id btype name start).
Proof.
  eapply Forall_impl; [apply split_large_boundary_shape|]. cbn. intros c [H _]. exact H.
Qed.

Lemma pack_step_ordered
    (lines : list string) (boundaries : list Boundary) (max_tokens : Z)
    (priority : PriorityLevel) (st : pack_state) :
  spans_well_formed boundaries ->
  pack_ordered st -> pack_ordered (pack_step lines boundaries max_tokens priority st).
Proof.
  intros Hwf (Ha & Hm & Hle). unfold pack_step, pack_ordered.
  assert (Hflush : forall m', pk_last_line_processed st <= m' ->
             ascending (omap start_line (pk_chunks st ++ [flushed_chunk priority st]))
             /\ Forall (fun x => x <= m')
                  (omap start_line (pk_chunks st ++ [flushed_chunk priority st]))).
  { intros m' Hm'.
    apply (ordered_app _ _ (pk_last_line_processed st) (pk_last_line_processed st));
      [exact Ha | exact Hm | repeat constructor | lia | exact Hm']. }
  destruct (find_boundary boundaries (pk_i st)) as [[[[start end_] btype] name]|] eqn:Hb.
  - apply find_boundary_Some in Hb as [Hin Hstart].
    unfold spans_well_formed in Hwf. rewrite List.Forall_forall in Hwf.
    specialize (Hwf _ Hin). unfold b_start, b_end in *. cbn in Hstart, Hwf. subst start.
    destruct (_ <=? max_tokens)%Z;
      [cbn [pk_chunks pk_last_line_processed pk_i]; repeat split; [assumption.. | lia]|].
    destruct (_ >? max_tokens)%Z.
    + match goal with |- context [_split_large_boundary ?a ?b ?c ?d ?e ?f] =>
        pose proof (split_large_boundary_starts a b c d e f) as Hsub;
        set (subs := _split_large_boundary a b c d e f) in *
      end.
      destruct (pk_current_chunk_lines st);
        cbn [pk_chunks pk_last_line_processed pk_i pk_chunk_id] in *.
      * destruct (ordered_app (pk_chunks st) subs (pk_last_line_processed st) (pk_i st)
                    (end_ + 1) Ha Hm Hsub Hle ltac:(lia)) as [H1 H2].
        repeat split; [exact H1 | exact H2 | lia].
      * destruct (Hflush (pk_i st) Hle) as [Hfa Hfm].
        destruct (ordered_app _ subs (pk_i st) (pk_i st) (end_ + 1) Hfa Hfm Hsub
                    ltac:(lia) ltac:(lia)) as [H1 H2].
        repeat split; [exact H1 | exact H2 | lia].
    + destruct (pk_current_chunk_lines st);
        cbn [pk_chunks pk_last_line_processed pk_i];
        [repeat split; [assumption.. | lia]|].
      destruct (Hflush (pk_i st) Hle) as [Hfa Hfm]. repeat split; [assumption.. | lia].
  - destruct (_ <=? max_tokens)%Z;
      [cbn [pk_chunks pk_last_line_processed pk_i]; repeat split; [assumption.. | lia]|].
    destruct (pk_current_chunk_lines st);
      cbn [pk_chunks pk_last_line_processed pk_i];
      [repeat split; [assumption.. | lia]|].
    destruct (Hflush (pk_i st) Hle) as [Hfa Hfm]. repeat split; [assumption.. | lia].
Qed.

Lemma pack_finish_ordered (priority : PriorityLevel) (st : pack_state) :
  pack_ordered st -> in_document_order (pack_finish priority st).
Proof.
  intros (Ha & Hm & Hle). unfold pack_finish, in_document_order.
  rewrite omap_start_line_map by reflexivity.
  destruct (pk_current_chunk_lines st); [exact Ha|].
  apply (ordered_app _ _ (pk_last_line_processed st) (pk_last_line_processed st)
           (pk_last_line_processed st));
    [exact Ha | exact Hm | repeat constructor | lia | lia].
Qed.

Lemma create_chunks_with_boundaries_ordered
    (strategy : ChunkingStrategy) (stats : chunker_stats) (content : string)
    (lines : list string) (boundaries : list Boundary) (max_tokens : Z)
    (priority : PriorityLevel) (chunks : list Chunk) (stats' : chunker_stats) :
  spans_well_formed boundaries ->
  _create_chunks_with_boundaries strategy stats content lines boundaries
    max_tokens priority = Some (chunks, stats') ->
  in_document_order chunks.
Proof.
  intros Hwf. unfold _create_chunks_with_boundaries.
  destruct (pack_loop _ _ _ _ _ _) as [final|] eqn:Hloop; [|discriminate].
  cbn.
  pose proof (pack_loop_invariant lines boundaries max_tokens priority pack_ordered
                (fun st Hst _ =>
                   pack_step_ordered lines boundaries max_tokens priority st Hwf Hst)
                _ pack_init final ltac:(repeat split; constructor) Hloop) as [Hord _].
  pose proof (pack_finish_ordered priority final Hord) as Hfin.
  destruct (overlap_functions strategy); intros [= <- <-]; [|exact Hfin].
  unfold in_document_order. now rewrite omap_start_line_map by reflexivity.
Qed.

Lemma ranges_tile_ordered (chunks : list Chunk) (from to : nat) :
  ranges_tile chunks from to ->
  ascending (omap start_line chunks)
  /\ Forall (fun s => from <= s) (omap start_line chunks).
Proof.
  revert from. induction chunks as [|c chunks IH]; intros from; cbn [ranges_tile];
    [intros _; split; constructor|].
  intros (e & Hs & He & Hle & Hrest). apply IH in Hrest as [Ha Hf].
  rewrite omap_start_line_cons, Hs. cbn [ascending].
  assert (Hf' : Forall (fun s => from <= s) (omap start_line chunks))
    by (eapply Forall_impl; [exact Hf|]; cbn; intros; lia).
  repeat split; [exact Hf' | exact Ha|]. constructor; [lia | exact Hf'].
Qed.

Lemma chunk_generic_content_ordered (text : string) (max_tokens : Z) :
  in_document_order (_chunk_generic_content text max_tokens).
Proof.
  pose proof (chunk_generic_content_ranges text max_tokens) as H. cbv zeta in H.
  destruct H as [Htile _]. now apply ranges_tile_ordered in Htile.
Qed.

Lemma add_continuation_context_ordered
    (stats : chunker_stats) (chunks : list Chunk) (fp : Path) :
  in_document_order chunks ->
  in_document_order (add_continuation_context stats chunks fp).1.
Proof.
  intros H. unfold add_continuation_context.
  destruct (length chunks <=? 1); [exact H|]. cbn [fst].
  unfold in_document_order, enumerate.
  rewrite (omap_start_line_imap
             (fun '(i, chunk) => continuation_chunk fp (length chunks) i chunk));
    [exact H | reflexivity].
Qed.

(** ** [chunk_with_context] returns *)

Lemma chunk_python_content_returns
    (strategy : ChunkingStrategy) (stats : chunker_stats) (content : string)
    (max_tokens : Z) (priority : PriorityLevel) :
  (forall tree, ast_parse content = Parsed tree ->
     spans_well_formed (_find_python_boundaries tree (split_nl content))) ->
  (forall e, ast_parse content <> ParseFails e) ->
  exists chunks stats',
    _chunk_python_content strategy stats content max_tokens priority
    = Some (Returned chunks, stats').
Proof.
  intros Hwf Hans. unfold _chunk_python_content.
  destruct (ast_parse content) as [tree| |e] eqn:Hp; [|eauto|now destruct (Hans e)].
  destruct (create_chunks_with_boundaries_returns strategy stats content
              (split_nl content) _ max_tokens priority (Hwf tree eq_refl))
    as (final & _ & _ & ->).
  destruct (overlap_functions strategy); cbn; eauto.
Qed.

(** The brace-delimited chunkers always hand back chunks. *)
Lemma chunk_brace_content_returns
    (strategy : ChunkingStrategy) (stats : chunker_stats) (content : string)
    (max_tokens : Z) (priority : PriorityLevel) :
  (exists chunks stats',
      returned (_chunk_javascript_content strategy stats content max_tokens priority)
      = Some (Returned chunks, stats'))
  /\ (exists chunks stats',
      returned (_chunk_java_content strategy stats content max_tokens priority)
      = Some (Returned chunks, stats')).
Proof.
  split.
  - unfold _chunk_javascript_content.
    destruct (create_chunks_with_boundaries_returns strategy stats content
                (split_nl content) _ max_tokens priority
                (js_boundaries_well_formed (split_nl content)))
      as (final & _ & _ & ->).
    destruct (overlap_functions strategy); cbn; eauto.
  - unfold _chunk_java_content.
    destruct (create_chunks_with_boundaries_returns strategy stats content
                (split_nl content) _ max_tokens priority
                (java_boundaries_well_formed (split_nl content)))
      as (final & _ & _ & ->).
    destruct (overlap_functions strategy); cbn; eauto.
Qed.

Lemma chunk_with_context_returns
    (strategy : ChunkingStrategy) (stats : chunker_stats) (content : string)
    (fp : Path) (max_tokens : Z) (priority : PriorityLevel) (pf : bool) :
  parser_answers fp content ->
  (forall tree, ast_parse content = Parsed tree ->
     spans_well_formed (_find_python_boundaries tree (split_nl content))) ->
  exists chunks stats',
    chunk_with_context strategy stats content fp max_tokens priority pf
    = Some (Returned chunks, stats').
Proof.
  intros Hans Hwf.
  destruct (chunk_brace_content_returns strategy stats content max_tokens priority)
    as ((c2 & s2 & H2) & (c3 & s3 & H3)).
  unfold chunk_with_context.
  destruct (negb _); [eauto|]. destruct (_ <=? max_tokens)%Z; [eauto|].
  destruct (String.eqb _ ".py") eqn:Hpy.
  - destruct (chunk_python_content_returns strategy stats content max_tokens priority
                Hwf (Hans Hpy)) as (c1 & s1 & ->).
    cbn [mbind option_bind].
    destruct (include_context_headers strategy); [destruct (add_continuation_context _ _ _)|];
      eauto.
  - destruct (str_in _ _); [rewrite H2|destruct (String.eqb _ ".java"); [rewrite H3|]];
      cbn [mbind option_bind];
      (destruct (include_context_headers strategy);
       [destruct (add_continuation_context _ _ _)|]); eauto.
Qed.

(** What the language dispatch of [chunk_with_context] hands back, when it
    hands back chunks, is numbered from 1 and, with well-formed spans, in
    document order. *)
Lemma chunk_dispatch_numbered
    (strategy : ChunkingStrategy) (stats : chunker_stats) (source : string)
    (fp : Path) (max_tokens : Z) (priority : PriorityLevel)
    (chunks : list Chunk) (stats' : chunker_stats) :
  (if String.eqb (lower (path_suffix fp)) ".py" then
     _chunk_python_content strategy stats source max_tokens priority
   else if str_in (lower (path_suffix fp)) [".js"; ".ts"; ".jsx"; ".tsx"] then
     returned (_chunk_javascript_content strategy stats source max_tokens priority)
   else if String.eqb (lower (path_suffix fp)) ".java" then
     returned (_chunk_java_content strategy stats source max_tokens priority)
   else Some (Returned (_chunk_generic_content source max_tokens), stats))
  = Some (Returned chunks, stats') ->
  well_numbered chunks
  /\ ((forall tree, ast_parse source = Parsed tree ->
         spans_well_formed (_find_python_boundaries tree (split_nl source))) ->
      in_document_order chunks).
Proof.
  unfold _chunk_python_content, _chunk_javascript_content, _chunk_java_content.
  assert (Hpack : forall bs,
             returned (_create_chunks_with_boundaries strategy stats source
                         (split_nl source) bs max_tokens priority)
             = Some (Returned chunks, stats') ->
             well_numbered chunks /\ (spans_well_formed bs -> in_document_order chunks)).
  { intros bs.
    destruct (_create_chunks_with_boundaries strategy stats source (split_nl source) bs
                max_tokens priority) as [[cs s1]|] eqn:Hc; [|discriminate].
    cbn. intros [= <- <-].
    split; [exact (create_chunks_with_boundaries_well_numbered _ _ _ _ _ _ _ _ _ Hc)|].
    intros Hwf. exact (create_chunks_with_boundaries_ordered _ _ _ _ _ _ _ _ _ Hwf Hc). }
  assert (Hgen : Some (Returned (_chunk_generic_content source max_tokens), stats)
                 = Some (Returned chunks, stats') ->
                 well_numbered chunks
                 /\ ((forall tree, ast_parse source = Parsed tree ->
                        spans_well_formed
                          (_find_python_boundaries tree (split_nl source))) ->
                     in_document_order chunks)).
  { intros [= <- <-]. split;
      [apply chunk_generic_content_well_numbered
      | intros _; apply chunk_generic_content_ordered]. }
  destruct (String.eqb _ ".py").
  - destruct (ast_parse source) as [tree| |e] eqn:Hp; [|exact Hgen|discriminate].
    cbv zeta. intros H. apply Hpack in H as [H1 H2]. split; [exact H1|].
    intros Hwf. apply H2. now apply Hwf.
  - destruct (str_in _ _).
    + cbv zeta. intros H. apply Hpack in H as [H1 H2]. split; [exact H1|].
      intros _. apply H2, js_boundaries_well_formed.
    + destruct (String.eqb _ ".java"); [|exact Hgen].
      cbv zeta. intros H. apply Hpack in H as [H1 H2]. split; [exact H1|].
      intros _. apply H2, java_boundaries_well_formed.
Qed.

(** C6. Every chunk sequence [chunk_with_context] returns has chunk_ids
    1, 2, ..., n in list order, and every chunk's total_chunks is n, the
    number of chunks returned. When every span the Python parser reports
    ends no earlier than it starts, the list is in document order (the
    start lines of the chunks never go down along it), and the call does
    return chunks unless [ast.parse] raises something other than
    SyntaxError on a [.py] file. *)
Theorem chunk_ids_dense_and_totals_final
    (strategy : ChunkingStrategy) (stats : chunker_stats) (source : string)
    (fp : Path) (max_tokens : Z) (priority : PriorityLevel) (pf : bool) :
  (forall chunks stats',
      chunk_with_context strategy stats source fp max_tokens priority pf
      = Some (Returned chunks, stats') ->
      map chunk_id chunks = seq 1 (length chunks)
      /\ Forall (fun c => total_chunks c = length chunks) chunks)
  /\ ((forall tree, ast_parse source = Parsed tree ->
         spans_well_formed (_find_python_boundaries tree (split_nl source))) ->
      (forall chunks stats',
          chunk_with_context strategy stats source fp max_tokens priority pf
          = Some (Returned chunks, stats') ->
          in_document_order chunks)
      /\ (parser_answers fp source ->
          exists chunks stats',
            chunk_with_context strategy stats source fp max_tokens priority pf
            = Some (Returned chunks, stats'))).
Proof.
  assert (Hboth : forall chunks stats',
             chunk_with_context strategy stats source fp max_tokens priority pf
             = Some (Returned chunks, stats') ->
             well_numbered chunks
             /\ ((forall tree, ast_parse source = Parsed tree ->
                    spans_well_formed (_find_python_boundaries tree (split_nl source))) ->
                 in_document_order chunks)).
  { intros chunks stats'. unfold chunk_with_context.
    destruct (negb _);
      [intros [= <- <-]; split; [split; [reflexivity | constructor] | intros _; exact I]|].
    destruct (_ <=? max_tokens)%Z;
      [intros [= <- <-]; split;
       [split; [reflexivity | repeat constructor] | intros _; exact I]|].
    match goal with
    | |- context [mbind _ ?d] => destruct d as [[[chunks0|e] stats0]|] eqn:Hd
    end; cbn [mbind option_bind]; [|discriminate..].
    apply chunk_dispatch_numbered in Hd as [Hnum Hord].
    destruct (include_context_headers strategy).
    - pose proof (add_continuation_context_well_numbered stats0 chunks0 fp Hnum) as Hc.
      pose proof (add_continuation_context_ordered stats0 chunks0 fp) as Ho.
      destruct (add_continuation_context stats0 chunks0 fp) as [chunks1 stats1].
      intros [= <- <-]. split; [exact Hc | auto].
    - intros [= <- <-]. split; [exact Hnum | exact Hord]. }
  split; [intros chunks stats' Hret; exact (proj1 (Hboth chunks stats' Hret))|].
  intros Hwf. split.
  - intros chunks stats' Hret. exact (proj2 (Hboth chunks stats' Hret) Hwf).
  - intros Hans. now apply chunk_with_context_returns.
Qed.

(** ** No source line is dropped *)

Lemma fold_left_prefix_invariant {St X} (P : St -> list X -> Prop)
    (f : St -> X -> St) (l : list X) (s : St) :
  P s [] -> (forall s done x, P s done -> P (f s x) (done ++ [x])) ->
  P (fold_left f l s) l.
Proof.
  intros Hs Hstep.
  enough (H : forall done s, P s done -> P (fold_left f l s) (done ++ l))
    by (apply (H [] s Hs)).
  induction l as [|x l IH]; intros done s' Hs'; cbn.
  - now rewrite app_nil_r.
  - replace (done ++ x :: l) with ((done ++ [x]) ++ l) by now rewrite <- app_assoc.
    apply IH. now apply Hstep.
Qed.

Lemma carried_set_total_chunks (lines : list string) (n p : nat)
    (chunks : list Chunk) (gs : list (list string)) :
  carried lines p chunks gs -> carried lines p (map (set_total_chunks n) chunks) gs.
Proof.
  revert p gs. induction chunks as [|c chunks IH]; intros p [|g gs]; cbn [map carried];
    auto.
  intros [Hc Hrest]. split; [exact Hc | now apply IH].
Qed.

Lemma carried_app (lines : list string) (p : nat) (cs ds : list Chunk)
    (gs hs : list (list string)) :
  carried lines p cs gs -> carried lines (p + length (concat gs)) ds hs ->
  carried lines p (cs ++ ds) (gs ++ hs).
Proof.
  revert p gs. induction cs as [|c cs IH]; intros p [|g gs];
    cbn [carried app concat length]; try tauto.
  - intros _. now rewrite Nat.add_0_r.
  - intros [Hc Hrest] Hds. split; [exact Hc|]. apply IH; [exact Hrest|].
    rewrite length_app in Hds. now rewrite <- Nat.add_assoc.
Qed.

Lemma carried_snoc (lines : list string) (p : nat) (chunks : list Chunk)
    (gs : list (list string)) (c : Chunk) (g : list string) :
  carried lines p chunks gs -> carries_at lines (p + length (concat gs)) c g ->
  carried lines p (chunks ++ [c]) (gs ++ [g]).
Proof. intros H Hc. apply carried_app; [exact H|]. cbn. auto. Qed.

Lemma slice_extends {A} (l : list A) (i e : nat) :
  i <= e -> take e l = take i l ++ slice l i e.
Proof.
  intros H. unfold slice. rewrite take_take_drop. f_equal. lia.
Qed.

Lemma take_succ_nth (l : list string) (i : nat) :
  i < length l -> take (i + 1) l = take i l ++ [nth i l EmptyString].
Proof.
  intros H. destruct (lookup_lt_is_Some_2 l i H) as [x Hx].
  rewrite (nth_lookup_Some l i EmptyString x Hx).
  replace (i + 1) with (S i) by lia. now apply take_S_r.
Qed.

Lemma slice_head (l : list string) (i e : nat) :
  i < length l -> i <= e ->
  exists rest, slice l i (e + 1) = nth i l EmptyString :: rest.
Proof.
  intros Hi He. unfold slice.
  destruct (lookup_lt_is_Some_2 l i Hi) as [x Hx].
  rewrite (nth_lookup_Some l i EmptyString x Hx).
  rewrite (drop_S l x i Hx). replace (e + 1 - i) with (S (e - i)) by lia.
  cbn. eauto.
Qed.

Lemma slice_length (l : list string) (a b : nat) :
  b <= length l -> length (slice l a b) = b - a.
Proof. intros H. unfold slice. rewrite length_take, length_drop. lia. Qed.

Lemma offset_is_start (start n : nat) : (start + n =? start) = (n =? 0).
Proof.
  destruct (Nat.eqb_spec n 0) as [->|Hn].
  - rewrite Nat.add_0_r. apply Nat.eqb_refl.
  - apply Nat.eqb_neq. lia.
Qed.

(** The sub-chunks of an oversized span carry its lines, in order: the
    first holds its group of lines, each later one the span's first line
    and then its group. *)
Lemma split_large_boundary_carried
    (lines boundary_lines rest : list string) (max_tokens : Z)
    (start_chunk_id : nat) (btype name : string) (start : nat) :
  boundary_lines = nth start lines EmptyString :: rest ->
  exists gs,
    carried lines start
      (_split_large_boundary boundary_lines max_tokens start_chunk_id btype name start)
      gs
    /\ concat gs = boundary_lines.
Proof.
  intros ->. unfold _split_large_boundary. cbn [List.hd drop].
  set (sig := nth start lines EmptyString).
  match goal with |- context [fold_left ?f ?l ?s0] => set (st := fold_left f l s0) end.
  assert (Hpart : forall (gs : list (list string)) (g cur : list string) (id : nat)
                         (tokens : Z),
             g <> [] ->
             cur = (if length (concat gs) =? 0 then g else sig :: g) ->
             carries_at lines (start + length (concat gs))
               (sub_chunk cur id start_chunk_id btype name start tokens) g).
  { intros gs g cur id tokens Hg ->. split; [exact Hg|].
    cbn [sub_chunk end_line start_line content].
    exists start. split; [reflexivity|]. rewrite offset_is_start. reflexivity. }
  assert (Hinv : exists gs g,
             carried lines start (sp_sub_chunks st) gs
             /\ g <> []
             /\ sp_current_lines st = (if length (concat gs) =? 0 then g else sig :: g)
             /\ concat gs ++ g = sig :: rest).
  { subst st.
    apply (fold_left_prefix_invariant
             (fun s done => exists gs g,
                  carried lines start (sp_sub_chunks s) gs
                  /\ g <> []
                  /\ sp_current_lines s
                     = (if length (concat gs) =? 0 then g else sig :: g)
                  /\ concat gs ++ g = sig :: done)).
    - exists [], [sig]. cbn. repeat split. discriminate.
    - intros s done line (gs & g & Hgs & Hg & Hcur & Hcat). unfold split_step.
      destruct (_ <=? max_tokens)%Z; cbn [sp_sub_chunks sp_current_lines].
      + exists gs, (g ++ [line]). repeat split.
        * exact Hgs.
        * destruct g; discriminate.
        * rewrite Hcur. destruct (length (concat gs) =? 0); reflexivity.
        * rewrite app_assoc, Hcat. reflexivity.
      + exists (gs ++ [g]), [line]. repeat split.
        * apply carried_snoc; [exact Hgs|]. now apply Hpart.
        * discriminate.
        * rewrite concat_app, length_app. cbn [concat]. rewrite app_nil_r.
          destruct g as [|x g]; [congruence|].
          replace (length (concat gs) + length (x :: g) =? 0) with false
            by (symmetry; apply Nat.eqb_neq; cbn; lia).
          reflexivity.
        * rewrite concat_app. cbn [concat]. rewrite app_nil_r, Hcat. reflexivity. }
  destruct Hinv as (gs & g & Hgs & Hg & Hcur & Hcat).
  exists (gs ++ [g]). split.
  - destruct (sp_current_lines st) as [|l0 cur] eqn:Hc.
    + destruct (length (concat gs) =? 0); [congruence | discriminate].
    + apply carried_snoc; [exact Hgs|]. now apply Hpart.
  - rewrite concat_app. cbn [concat]. rewrite app_nil_r. exact Hcat.
Qed.

Section PackerCarries.
Variable lines : list string.
Variable boundaries : list Boundary.
Variable max_tokens : Z.
Variable priority : PriorityLevel.
Hypothesis boundaries_wf : spans_well_formed boundaries.

Lemma flushed_chunk_carries (p : nat) (st : pack_state) :
  pk_current_chunk_lines st <> [] ->
  carries_at lines p (flushed_chunk priority st) (pk_current_chunk_lines st).
Proof. intros H. split; [exact H | reflexivity]. Qed.

Lemma pack_step_carries (st : pack_state) :
  pk_i st < length lines ->
  pack_carries lines st ->
  pack_carries lines (pack_step lines boundaries max_tokens priority st).
Proof.
  intros Hi (gs & Hgs & Hcat). unfold pack_step, pack_carries.
  assert (Hlen : length (concat gs ++ pk_current_chunk_lines st) = pk_i st)
    by (rewrite Hcat, length_take; lia).
  destruct (find_boundary boundaries (pk_i st)) as [[[[start end_] btype] name]|] eqn:Hb.
  - apply find_boundary_Some in Hb as [Hin Hstart].
    unfold spans_well_formed in boundaries_wf.
    rewrite List.Forall_forall in boundaries_wf.
    specialize (boundaries_wf _ Hin). unfold b_start, b_end in *. cbn in Hstart, boundaries_wf.
    subst start.
    pose proof (slice_extends lines (pk_i st) (end_ + 1) ltac:(lia)) as Hext.
    destruct (_ <=? max_tokens)%Z.
    { exists gs. cbn. split; [exact Hgs|]. now rewrite app_assoc, Hcat. }
    destruct (_ >? max_tokens)%Z.
    + destruct (slice_head lines (pk_i st) end_ Hi boundaries_wf) as [rest Hrest].
      destruct (split_large_boundary_carried lines _ rest max_tokens
                  (pk_chunk_id match pk_current_chunk_lines st with
                               | [] => st
                               | _ :: _ =>
                                   {| pk_chunks := pk_chunks st ++ [flushed_chunk priority st];
                                      pk_current_chunk_lines := [];
                                      pk_current_tokens := 0;
                                      pk_chunk_id := pk_chunk_id st + 1;
                                      pk_last_line_processed := pk_i st;
                                      pk_i := pk_i st |}
                               end)
                  btype name (pk_i st) Hrest) as (gs' & Hgs' & Hcat').
      destruct (pk_current_chunk_lines st) as [|l0 cur] eqn:Hcur;
        cbn [pk_chunks pk_current_chunk_lines pk_i pk_chunk_id] in *.
      * exists (gs ++ gs'). split.
        -- apply carried_app; [exact Hgs|]. rewrite app_nil_r in Hlen.
           now rewrite Hlen.
        -- rewrite <- Hcat' in Hext. rewrite Hcur. cat_solve Hext Hcat.
      * exists ((gs ++ [l0 :: cur]) ++ gs'). split.
        -- apply carried_app.
           ++ apply carried_snoc; [exact Hgs|].
              pose proof (flushed_chunk_carries (0 + length (concat gs)) st) as Hf.
              rewrite Hcur in Hf. apply Hf. discriminate.
           ++ rewrite concat_app. cbn [concat]. rewrite app_nil_r, Hlen. exact Hgs'.
        -- rewrite <- Hcat' in Hext. cat_solve Hext Hcat.
    + destruct (pk_current_chunk_lines st) as [|l0 cur] eqn:Hcur;
        cbn [pk_chunks pk_current_chunk_lines pk_i] in *.
      * exists gs. split; [exact Hgs|]. cat_solve Hext Hcat.
      * exists (gs ++ [l0 :: cur]). split.
        -- apply carried_snoc; [exact Hgs|].
           pose proof (flushed_chunk_carries (0 + length (concat gs)) st) as Hf.
           rewrite Hcur in Hf. apply Hf. discriminate.
        -- cat_solve Hext Hcat.
  - pose proof (take_succ_nth lines (pk_i st) Hi) as Hext.
    destruct (_ <=? max_tokens)%Z.
    { exists gs. cbn. split; [exact Hgs|]. now rewrite app_assoc, Hcat. }
    destruct (pk_current_chunk_lines st) as [|l0 cur] eqn:Hcur;
      cbn [pk_chunks pk_current_chunk_lines pk_i] in *.
    + exists gs. split; [exact Hgs|]. cat_solve Hext Hcat.
    + exists (gs ++ [l0 :: cur]). split.
      * apply carried_snoc; [exact Hgs|].
        pose proof (flushed_chunk_carries (0 + length (concat gs)) st) as Hf.
        rewrite Hcur in Hf. apply Hf. discriminate.
      * cat_solve Hext Hcat.
Qed.

Lemma pack_finish_carries (st : pack_state) :
  length lines <= pk_i st ->
  pack_carries lines st ->
  exists gs, carried lines 0 (pack_finish priority st) gs /\ concat gs = lines.
Proof.
  intros Hi (gs & Hgs & Hcat). rewrite (take_ge lines (pk_i st) Hi) in Hcat.
  unfold pack_finish.
  destruct (pk_current_chunk_lines st) as [|l0 cur] eqn:Hcur.
  - exists gs. split; [now apply carried_set_total_chunks|].
    now rewrite app_nil_r in Hcat.
  - exists (gs ++ [l0 :: cur]). split.
    + apply carried_set_total_chunks, carried_snoc; [exact Hgs|].
      pose proof (flushed_chunk_carries (0 + length (concat gs)) st) as Hf.
      rewrite Hcur in Hf. apply Hf. discriminate.
    + rewrite concat_app. cbn [concat]. now rewrite app_nil_r.
Qed.

(** With no oversized span the packer makes no sub-chunk: every chunk has
    its [end_line]. *)
Lemma pack_step_whole (st : pack_state) :
  spans_fit lines boundaries max_tokens ->
  Forall (fun c => end_line c <> None) (pk_chunks st) ->
  Forall (fun c => end_line c <> None)
    (pk_chunks (pack_step lines boundaries max_tokens priority st)).
Proof.
  intros Hfit Hall. unfold pack_step.
  assert (Hflush : Forall (fun c => end_line c <> None)
                     (pk_chunks st ++ [flushed_chunk priority st])).
  { apply Forall_app. split; [exact Hall|]. repeat constructor. discriminate. }
  destruct (find_boundary boundaries (pk_i st)) as [[[[start end_] btype] name]|] eqn:Hb.
  - apply find_boundary_Some in Hb as [Hin _].
    unfold spans_fit in Hfit. rewrite List.Forall_forall in Hfit.
    specialize (Hfit _ Hin). unfold span_cost, b_start, b_end in Hfit.
    cbn [fst snd] in Hfit.
    destruct (_ <=? max_tokens)%Z; [exact Hall|].
    destruct (Z.gtb_spec (estimate_tokens_from_text
                            (join_nl (slice lines start (end_ + 1)))) max_tokens)
      as [Hgt|_]; [lia|].
    destruct (pk_current_chunk_lines st); [exact Hall | exact Hflush].
  - destruct (_ <=? max_tokens)%Z; [exact Hall|].
    destruct (pk_current_chunk_lines st); [exact Hall | exact Hflush].
Qed.

Lemma pack_finish_whole (st : pack_state) :
  Forall (fun c => end_line c <> None) (pk_chunks st) ->
  Forall (fun c => end_line c <> None) (pack_finish priority st).
Proof.
  intros Hall. unfold pack_finish. apply Forall_map.
  destruct (pk_current_chunk_lines st); [exact Hall|].
  apply Forall_app. split; [exact Hall|]. repeat constructor. discriminate.
Qed.

End PackerCarries.

Lemma create_chunks_with_boundaries_carries
    (strategy : ChunkingStrategy) (stats : chunker_stats) (content : string)
    (lines : list string) (boundaries : list Boundary) (max_tokens : Z)
    (priority : PriorityLevel) :
  overlap_functions strategy = false ->
  spans_well_formed boundaries ->
  exists chunks gs,
    _create_chunks_with_boundaries strategy stats content lines boundaries
      max_tokens priority = Some (chunks, stats)
    /\ carried lines 0 chunks gs
    /\ concat gs = lines
    /\ (spans_fit lines boundaries max_tokens ->
        Forall (fun c => end_line c <> None) chunks).
Proof.
  intros Hov Hwf.
  destruct (create_chunks_with_boundaries_returns strategy stats content lines
              boundaries max_tokens priority Hwf) as (final & Hloop & Hend & Hret).
  rewrite Hov in Hret.
  pose proof (pack_loop_invariant lines boundaries max_tokens priority
                (pack_carries lines)
                (fun st Hst Hi =>
                   pack_step_carries lines boundaries max_tokens priority Hwf st Hi Hst)
                _ pack_init final
                ltac:(exists []; split; [exact I | reflexivity])
                Hloop) as [Hinv _].
  destruct (pack_finish_carries lines priority final Hend Hinv) as (gs & Hgs & Hcat).
  exists (pack_finish priority final), gs. repeat split; [exact Hret | exact Hgs | exact Hcat|].
  intros Hfit. apply pack_finish_whole.
  apply (pack_loop_invariant lines boundaries max_tokens priority
           (fun st => Forall (fun c => end_line c <> None) (pk_chunks st))
           (fun st Hst _ =>
              pack_step_whole lines boundaries max_tokens priority st Hfit Hst)
           _ pack_init final ltac:(constructor) Hloop).
Qed.

(** Chunks whose line ranges lie end to end hold, one by one, the lines of
    their ranges. *)
Lemma ranges_tile_carried (lines : list string) (chunks : list Chunk) (from to : nat) :
  ranges_tile chunks from to -> to <= length lines ->
  Forall (holds_its_range lines) chunks ->
  exists gs,
    carried lines from chunks gs
    /\ concat gs = slice lines from to
    /\ Forall (fun c => end_line c <> None) chunks.
Proof.
  revert from. induction chunks as [|c chunks IH]; intros from; cbn [ranges_tile].
  - intros <- _ _. exists []. repeat split; [|constructor].
    unfold slice. now rewrite Nat.sub_diag.
  - intros (e & Hs & He & Hle & Hrest) Hto Hrng.
    inversion Hrng as [|? ? (s' & e' & Hs' & He' & _ & Hcont) Hrng']; subst.
    rewrite Hs in Hs'. rewrite He in He'. injection Hs' as <-. injection He' as <-.
    pose proof (ranges_tile_le _ _ _ Hrest) as Hlt.
    destruct (IH (S e) Hrest Hto Hrng') as (gs & Hgs & Hcat & Hall).
    assert (Hlen : length (slice lines from (S e)) = S e - from)
      by (apply slice_length; lia).
    exists (slice lines from (S e) :: gs). repeat split.
    + intros Hnil. rewrite Hnil in Hlen. cbn in Hlen. lia.
    + rewrite He. exact Hcont.
    + rewrite Hlen. replace (from + (S e - from)) with (S e) by lia. exact Hgs.
    + cbn [concat]. rewrite Hcat. apply slice_app; lia.
    + constructor; [congruence | exact Hall].
Qed.

Lemma chunk_generic_content_carries (content : string) (max_tokens : Z) :
  exists gs,
    carried (split_nl content) 0 (_chunk_generic_content content max_tokens) gs
    /\ concat gs = split_nl content
    /\ Forall (fun c => end_line c <> None) (_chunk_generic_content content max_tokens).
Proof.
  pose proof (chunk_generic_content_ranges content max_tokens) as H. cbv zeta in H.
  destruct H as (Htile & Hrng & _).
  destruct (ranges_tile_carried _ _ _ _ Htile (Nat.le_refl _) Hrng) as (gs & Hgs & Hcat & Hall).
  exists gs. rewrite slice_all in Hcat. auto.
Qed.

(** When every chunk has its [end_line], every content is exactly its
    group of lines. *)
Lemma carried_exact (lines : list string) (p : nat) (chunks : list Chunk)
    (gs : list (list string)) :
  carried lines p chunks gs ->
  Forall (fun g => g <> []) gs
  /\ (Forall (fun c => end_line c <> None) chunks -> map content chunks = map join_nl gs).
Proof.
  revert p gs. induction chunks as [|c chunks IH]; intros p [|g gs]; cbn [carried];
    try tauto.
  - intros _. split; [constructor | reflexivity].
  - intros [[Hg Hc] Hrest]. destruct (IH _ _ Hrest) as [IHne IHeq].
    split; [constructor; assumption|].
    intros Hall. inversion Hall as [|? ? Hend Hall']; subst. cbn [map].
    f_equal; [|now apply IHeq].
    destruct (end_line c); [exact Hc | congruence].
Qed.

(** The chunks returned when no annotation pass runs carry the source
    lines. *)
Lemma original_chunks_carry_lines
    (strategy : ChunkingStrategy) (stats : chunker_stats) (source : string)
    (fp : Path) (max_tokens : Z) (priority : PriorityLevel) (pf : bool) :
  no_enrichment strategy ->
  truthy_str (strip source) = true ->
  (max_tokens < estimate_tokens_from_text source)%Z ->
  parser_answers fp source ->
  (forall tree, ast_parse source = Parsed tree ->
     spans_well_formed (_find_python_boundaries tree (split_nl source))) ->
  exists chunks stats' gs,
    chunk_with_context strategy stats source fp max_tokens priority pf
    = Some (Returned chunks, stats')
    /\ carried (split_nl source) 0 chunks gs
    /\ concat gs = split_nl source
    /\ (spans_fit (split_nl source) (file_spans fp source) max_tokens ->
        join_nl (map content chunks) = source).
Proof.
  intros [Hhdr Hov] Hws Hbig Hans Hwf.
  assert (Hd : exists chunks gs,
             (if String.eqb (lower (path_suffix fp)) ".py" then
                _chunk_python_content strategy stats source max_tokens priority
              else if str_in (lower (path_suffix fp)) [".js"; ".ts"; ".jsx"; ".tsx"] then
                returned (_chunk_javascript_content strategy stats source max_tokens
                            priority)
              else if String.eqb (lower (path_suffix fp)) ".java" then
                returned (_chunk_java_content strategy stats source max_tokens priority)
              else Some (Returned (_chunk_generic_content source max_tokens), stats))
             = Some (Returned chunks, stats)
             /\ carried (split_nl source) 0 chunks gs
             /\ concat gs = split_nl source
             /\ (spans_fit (split_nl source) (file_spans fp source) max_tokens ->
                 Forall (fun c => end_line c <> None) chunks)).
  { destruct (chunk_generic_content_carries source max_tokens) as (gsg & Hg1 & Hg2 & Hg3).
    unfold file_spans, parser_answers in *. cbv zeta.
    destruct (String.eqb _ ".py").
    - unfold _chunk_python_content.
      destruct (ast_parse source) as [tree| |e] eqn:Hp;
        [|eauto 8|now destruct (Hans eq_refl e)].
      destruct (create_chunks_with_boundaries_carries strategy stats source
                  (split_nl source) (_find_python_boundaries tree (split_nl source))
                  max_tokens priority Hov (Hwf tree eq_refl))
        as (chunks & gs & -> & H1 & H2 & H3).
      exists chunks, gs. cbn. auto.
    - destruct (str_in _ _).
      + unfold _chunk_javascript_content.
        destruct (create_chunks_with_boundaries_carries strategy stats source
                    (split_nl source) (js_boundaries (split_nl source))
                    max_tokens priority Hov (js_boundaries_well_formed _))
          as (chunks & gs & -> & H1 & H2 & H3).
        exists chunks, gs. cbn. auto.
      + destruct (String.eqb _ ".java"); [|eauto 8].
        unfold _chunk_java_content.
        destruct (create_chunks_with_boundaries_carries strategy stats source
                    (split_nl source) (java_boundaries (split_nl source))
                    max_tokens priority Hov (java_boundaries_well_formed _))
          as (chunks & gs & -> & H1 & H2 & H3).
        exists chunks, gs. cbn. auto. }
  destruct Hd as (chunks & gs & Hd & Hgs & Hcat & Hwhole).
  unfold chunk_with_context. rewrite Hws. cbn [negb].
  destruct (Z.leb_spec (estimate_tokens_from_text source) max_tokens) as [Hle|_]; [lia|].
  rewrite Hd. cbn [mbind option_bind]. rewrite Hhdr.
  eexists chunks, _, gs. split; [reflexivity|]. split; [exact Hgs|].
  split; [exact Hcat|].
  intros Hfit. destruct (carried_exact _ _ _ _ Hgs) as [Hne Heq].
  rewrite (Heq (Hwhole Hfit)), join_nl_groups by exact Hne.
  rewrite Hcat. apply join_split_nl.
Qed.

(** ** Enrichment only adds *)

Lemma string_append_empty_r (s : string) : s +:+ EmptyString = s.
Proof.
  induction s as [|x s IH]; [reflexivity|].
  change (String x (s +:+ EmptyString) = String x s). now rewrite IH.
Qed.

Lemma wraps_refl (c : Chunk) : wraps c c.
Proof.
  split; [reflexivity|]. exists EmptyString, EmptyString.
  change (content c = content c +:+ EmptyString). now rewrite string_append_empty_r.
Qed.

Lemma wraps_trans (a b c : Chunk) : wraps a b -> wraps b c -> wraps a c.
Proof.
  intros [Hid1 (h1 & f1 & H1)] [Hid2 (h2 & f2 & H2)]. split; [congruence|].
  exists (h1 +:+ h2), (f2 +:+ f1). rewrite H1, H2.
  now rewrite !string_append_assoc.
Qed.

Lemma Forall2_wraps_refl (l : list Chunk) : Forall2 wraps l l.
Proof. induction l; constructor; [apply wraps_refl | assumption]. Qed.

Lemma Forall2_wraps_trans (l1 l2 l3 : list Chunk) :
  Forall2 wraps l1 l2 -> Forall2 wraps l2 l3 -> Forall2 wraps l1 l3.
Proof.
  intros H. revert l3. induction H as [|a b l1 l2 Hab _ IH]; intros l3 H23;
    inversion H23; subst; constructor; [eapply wraps_trans; eauto | auto].
Qed.

Lemma Forall2_wraps_map (f : Chunk -> Chunk) (l : list Chunk) :
  (forall c, wraps (f c) c) -> Forall2 wraps (map f l) l.
Proof. intros Hf. induction l; cbn; constructor; auto. Qed.

Lemma Forall2_wraps_imap (f : nat * Chunk -> Chunk) (l : list Chunk) (k : nat) :
  (forall i c, wraps (f (i, c)) c) ->
  Forall2 wraps (map f (zip (seq k (length l)) l)) l.
Proof. intros Hf. revert k. induction l; intros k; cbn; constructor; auto. Qed.

Lemma overlap_chunk_wraps (boundaries : list Boundary) (c : Chunk) :
  wraps (overlap_chunk c boundaries) c.
Proof.
  split; [reflexivity|]. unfold overlap_chunk. cbn [content].
  destruct (overlapping_functions c boundaries) as [|o os].
  - exists EmptyString, EmptyString.
    change (content c = content c +:+ EmptyString). now rewrite string_append_empty_r.
  - eexists _, EmptyString. now rewrite string_append_empty_r.
Qed.

Lemma continuation_chunk_wraps (fp : Path) (n i : nat) (c : Chunk) :
  wraps (continuation_chunk fp n i c) c.
Proof.
  split; [reflexivity|]. unfold continuation_chunk. cbn [content].
  match goal with |- context [join_nl ([?h; _] ++ _)] => set (header := h) end.
  exists (header +:+ nl_string).
  destruct (i <? n - 1); cbn [app].
  - eexists (String nl _). rewrite !join_nl_cons by discriminate. cbn [join_nl].
    rewrite string_append_assoc. reflexivity.
  - exists EmptyString. rewrite join_nl_cons by discriminate. cbn [join_nl].
    rewrite string_append_empty_r, string_append_assoc. reflexivity.
Qed.

Lemma create_chunks_with_boundaries_wraps
    (strategy : ChunkingStrategy) (stats : chunker_stats) (source : string)
    (lines : list string) (boundaries : list Boundary) (max_tokens : Z)
    (priority : PriorityLevel) (originals : list Chunk) (stats0 : chunker_stats) :
  _create_chunks_with_boundaries (without_enrichment strategy) stats source lines
    boundaries max_tokens priority = Some (originals, stats0) ->
  exists chunks stats',
    _create_chunks_with_boundaries strategy stats source lines boundaries
      max_tokens priority = Some (chunks, stats')
    /\ Forall2 wraps chunks originals.
Proof.
  unfold _create_chunks_with_boundaries.
  destruct (pack_loop _ _ _ _ _ _) as [final|]; [|intros ?; discriminate].
  cbn. intros [= <- <-].
  destruct (overlap_functions strategy); eexists _, _; (split; [reflexivity|]).
  - apply Forall2_wraps_map, overlap_chunk_wraps.
  - apply Forall2_wraps_refl.
Qed.

(** What [chunk_with_context] returns is, chunk by chunk, what it returns
    with the annotation passes off, between added text. *)
Lemma chunk_with_context_wraps
    (strategy : ChunkingStrategy) (stats : chunker_stats) (source : string)
    (fp : Path) (max_tokens : Z) (priority : PriorityLevel) (pf : bool)
    (originals : list Chunk) (stats0 : chunker_stats) :
  chunk_with_context (without_enrichment strategy) stats source fp max_tokens
    priority pf = Some (Returned originals, stats0) ->
  exists chunks stats',
    chunk_with_context strategy stats source fp max_tokens priority pf
    = Some (Returned chunks, stats')
    /\ Forall2 wraps chunks originals.
Proof.
  unfold chunk_with_context.
  destruct (negb _); [intros [= <- <-]; eexists _, _; split; [reflexivity | constructor]|].
  destruct (_ <=? max_tokens)%Z;
    [intros [= <- <-]; eexists _, _; split; [reflexivity | apply Forall2_wraps_refl]|].
  intros H0.
  match type of H0 with
  | context [mbind _ ?d] => destruct d as [[[o|e] s0]|] eqn:Hd0
  end; cbn [mbind option_bind include_context_headers without_enrichment] in H0;
    [|discriminate..].
  injection H0 as <- _.
  assert (Hpack : forall l bs,
             returned (_create_chunks_with_boundaries (without_enrichment strategy) stats
                         source l bs max_tokens priority)
             = Some (Returned o, s0) ->
             exists chunks0 stats1,
               returned (_create_chunks_with_boundaries strategy stats source l bs
                           max_tokens priority)
               = Some (Returned chunks0, stats1)
               /\ Forall2 wraps chunks0 o).
  { intros l bs.
    destruct (_create_chunks_with_boundaries (without_enrichment strategy) stats
                source l bs max_tokens priority) as [[o' s']|] eqn:Hc; [|discriminate].
    cbn. intros [= <- <-].
    destruct (create_chunks_with_boundaries_wraps strategy stats source l bs
                max_tokens priority o' s' Hc) as (chunks & stats' & -> & Hw).
    cbn. eauto. }
  assert (Hd : exists chunks0 stats1,
             (if String.eqb (lower (path_suffix fp)) ".py" then
                _chunk_python_content strategy stats source max_tokens priority
              else if str_in (lower (path_suffix fp)) [".js"; ".ts"; ".jsx"; ".tsx"] then
                returned (_chunk_javascript_content strategy stats source max_tokens
                            priority)
              else if String.eqb (lower (path_suffix fp)) ".java" then
                returned (_chunk_java_content strategy stats source max_tokens priority)
              else Some (Returned (_chunk_generic_content source max_tokens), stats))
             = Some (Returned chunks0, stats1)
             /\ Forall2 wraps chunks0 o).
  { revert Hd0.
    unfold _chunk_python_content, _chunk_javascript_content, _chunk_java_content.
    cbv zeta.
    repeat match goal with
           | |- context [if String.eqb ?a ?b then _ else _] => destruct (String.eqb a b)
           | |- context [if str_in ?a ?b then _ else _] => destruct (str_in a b)
           | |- context [match ast_parse ?c with _ => _ end] => destruct (ast_parse c)
           end;
      try apply Hpack; try discriminate;
      intros [= <- <-]; eexists _, _; (split; [reflexivity | apply Forall2_wraps_refl]). }
  destruct Hd as (chunks0 & stats1 & -> & Hw). cbn [mbind option_bind].
  destruct (include_context_headers strategy).
  - unfold add_continuation_context.
    destruct (length chunks0 <=? 1); eexists _, _; (split; [reflexivity|]);
      [exact Hw|].
    eapply Forall2_wraps_trans; [|exact Hw].
    apply (Forall2_wraps_imap
             (fun '(i, chunk) => continuation_chunk fp (length chunks0) i chunk)).
    intros i c. apply continuation_chunk_wraps.
  - eexists _, _. split; [reflexivity | exact Hw].
Qed.

(** C1 (as amended). Let [ast.parse] raise nothing but SyntaxError on a
    [.py] file, and let every span it reports end no earlier than it
    starts. Whitespace-only content gives no chunk at all. For content
    that is not whitespace-only and whose estimate exceeds max_tokens, the
    chunks [chunk_with_context] returns are, one by one, the original
    chunks (what the same call returns with the annotation passes off)
    between added text, and the original contents, in chunk_id order, hold
    the source lines in order, none dropped: the chunks correspond to
    groups [gs] of consecutive source lines that, laid end to end, are the
    lines of the input, and each original content is its group, except
    that a part that [_split_large_boundary] made of an oversized span,
    other than the first part, is the span's first line, repeated, and
    then its group.
    When no span is oversized (the cost of each is at most max_tokens),
    joining the original contents reproduces the input exactly. *)
Theorem chunks_reproduce_source_lines
    (strategy : ChunkingStrategy) (stats : chunker_stats) (source : string)
    (fp : Path) (max_tokens : Z) (priority : PriorityLevel) (pf : bool) :
  parser_answers fp source ->
  (forall tree, ast_parse source = Parsed tree ->
     spans_well_formed (_find_python_boundaries tree (split_nl source))) ->
  (truthy_str (strip source) = false ->
   chunk_with_context strategy stats source fp max_tokens priority pf
   = Some (Returned [], stats))
  /\ (truthy_str (strip source) = true ->
      (max_tokens < estimate_tokens_from_text source)%Z ->
      exists chunks stats' originals stats0 gs,
        chunk_with_context strategy stats source fp max_tokens priority pf
        = Some (Returned chunks, stats')
        /\ chunk_with_context (without_enrichment strategy) stats source fp max_tokens
             priority pf = Some (Returned originals, stats0)
        /\ Forall2 wraps chunks originals
        /\ carried (split_nl source) 0 originals gs
        /\ concat gs = split_nl source
        /\ (spans_fit (split_nl source) (file_spans fp source) max_tokens ->
            join_nl (map content originals) = source)).
Proof.
  intros Hans Hwf. split.
  - intros Hws. unfold chunk_with_context. now rewrite Hws.
  - intros Hws Hbig.
    destruct (original_chunks_carry_lines (without_enrichment strategy) stats source fp
                max_tokens priority pf ltac:(split; reflexivity) Hws Hbig Hans Hwf)
      as (originals & stats0 & gs & Horig & Hgs & Hjoin & Hexact).
    destruct (chunk_with_context_wraps strategy stats source fp max_tokens priority pf
                originals stats0 Horig) as (chunks & stats' & Hret & Hw).
    exists chunks, stats', originals, stats0, gs. auto 10.
Qed.

(** ** Spans that fit are kept whole *)

Section PackerSpans.
Variable lines : list string.
Variable boundaries : list Boundary.
Variable max_tokens : Z.
Variable priority : PriorityLevel.
Hypothesis boundaries_wf : spans_well_formed boundaries.
Hypothesis lines_no_nl : Forall (fun l => no_nl l = true) lines.

#[local] Abbreviation step := (pack_step lines boundaries max_tokens priority).
#[local] Abbreviation loop := (pack_loop lines boundaries max_tokens priority).
#[local] Abbreviation reached_state := (reached lines boundaries max_tokens priority).

Lemma pack_step_i (st : pack_state) :
  pk_i (step st)
  = match find_boundary boundaries (pk_i st) with
    | Some b => b_end b + 1
    | None => pk_i st + 1
    end.
Proof.
  unfold pack_step.
  destruct (find_boundary boundaries (pk_i st)) as [[[[start end_] btype] name]|];
    repeat (match goal with |- context [if ?b then _ else _] => destruct b end);
    reflexivity.
Qed.

(** The scan arrives at every line that no span covers behind its first
    line. *)
Lemma scan_reaches (s : nat) :
  s < length lines ->
  (forall b', In b' boundaries -> ~ (b_start b' < s <= b_end b')) ->
  exists st, reached_state st /\ pk_i st = s.
Proof.
  intros Hs Hfree.
  enough (H : forall n st, reached_state st -> pk_i st <= s -> s - pk_i st <= n ->
                           exists st', reached_state st' /\ pk_i st' = s).
  { apply (H s pack_init); [constructor | cbn; lia | cbn; lia]. }
  induction n as [|n IH]; intros st Hr Hle Hn.
  - exists st. split; [exact Hr | lia].
  - destruct (Nat.eq_dec (pk_i st) s) as [Heq|Hne]; [eauto|].
    pose proof (pack_step_advances lines boundaries max_tokens priority st boundaries_wf)
      as Hadv.
    assert (Hnext : pk_i (step st) <= s).
    { rewrite pack_step_i.
      destruct (find_boundary boundaries (pk_i st)) as [b|] eqn:Hb; [|lia].
      apply find_boundary_Some in Hb as [Hin Hstart].
      specialize (Hfree b Hin). lia. }
    apply (IH (step st)); [|exact Hnext | lia].
    constructor; [exact Hr | lia].
Qed.

(** A state the scan goes through ends in the state the whole run ends
    in. *)
Lemma reached_loop (st final : pack_state) (n : nat) :
  reached_state st -> loop n pack_init = Some final ->
  exists m, loop m st = Some final.
Proof.
  intros Hr Hfinal. induction Hr as [|st Hr IH Hi]; [eauto|].
  destruct IH as [m Hm]. destruct m as [|m]; cbn [pack_loop] in Hm.
  - apply Nat.ltb_lt in Hi. rewrite Hi in Hm. discriminate.
  - apply Nat.ltb_lt in Hi. rewrite Hi in Hm. eauto.
Qed.

Lemma slice_no_nl (a b : nat) : Forall (fun l => no_nl l = true) (slice lines a b).
Proof. unfold slice. now apply Forall_take, Forall_drop. Qed.

Lemma nth_no_nl (i : nat) : no_nl (nth i lines EmptyString) = true.
Proof.
  destruct (nth_in_or_default i lines EmptyString) as [Hin| ->]; [|reflexivity].
  rewrite List.Forall_forall in lines_no_nl. now apply lines_no_nl.
Qed.

(** The lines being accumulated hold no newline. *)
Lemma pack_step_no_nl (st : pack_state) :
  Forall (fun l => no_nl l = true) (pk_current_chunk_lines st) ->
  Forall (fun l => no_nl l = true) (pk_current_chunk_lines (step st)).
Proof.
  intros H. unfold pack_step.
  destruct (find_boundary boundaries (pk_i st)) as [[[[start end_] btype] name]|].
  - destruct (_ <=? max_tokens)%Z; cbn [pk_current_chunk_lines].
    { apply Forall_app. split; [exact H | apply slice_no_nl]. }
    destruct (_ >? max_tokens)%Z; cbn [pk_current_chunk_lines].
    + destruct (pk_current_chunk_lines st) eqn:E; cbn [pk_current_chunk_lines];
        [rewrite E|]; constructor.
    + apply slice_no_nl.
  - destruct (_ <=? max_tokens)%Z; cbn [pk_current_chunk_lines].
    + apply Forall_app. split; [exact H|]. constructor; [apply nth_no_nl | constructor].
    + constructor; [apply nth_no_nl | constructor].
Qed.

Variable pre span : list string.
Hypothesis span_nonempty : span <> [].

Lemma holds_span_flushed (st : pack_state) (post : list string) :
  Forall (fun l => no_nl l = true) (pk_current_chunk_lines st) ->
  pk_current_chunk_lines st = pre ++ span ++ post ->
  chunk_lines (flushed_chunk priority st) = pre ++ span ++ post.
Proof.
  intros Hnl Hcur. unfold chunk_lines, flushed_chunk, _create_chunk. cbn [content].
  rewrite split_join_nl; [exact Hcur | | exact Hnl].
  rewrite Hcur. destruct pre; [destruct span; [congruence | discriminate] | discriminate].
Qed.

Lemma holds_span_grows (chunks more : list Chunk) :
  (exists c post, In c chunks /\ chunk_lines c = pre ++ span ++ post) ->
  exists c post, In c (chunks ++ more) /\ chunk_lines c = pre ++ span ++ post.
Proof. intros (c & post & Hin & Hc). exists c, post. split; [apply in_or_app; auto | exact Hc]. Qed.

(** Once the span is in the accumulated lines or in a chunk, it stays in
    one chunk. *)
Lemma pack_step_holds_span (st : pack_state) :
  Forall (fun l => no_nl l = true) (pk_current_chunk_lines st) ->
  holds_span pre span st -> holds_span pre span (step st).
Proof.
  intros Hnl [Hchunk|[post Hcur]]; unfold holds_span.
  - left. unfold pack_step.
    destruct (find_boundary boundaries (pk_i st)) as [[[[start end_] btype] name]|];
      repeat (match goal with
              | |- context [if ?b then _ else _] => destruct b
              | |- context [match pk_current_chunk_lines st with _ => _ end] =>
                  destruct (pk_current_chunk_lines st)
              end);
      cbn [pk_chunks]; try exact Hchunk;
      repeat apply holds_span_grows; exact Hchunk.
  - assert (Hne : pk_current_chunk_lines st <> []).
    { rewrite Hcur. destruct pre; [destruct span; [congruence | discriminate] | discriminate]. }
    pose proof (holds_span_flushed st post Hnl Hcur) as Hflush.
    unfold pack_step.
    destruct (find_boundary boundaries (pk_i st)) as [[[[start end_] btype] name]|].
    + destruct (_ <=? max_tokens)%Z; cbn [pk_current_chunk_lines pk_chunks].
      { right. exists (post ++ slice lines start (end_ + 1)).
        rewrite Hcur, <- !app_assoc. reflexivity. }
      destruct (pk_current_chunk_lines st) as [|l0 cur]; [congruence|].
      left. destruct (_ >? max_tokens)%Z; cbn [pk_chunks].
      * apply holds_span_grows. exists (flushed_chunk priority st), post.
        split; [apply in_or_app; right; left; reflexivity | exact Hflush].
      * exists (flushed_chunk priority st), post.
        split; [apply in_or_app; right; left; reflexivity | exact Hflush].
    + destruct (_ <=? max_tokens)%Z; cbn [pk_current_chunk_lines pk_chunks].
      { right. exists (post ++ [nth (pk_i st) lines EmptyString]).
        rewrite Hcur, <- !app_assoc. reflexivity. }
      destruct (pk_current_chunk_lines st) as [|l0 cur]; [congruence|].
      left. cbn [pk_chunks]. exists (flushed_chunk priority st), post.
      split; [apply in_or_app; right; left; reflexivity | exact Hflush].
Qed.

Lemma pack_finish_holds_span (st : pack_state) :
  Forall (fun l => no_nl l = true) (pk_current_chunk_lines st) ->
  holds_span pre span st ->
  exists c post, In c (pack_finish priority st) /\ chunk_lines c = pre ++ span ++ post.
Proof.
  intros Hnl H. unfold pack_finish.
  match goal with |- context [map (set_total_chunks ?n) ?cs] =>
    enough (Hin : exists c post, In c cs /\ chunk_lines c = pre ++ span ++ post);
    [destruct Hin as (c & post & Hin & Hc);
     exists (set_total_chunks n c), post; split; [now apply in_map | exact Hc]|]
  end.
  destruct H as [Hchunk|[post Hcur]].
  - destruct (pk_current_chunk_lines st); [exact Hchunk | now apply holds_span_grows].
  - pose proof (holds_span_flushed st post Hnl Hcur) as Hflush.
    destruct (pk_current_chunk_lines st) as [|l0 cur] eqn:Hc.
    + exfalso. destruct pre; [destruct span; [congruence | discriminate] | discriminate].
    + exists (flushed_chunk priority st), post.
      split; [apply in_or_app; right; left; reflexivity | exact Hflush].
Qed.

End PackerSpans.

Lemma reached_no_nl
    (lines : list string) (boundaries : list Boundary) (max_tokens : Z)
    (priority : PriorityLevel) (st : pack_state) :
  Forall (fun l => no_nl l = true) lines ->
  reached lines boundaries max_tokens priority st ->
  Forall (fun l => no_nl l = true) (pk_current_chunk_lines st).
Proof.
  intros Hnl Hr. induction Hr as [|st Hr IH Hi]; [constructor|].
  now apply pack_step_no_nl.
Qed.

(** C7 (as amended). The scan meets every span whose first line is not
    covered by another span behind that span's first line. A span the scan
    meets and whose cost is at most max_tokens is placed whole, its lines
    next to each other, in one chunk: behind the lines accumulated so far
    when it fits the remaining room, and otherwise at the start of a new
    chunk. Every span that lies within it (a method inside its class's
    span) is whole in that same chunk. (A span that lies within an
    oversized span can be split.) *)
Theorem uncovered_span_kept_whole
    (strategy : ChunkingStrategy) (stats : chunker_stats) (source : string)
    (lines : list string) (boundaries : list Boundary) (max_tokens : Z)
    (priority : PriorityLevel) (s : nat) (b : Boundary) :
  lines = split_nl source ->
  overlap_functions strategy = false ->
  spans_well_formed boundaries ->
  s < length lines ->
  find_boundary boundaries s = Some b ->
  (estimate_tokens_from_text (join_nl (slice lines s (b_end b + 1))) <= max_tokens)%Z ->
  ((forall b', In b' boundaries -> ~ (b_start b' < s <= b_end b')) ->
   exists st, reached lines boundaries max_tokens priority st /\ pk_i st = s)
  /\ (forall st,
        reached lines boundaries max_tokens priority st -> pk_i st = s ->
        exists chunks c post,
          _create_chunks_with_boundaries strategy stats source lines boundaries
            max_tokens priority = Some (chunks, stats)
          /\ In c chunks
          /\ chunk_lines c
             = (if (pk_current_tokens st
                    + estimate_tokens_from_text (join_nl (slice lines s (b_end b + 1)))
                    <=? max_tokens)%Z
                then pk_current_chunk_lines st else [])
               ++ slice lines s (b_end b + 1) ++ post
          /\ forall b',
               In b' boundaries -> s <= b_start b' -> b_end b' <= b_end b ->
               exists pre' post',
                 chunk_lines c
                 = pre' ++ slice lines (b_start b') (b_end b' + 1) ++ post').
Proof.
  intros Hlines Hov Hwf Hs Hb Hcost.
  split; [now apply scan_reaches|].
  intros st Hr Hi.
  assert (Hnl : Forall (fun l => no_nl l = true) lines)
    by (rewrite Hlines; apply split_nl_no_nl).
  destruct (create_chunks_with_boundaries_returns strategy stats source lines
              boundaries max_tokens priority Hwf) as (final & Hloop & Hend & Hret).
  rewrite Hov in Hret.
  destruct (reached_loop lines boundaries max_tokens priority st final _ Hr Hloop)
    as [m Hm].
  assert (Hlt : (pk_i st <? length lines) = true) by (apply Nat.ltb_lt; lia).
  destruct m as [|m]; cbn [pack_loop] in Hm; rewrite Hlt in Hm; [discriminate|].
  pose proof (reached_no_nl lines boundaries max_tokens priority st Hnl Hr) as Hcur_nl.
  pose proof (find_boundary_Some boundaries s b Hb) as [Hin Hstart].
  pose proof Hwf as Hall. unfold spans_well_formed in Hall.
  rewrite List.Forall_forall in Hall.
  assert (Hwfb : b_start b <= b_end b) by now apply Hall.
  destruct b as [[[start end_] btype] name].
  change (b_end (start, end_, btype, name)) with end_ in *.
  change (b_start (start, end_, btype, name)) with start in *.
  subst start.
  set (span := slice lines s (end_ + 1)) in *.
  set (pre := if (pk_current_tokens st + estimate_tokens_from_text (join_nl span)
                  <=? max_tokens)%Z
              then pk_current_chunk_lines st else []).
  assert (Hspan : span <> []).
  { subst span. destruct (slice_head lines s end_ Hs Hwfb) as [rest ->].
    discriminate. }
  assert (Hstep : holds_span pre span
                    (pack_step lines boundaries max_tokens priority st)).
  { right. exists []. unfold pack_step. rewrite Hi, Hb. fold span. subst pre.
    destruct (_ <=? max_tokens)%Z; cbn [pk_current_chunk_lines].
    - now rewrite app_nil_r.
    - destruct (Z.gtb_spec (estimate_tokens_from_text (join_nl span)) max_tokens);
        [lia|].
      cbn [pk_current_chunk_lines]. now rewrite app_nil_r. }
  pose proof (pack_loop_invariant lines boundaries max_tokens priority
                (fun st => Forall (fun l => no_nl l = true) (pk_current_chunk_lines st)
                           /\ holds_span pre span st)
                (fun st' Hst' _ =>
                   conj (pack_step_no_nl lines boundaries max_tokens priority Hnl st' (proj1 Hst'))
                        (pack_step_holds_span lines boundaries max_tokens priority
                           pre span Hspan st' (proj1 Hst') (proj2 Hst')))
                m _ final
                (conj (pack_step_no_nl lines boundaries max_tokens priority Hnl st Hcur_nl)
                      Hstep)
                Hm) as [[Hfin_nl Hfin] _].
  destruct (pack_finish_holds_span priority pre span Hspan final Hfin_nl Hfin)
    as (c & post & Hc_in & Hc).
  exists (pack_finish priority final), c, post. repeat split; auto.
  intros b' Hin' Hlo Hhi. specialize (Hall b' Hin').
  exists (pre ++ slice lines s (b_start b')),
         (slice lines (b_end b' + 1) (end_ + 1) ++ post).
  rewrite Hc. subst span.
  rewrite <- (slice_app lines s (b_start b') (end_ + 1)) by lia.
  rewrite <- (slice_app lines (b_start b') (b_end b' + 1) (end_ + 1)) by lia.
  now rewrite <- !app_assoc.
Qed.

(* ===================================================================== *)
(** * Part VII. Further properties of the code                            *)
(* ===================================================================== *)

(** ** Level selection *)

(** Splits on every threshold test in the goal and turns each outcome
    into an inequality on rationals. *)
Ltac threshold_cases :=
  repeat match goal with
         | |- context [Qle_bool ?r ?t] =>
             let E := fresh "E" in
             destruct (Qle_bool r t) eqn:E;
             [apply Qle_bool_iff in E
             |apply not_true_iff_false in E; rewrite Qle_bool_iff in E;
              apply Qnot_le_lt in E]
         end.

(** A larger quotient never gets a milder level. *)
Lemma float_level_monotone (p : PriorityLevel) (r1 r2 : Q) :
  (r1 <= r2)%Q -> level_rank (float_level p r1) <= level_rank (float_level p r2).
Proof.
  intros Hr.
  destruct float_literals_ascend as (L1 & L2 & L3 & L4 & L5).
  set (c13 := float_lit 1.3) in *. set (c15 := float_lit 1.5) in *.
  set (c20 := float_lit 2.0) in *. set (c25 := float_lit 2.5) in *.
  set (c30 := float_lit 3.0) in *. set (c40 := float_lit 4.0) in *.
  destruct p; unfold float_level; fold c13 c15 c20 c25 c30 c40;
    threshold_cases; try (vm_compute; lia); exfalso; lra.
Qed.

Lemma ratio_monotone (e1 e2 a : Z) :
  (0 < a)%Z -> (e1 <= e2)%Z ->
  (inject_Z e1 / inject_Z a <= inject_Z e2 / inject_Z a)%Q.
Proof.
  intros Ha He. destruct a as [|a|a]; try lia.
  unfold Qle, Qdiv, Qmult, Qinv, inject_Z. cbn [Qnum Qden]. nia.
Qed.

(** X1. For a positive budget, a fixed priority and estimates below
    2^1000, a larger estimate never selects a milder level: the level is
    monotone in the estimate, from NONE (within budget) up to MAXIMUM. *)
Theorem level_grows_with_estimate (e1 e2 available : Z) (p : PriorityLevel) :
  (0 < available)%Z -> (e1 <= e2)%Z -> (e2 < 2 ^ 1000)%Z ->
  exists l1 l2,
    _determine_condensing_level e1 available p = Returned l1
    /\ _determine_condensing_level e2 available p = Returned l2
    /\ level_rank l1 <= level_rank l2.
Proof.
  intros Ha He Hb.
  destruct (Z_le_gt_dec e1 available) as [H1|H1].
  - rewrite (determine_level_under_budget e1 available p) by lia.
    destruct (determine_level_returns e2 available p) as [l2 H2]; [lia|].
    exists NONE, l2. repeat split; [exact H2 | cbn; lia].
  - rewrite !determine_level_float by lia.
    eexists _, _. split; [reflexivity|]. split; [reflexivity|].
    apply float_level_monotone, b64_mono, ratio_monotone; lia.
Qed.

(** X2. For every pair of priorities p1 above p2 other than CRITICAL above
    HIGH, every positive budget and every estimate above it and below
    2^1000, the level selected for p1 is never more aggressive than the
    level selected for p2. *)
Theorem level_respects_priority_except_critical_high
    (estimated available : Z) (p1 p2 : PriorityLevel) :
  (0 < available)%Z -> (available < estimated < 2 ^ 1000)%Z ->
  priority_rank p2 < priority_rank p1 ->
  ~ (p1 = CRITICAL /\ p2 = HIGH) ->
  exists l1 l2,
    _determine_condensing_level estimated available p1 = Returned l1
    /\ _determine_condensing_level estimated available p2 = Returned l2
    /\ level_rank l1 <= level_rank l2.
Proof.
  intros Ha He. apply determine_level_priority_order; lia.
Qed.

(** The quotient of an estimate by a negative budget below it is at most
    1. *)
Lemma ratio_at_most_one (e a : Z) :
  (a < 0)%Z -> (a < e)%Z -> (inject_Z e / inject_Z a <= 1)%Q.
Proof.
  intros Ha He. destruct a as [|a|a]; try lia.
  unfold Qle, Qdiv, Qmult, Qinv, inject_Z. cbn [Qnum Qden]. nia.
Qed.

Lemma float_level_at_most_one (p : PriorityLevel) (r : Q) :
  (r <= 1)%Q ->
  float_level p r = match p with CRITICAL | HIGH => LIGHT | _ => MODERATE end.
Proof.
  intros Hr.
  assert (H13 : (1 <= float_lit 1.3)%Q) by (vm_compute; discriminate).
  assert (H15 : (1 <= float_lit 1.5)%Q) by (vm_compute; discriminate).
  assert (H20 : (1 <= float_lit 2.0)%Q) by (vm_compute; discriminate).
  set (c13 := float_lit 1.3) in *. set (c15 := float_lit 1.5) in *.
  set (c20 := float_lit 2.0) in *.
  destruct p; unfold float_level; fold c13 c15 c20;
    match goal with
    | |- context [if Qle_bool r ?t then _ else _] =>
        replace (Qle_bool r t) with true by (symmetry; apply Qle_bool_iff; lra)
    end; reflexivity.
Qed.

(** X3. With a negative budget and an estimate above it, of absolute value
    below 2^1000, the level selection does not raise and selects the
    mildest level its priority branch has: LIGHT for CRITICAL and HIGH,
    MODERATE for MEDIUM and LOW (the quotient of the estimate by a negative
    budget is at most 1, below every threshold). *)
Theorem negative_budget_selects_mildest_level
    (estimated available : Z) (p : PriorityLevel) :
  (available < 0)%Z -> (available < estimated)%Z -> (Z.abs estimated < 2 ^ 1000)%Z ->
  _determine_condensing_level estimated available p
  = Returned match p with CRITICAL | HIGH => LIGHT | _ => MODERATE end.
Proof.
  intros Ha He Hb. rewrite determine_level_float by lia. f_equal.
  apply float_level_at_most_one.
  assert (E1 : (b64 1 == 1)%Q) by (vm_compute; reflexivity).
  rewrite <- E1. apply b64_mono. now apply ratio_at_most_one.
Qed.

(** X4. [_increase_condensing_level] and [_decrease_condensing_level]
    return one of the five levels for every input string, and MODERATE for
    a string that is none of the five. *)
Theorem level_steps_stay_within_levels (current_level : string) :
  In (_increase_condensing_level current_level) levels
  /\ In (_decrease_condensing_level current_level) levels
  /\ (~ In current_level levels ->
      _increase_condensing_level current_level = MODERATE
      /\ _decrease_condensing_level current_level = MODERATE).
Proof.
  unfold _increase_condensing_level, _decrease_condensing_level, levels.
  cbn [list_index].
  destruct (String.eqb_spec NONE current_level) as [<-|H0];
    [cbn; intuition auto|].
  destruct (String.eqb_spec LIGHT current_level) as [<-|H1];
    [cbn; intuition auto|].
  destruct (String.eqb_spec MODERATE current_level) as [<-|H2];
    [cbn; intuition auto|].
  destruct (String.eqb_spec HEAVY current_level) as [<-|H3];
    [cbn; intuition auto|].
  destruct (String.eqb_spec MAXIMUM current_level) as [<-|H4];
    [cbn; intuition auto|].
  cbn. intuition auto.
Qed.

(** ** Generic condensing *)

Lemma filter_no_nl (f : string -> bool) (l : list string) :
  Forall (fun s => no_nl s = true) l ->
  Forall (fun s => no_nl s = true) (List.filter f l).
Proof.
  induction 1 as [|x l Hx Hl IH]; cbn; [constructor|].
  destruct (f x); [constructor|]; assumption.
Qed.

Lemma filter_filter (f : string -> bool) (l : list string) :
  List.filter f (List.filter f l) = List.filter f l.
Proof.
  induction l as [|x l IH]; cbn; [reflexivity|].
  destruct (f x) eqn:E; cbn; [rewrite E, IH|]; auto.
Qed.

(** X5. LIGHT condensing of generic content is idempotent: condensing its
    own output again changes nothing. *)
Theorem generic_light_is_idempotent (text : string) :
  _condense_generic_content (_condense_generic_content text LIGHT) LIGHT
  = _condense_generic_content text LIGHT.
Proof.
  unfold _condense_generic_content. cbn [String.eqb].
  change (String.eqb LIGHT LIGHT) with true. cbv iota.
  set (keep := fun line : string =>
                 truthy_str (strip line) && negb (startswith (strip line) "#")).
  set (kept := List.filter keep (split_nl text)).
  destruct kept as [|l0 ls] eqn:Hk; [reflexivity|].
  rewrite split_join_nl; [|discriminate|].
  - rewrite <- Hk. subst kept. now rewrite filter_filter.
  - rewrite <- Hk. subst kept. apply filter_no_nl, split_nl_no_nl.
Qed.

Lemma no_nl_take_drop (l : list string) (n : nat) :
  Forall (fun s => no_nl s = true) l ->
  Forall (fun s => no_nl s = true) (take n l)
  /\ Forall (fun s => no_nl s = true) (drop n l).
Proof. intros H. split; [now apply Forall_take | now apply Forall_drop]. Qed.

(** X6. MODERATE condensing of generic content is idempotent, and its
    output has the lines of the input when there are at most 30 of them and
    exactly 31 lines otherwise. *)
Theorem generic_moderate_is_idempotent (text : string) :
  _condense_generic_content (_condense_generic_content text MODERATE) MODERATE
  = _condense_generic_content text MODERATE
  /\ length (split_nl (_condense_generic_content text MODERATE))
     = if length (split_nl text) <=? 30 then length (split_nl text) else 31.
Proof.
  unfold _condense_generic_content.
  change (String.eqb MODERATE LIGHT) with false.
  change (String.eqb MODERATE MODERATE) with true. cbv iota.
  destruct (Nat.leb_spec (length (split_nl text)) 30) as [Hle|Hgt].
  - apply Nat.leb_le in Hle. rewrite Hle. split; reflexivity.
  - set (ls := split_nl text) in *.
    set (out := take 20 ls ++ ["# ... content truncated ..."] ++ last_n ls 10).
    assert (Hnl : Forall (fun s => no_nl s = true) out).
    { pose proof (split_nl_no_nl text) as H. fold ls in H. subst out.
      apply Forall_app. split; [now apply Forall_take|].
      apply Forall_app. split; [repeat constructor | now apply Forall_drop]. }
    assert (Hsplit : split_nl (join_nl out) = out).
    { apply split_join_nl; [|exact Hnl]. subst out. destruct (take 20 ls); discriminate. }
    assert (H20 : length (take 20 ls) = 20) by (rewrite length_take; lia).
    assert (H10 : length (last_n ls 10) = 10) by (unfold last_n; rewrite length_drop; lia).
    assert (Hlen : length out = 31).
    { subst out. rewrite !length_app, H20, H10. reflexivity. }
    rewrite Hsplit, Hlen. cbn [Nat.leb]. split; [|reflexivity].
    f_equal. subst out. f_equal; [|f_equal].
    + now rewrite take_app_length' by (symmetry; exact H20).
    + unfold last_n at 1. rewrite !length_app, H20, H10. cbn [length Nat.add Nat.sub].
      rewrite (app_assoc (take 20 ls)).
      apply drop_app_length'. rewrite length_app, H20. reflexivity.
Qed.

(** X7. HEAVY and MAXIMUM condensing of generic content (any level other
    than LIGHT and MODERATE) keep the first ten lines and append one marker
    line; content of at most ten lines comes back whole with the marker
    line added, one line longer than it was. *)
Theorem generic_heavy_appends_marker (text level : string) :
  String.eqb level LIGHT = false ->
  String.eqb level MODERATE = false ->
  split_nl (_condense_generic_content text level)
  = take 10 (split_nl text) ++ ["# ... heavily truncated ..."]
  /\ (length (split_nl text) <= 10 ->
      _condense_generic_content text level
      = text +:+ nl_string +:+ "# ... heavily truncated ...").
Proof.
  intros HL HM. unfold _condense_generic_content. rewrite HL, HM.
  split.
  - apply split_join_nl; [destruct (take 10 (split_nl text)); discriminate|].
    apply Forall_app. split; [apply Forall_take, split_nl_no_nl | repeat constructor].
  - intros Hlen. rewrite take_ge by exact Hlen.
    rewrite join_nl_app by (try apply split_nl_nonempty; discriminate).
    now rewrite join_split_nl.
Qed.

(** ** Light condensing of Python *)

Lemma adjacent_blank_snoc (acc : list string) (x : string) :
  adjacent_blank (acc ++ [x])
  = adjacent_blank acc
    || ((0 <? length acc) && is_blank (List.last acc EmptyString) && is_blank x).
Proof.
  induction acc as [|a acc IH]; [reflexivity|].
  destruct acc as [|b acc].
  - cbn. now rewrite !orb_false_r.
  - change ((a :: b :: acc) ++ [x]) with (a :: ((b :: acc) ++ [x])).
    change (adjacent_blank (a :: (b :: acc) ++ [x]))
      with (is_blank a && is_blank b || adjacent_blank ((b :: acc) ++ [x])).
    rewrite IH.
    change (adjacent_blank (a :: b :: acc))
      with (is_blank a && is_blank b || adjacent_blank (b :: acc)).
    change (List.last (a :: b :: acc) EmptyString)
      with (List.last (b :: acc) EmptyString).
    cbn [length Nat.ltb Nat.leb]. now rewrite orb_assoc.
Qed.

Lemma sublist_snoc_skip {A} (l k : list A) (x : A) :
  l `sublist_of` k -> l `sublist_of` k ++ [x].
Proof. intros H. now apply sublist_inserts_r. Qed.

Lemma sublist_snoc_keep {A} (l k : list A) (x : A) :
  l `sublist_of` k -> l ++ [x] `sublist_of` k ++ [x].
Proof. intros H. apply sublist_app; [exact H | reflexivity]. Qed.

(** The test of the loop on the ten digits. *)
Lemma numbered_comment_test (line : string) :
  existsb (fun i => startswith (strip line) ("#" +:+ pretty i)) (seq 0 10)
  = is_numbered_comment line.
Proof. reflexivity. Qed.

Lemma blank_is_no_comment (line : string) :
  truthy_str (strip line) = false ->
  is_code_line line = false /\ is_numbered_comment line = false.
Proof.
  unfold is_code_line, is_numbered_comment, is_comment_line.
  destruct (strip line); [intros _; split; reflexivity | discriminate].
Qed.

(** X8. Light condensing of Python only drops lines: its output is the
    join of a selection of the source lines, in their order. The selection
    holds every line of code (a line that is neither blank nor a comment
    line) and every comment line whose hash is directly followed by a
    digit; it holds no other comment line, and no blank line right after a
    blank line. *)
Theorem light_python_only_drops_lines (text : string) (tree : list stmt) :
  exists kept,
    _light_condense_python text tree = join_nl kept
    /\ kept `sublist_of` split_nl text
    /\ List.filter is_code_line kept = List.filter is_code_line (split_nl text)
    /\ List.filter is_numbered_comment kept
       = List.filter is_numbered_comment (split_nl text)
    /\ Forall (fun line => is_comment_line line = true ->
                           is_numbered_comment line = true) kept
    /\ adjacent_blank kept = false.
Proof.
  unfold _light_condense_python.
  exists (fold_left light_python_step (split_nl text) []).
  split; [reflexivity|].
  apply (fold_left_prefix_invariant
           (fun acc done =>
              acc `sublist_of` done
              /\ List.filter is_code_line acc = List.filter is_code_line done
              /\ List.filter is_numbered_comment acc
                 = List.filter is_numbered_comment done
              /\ Forall (fun line => is_comment_line line = true ->
                                     is_numbered_comment line = true) acc
              /\ adjacent_blank acc = false)).
  - repeat split; constructor.
  - intros acc done line (Hsub & Hcode & Hnum & Hcom & Hadj). unfold light_python_step.
    cbv zeta. rewrite numbered_comment_test. fold (is_comment_line line).
    rewrite !List.filter_app, <- Hcode, <- Hnum. cbn [List.filter].
    destruct (is_comment_line line && negb (is_numbered_comment line)) eqn:Hc.
    { apply andb_true_iff in Hc as [Hc1 Hc2]. apply negb_true_iff in Hc2.
      unfold is_code_line. rewrite Hc1, Hc2, andb_false_r, !app_nil_r.
      repeat split; [now apply sublist_snoc_skip | exact Hcom | exact Hadj]. }
    fold (is_blank line). fold (is_blank (List.last acc EmptyString)).
    destruct (is_blank line && (0 <? length acc)
              && is_blank (List.last acc EmptyString)) eqn:Hb.
    { assert (Hblank : truthy_str (strip line) = false).
      { unfold is_blank in Hb. destruct (truthy_str (strip line)); [discriminate | reflexivity]. }
      destruct (blank_is_no_comment line Hblank) as [-> ->]. rewrite !app_nil_r.
      repeat split; [now apply sublist_snoc_skip | exact Hcom | exact Hadj]. }
    rewrite !List.filter_app. cbn [List.filter].
    repeat split.
    + now apply sublist_snoc_keep.
    + apply Forall_app. split; [exact Hcom|]. repeat constructor.
      intros Hl. rewrite Hl in Hc. now destruct (is_numbered_comment line).
    + rewrite adjacent_blank_snoc, Hadj. cbn [orb].
      destruct (is_blank line), (0 <? length acc),
        (is_blank (List.last acc EmptyString)); cbn in *; congruence.
Qed.

(** ** The condenser's counters *)

Lemma histogram_total_bump (m : gmap string Z) (k : string) :
  histogram_total (<[k := (default 0 (m !! k) + 1)%Z]> m) = (histogram_total m + 1)%Z.
Proof.
  unfold histogram_total.
  destruct (m !! k) as [v|] eqn:Hk; cbn [default].
  - rewrite <- insert_delete_eq.
    rewrite map_fold_insert_L; [|intros; lia | apply lookup_delete_eq].
    rewrite (map_fold_delete_L _ _ k v m); [cbv beta delta [id]; lia | intros; lia | exact Hk].
  - rewrite map_fold_insert_L; [cbv beta delta [id]; lia | intros; lia | exact Hk].
Qed.

Lemma condense_call_counters (stats : condenser_stats) (c : call_args) :
  let stats' := (condense_call stats c).2 in
  let n := if call_processed c then 1%Z else 0%Z in
  files_processed stats' = (files_processed stats + n)%Z
  /\ histogram_total (condensing_levels_used stats')
     = (histogram_total (condensing_levels_used stats) + n)%Z.
Proof.
  destruct c as [[[[text fp] available] p] eo].
  unfold condense_call, call_processed, condense_with_budget.
  destruct (truthy_str (strip text)); cbn [negb andb]; [|cbn; lia].
  cbv zeta.
  destruct (_determine_condensing_level _ available p) as [level|e]; [|cbn; lia].
  destruct (_apply_condensing text fp level p) as [out|e];
    cbn [fst snd files_processed condensing_levels_used]; [|lia].
  split; [reflexivity | apply histogram_total_bump].
Qed.

(** X9. After any sequence of [condense_with_budget] calls on a fresh
    instance, files_processed is the number of calls that were made on
    content that is not whitespace-only and that returned (a call that
    raises, from the level selection or from a parser the strategy calls,
    is not counted), and the counts of the level histogram add up to
    files_processed. *)
Theorem condenser_counters_agree (calls : list call_args) :
  files_processed (run_calls condenser_init calls)
  = Z.of_nat (length (List.filter call_processed calls))
  /\ histogram_total (condensing_levels_used (run_calls condenser_init calls))
     = files_processed (run_calls condenser_init calls).
Proof.
  enough (H : forall stats,
             files_processed (run_calls stats calls)
             = (files_processed stats
                + Z.of_nat (length (List.filter call_processed calls)))%Z
             /\ histogram_total (condensing_levels_used (run_calls stats calls))
                = (histogram_total (condensing_levels_used stats)
                   + Z.of_nat (length (List.filter call_processed calls)))%Z).
  { destruct (H condenser_init) as [Hf Hh]. rewrite Hf, Hh.
    split; [reflexivity|]. reflexivity. }
  induction calls as [|c calls IH]; intros stats; cbn [run_calls fold_left List.filter].
  - cbn. lia.
  - destruct (condense_call_counters stats c) as [Hf Hh]. cbn zeta in Hf, Hh.
    destruct (IH (condense_call stats c).2) as [IHf IHh].
    unfold run_calls in IHf, IHh. rewrite IHf, IHh, Hf, Hh.
    destruct (call_processed c); cbn [length]; lia.
Qed.

(** ** The generic chunker *)

(** X10. The chunks of [_chunk_generic_content] cut the file into line
    ranges that lie end to end: the first starts at line 0, each next one
    starts on the line after the end of the one before, the last ends on the
    last line; and each chunk's content is exactly the lines
    [start_line..end_line] of the file, joined by newlines. *)
Theorem generic_chunk_ranges_tile_the_file (text : string) (max_tokens : Z) :
  let lines := split_nl text in
  let chunks := _chunk_generic_content text max_tokens in
  ranges_tile chunks 0 (length lines)
  /\ Forall (holds_its_range lines) chunks.
Proof.
  intros lines chunks.
  destruct (chunk_generic_content_ranges text max_tokens) as (Htile & Hrng & _).
  split; assumption.
Qed.

(** X11. Whatever the budget, [_chunk_generic_content] returns at least one
    chunk, and the contents of its chunks, joined by newlines in order, are
    the text it was given: nothing is lost, repeated or reordered. *)
Theorem generic_chunks_join_to_text (text : string) (max_tokens : Z) :
  _chunk_generic_content text max_tokens <> []
  /\ join_nl (map content (_chunk_generic_content text max_tokens)) = text.
Proof.
  destruct (chunk_generic_content_ranges text max_tokens) as (Htile & Hrng & _).
  split.
  - intros Hnil. rewrite Hnil in Htile. cbn in Htile.
    pose proof (split_nl_nonempty text) as Hne.
    destruct (split_nl text); [congruence | discriminate].
  - destruct (chunk_generic_content_carries text max_tokens) as (gs & Hcar & Hcat & Hall).
    destruct (carried_exact _ _ _ _ Hcar) as [Hne Heq].
    rewrite (Heq Hall), (join_nl_groups gs Hne), Hcat. apply join_split_nl.
Qed.

(** X12. Every chunk of [_chunk_generic_content] covers a single line, or
    lines whose token estimates add up to at most [max_tokens]: only a line
    that is too large on its own makes a chunk exceed the budget of the
    loop. *)
Theorem generic_chunks_fit_budget_or_hold_one_line (text : string) (max_tokens : Z) :
  Forall (within_budget (split_nl text) max_tokens)
    (_chunk_generic_content text max_tokens).
Proof.
  destruct (chunk_generic_content_ranges text max_tokens) as (_ & _ & Hbud).
  exact Hbud.
Qed.

(** X13. With a negative budget and an estimator that is never negative,
    [_chunk_generic_content] still returns, with one chunk per line of the
    text. *)
Theorem negative_budget_gives_one_line_per_chunk (text : string) (max_tokens : Z) :
  (forall s, (0 <= estimate_tokens_from_text s)%Z) ->
  (max_tokens < 0)%Z ->
  map content (_chunk_generic_content text max_tokens) = split_nl text.
Proof.
  intros Hest Hneg.
  destruct (chunk_generic_content_ranges text max_tokens) as (Htile & Hrng & Hbud).
  rewrite (one_line_ranges (split_nl text) _ 0 (length (split_nl text)) Htile
             (Nat.le_refl _) Hrng).
  - apply slice_all.
  - eapply Forall_impl; [exact Hbud|].
    intros c (s & e & Hs & He & [Hone|Hfit]) s' e' Hs' He'.
    + congruence.
    + pose proof (sum_estimates_nonneg (slice (split_nl text) s (S e)) Hest). lia.
Qed.


(** ** The parts of an oversized span *)

(** X14. The parts [_split_large_boundary] makes of a span: there is at
    least one; the [k]-th of them (from 0) has the chunk id
    [start_chunk_id + k], the span's start line as [start_line], no
    [end_line], the label ["<type> <name> (part k+1)"], and a content
    that starts with the span's first line. *)
Theorem oversized_span_parts_start_with_signature
    (boundary_lines : list string) (max_tokens : Z) (start_chunk_id : nat)
    (btype name : string) (start : nat) :
  let subs :=
    _split_large_boundary boundary_lines max_tokens start_chunk_id btype name start in
  subs <> []
  /\ forall k c, subs !! k = Some c ->
       chunk_id c = start_chunk_id + k
       /\ start_line c = Some start
       /\ end_line c = None
       /\ context_info c
          = Some (btype +:+ " " +:+ name +:+ " (part " +:+ pretty (k + 1) +:+ ")")
       /\ exists rest,
            content c = join_nl (List.hd EmptyString boundary_lines :: rest).
Proof.
  intros subs.
  destruct (split_large_boundary_ids boundary_lines max_tokens start_chunk_id
              btype name start) as [Hids Hne].
  pose proof (split_large_boundary_shape boundary_lines max_tokens start_chunk_id
                btype name start) as Hshape.
  fold subs in Hids, Hne, Hshape. split; [exact Hne|].
  intros k c Hk.
  assert (Hid : chunk_id c = start_chunk_id + k).
  { assert (H : map chunk_id subs !! k = Some (chunk_id c))
      by (rewrite list_lookup_fmap, Hk; reflexivity).
    rewrite Hids in H. apply lookup_seq in H. exact (proj1 H). }
  rewrite Forall_lookup in Hshape.
  destruct (Hshape k c Hk) as (Hs & He & Hlabel & Hcont).
  repeat split; try assumption.
  rewrite Hlabel, Hid.
  replace (start_chunk_id + k - start_chunk_id + 1) with (k + 1) by lia. reflexivity.
Qed.


(** ** Line ranges of the packer's chunks *)

Lemma holds_range_set_total (lines : list string) (n : nat) (chunks : list Chunk) :
  Forall (holds_range_if_any lines) chunks ->
  Forall (holds_range_if_any lines) (map (set_total_chunks n) chunks).
Proof.
  intros H. apply Forall_map. eapply Forall_impl; [exact H|].
  intros c Hc e He. exact (Hc e He).
Qed.

Section PackerRanges.
Variable lines : list string.
Variable boundaries : list Boundary.
Variable max_tokens : Z.
Variable priority : PriorityLevel.
Hypothesis boundaries_wf : spans_well_formed boundaries.

Lemma flushed_chunk_ranged (st : pack_state) :
  pk_current_chunk_lines st <> [] ->
  pk_current_chunk_lines st = slice lines (pk_last_line_processed st) (pk_i st) ->
  holds_range_if_any lines (flushed_chunk priority st).
Proof.
  intros Hne Hcur e He. unfold flushed_chunk, _create_chunk in *.
  cbn [end_line start_line content] in *. injection He as <-.
  assert (Hlen : 1 <= length (pk_current_chunk_lines st))
    by (destruct (pk_current_chunk_lines st); [congruence | cbn; lia]).
  exists (pk_last_line_processed st). repeat split; [lia|].
  f_equal. unfold slice in *.
  replace (S (pk_last_line_processed st + length (pk_current_chunk_lines st) - 1)
           - pk_last_line_processed st)
    with (length (pk_current_chunk_lines st)) by lia.
  symmetry. eapply take_length_take. exact Hcur.
Qed.

Lemma empty_slice_at (a b : nat) :
  a <= b -> b < length lines -> slice lines a b = [] -> a = b.
Proof.
  intros Hab Hb Hnil. unfold slice in Hnil.
  assert (Hl : length (take (b - a) (drop a lines)) = 0) by now rewrite Hnil.
  rewrite length_take, length_drop in Hl. lia.
Qed.

Lemma pack_step_ranged (st : pack_state) :
  pk_i st < length lines ->
  pack_ranged lines st ->
  pack_ranged lines (pack_step lines boundaries max_tokens priority st).
Proof.
  intros Hi (Hle & Hcur & Hrng). unfold pack_step, pack_ranged.
  pose proof (flushed_chunk_ranged st) as Hflush.
  destruct (lookup_lt_is_Some_2 lines (pk_i st) Hi) as [x Hx].
  assert (Hempty : pk_current_chunk_lines st = [] -> pk_last_line_processed st = pk_i st).
  { intros Hnil. rewrite Hnil in Hcur. symmetry in Hcur.
    now apply empty_slice_at in Hcur. }
  destruct (find_boundary boundaries (pk_i st)) as [[[[start end_] btype] name]|] eqn:Hb.
  - apply find_boundary_Some in Hb as [Hin Hstart].
    unfold spans_well_formed in boundaries_wf.
    rewrite List.Forall_forall in boundaries_wf.
    specialize (boundaries_wf _ Hin). unfold b_start, b_end in *.
    cbn in Hstart, boundaries_wf. subst start.
    destruct (_ <=? max_tokens)%Z.
    { cbn [pk_chunks pk_current_chunk_lines pk_last_line_processed pk_i].
      repeat split; [lia | | exact Hrng].
      rewrite Hcur at 1. apply slice_app; lia. }
    destruct (_ >? max_tokens)%Z.
    + assert (Hsubs : forall id,
                 Forall (holds_range_if_any lines)
                   (_split_large_boundary (slice lines (pk_i st) (end_ + 1)) max_tokens
                      id btype name (pk_i st))).
      { intros id. eapply Forall_impl; [apply split_large_boundary_shape|].
        intros c (_ & Hnone & _) e He. congruence. }
      destruct (pk_current_chunk_lines st) as [|l0 cur] eqn:Hc;
        cbn [pk_chunks pk_current_chunk_lines pk_last_line_processed pk_i pk_chunk_id].
      * repeat split; [lia | | apply Forall_app; auto].
        unfold slice. now rewrite Nat.sub_diag.
      * repeat split; [lia | |].
        -- unfold slice. now rewrite Nat.sub_diag.
        -- apply Forall_app. split; [|apply Hsubs].
           apply Forall_app. split; [exact Hrng|]. constructor; [|constructor].
           apply Hflush; [discriminate | exact Hcur].
    + destruct (pk_current_chunk_lines st) as [|l0 cur] eqn:Hc;
        cbn [pk_chunks pk_current_chunk_lines pk_last_line_processed pk_i].
      * rewrite (Hempty eq_refl). repeat split; [lia | exact Hrng].
      * repeat split; [lia|].
        apply Forall_app. split; [exact Hrng|]. constructor; [|constructor].
        apply Hflush; [discriminate | exact Hcur].
  - rewrite (nth_lookup_Some lines (pk_i st) EmptyString x Hx).
    replace (pk_i st + 1) with (S (pk_i st)) by lia.
    destruct (_ <=? max_tokens)%Z.
    { cbn [pk_chunks pk_current_chunk_lines pk_last_line_processed pk_i].
      repeat split; [lia | | exact Hrng].
      rewrite Hcur at 1. apply slice_snoc; [lia | exact Hx]. }
    destruct (pk_current_chunk_lines st) as [|l0 cur] eqn:Hc;
      cbn [pk_chunks pk_current_chunk_lines pk_last_line_processed pk_i].
    + rewrite (Hempty eq_refl). repeat split; [lia | | exact Hrng].
      symmetry. now apply slice_one.
    + repeat split; [lia | |].
      * symmetry. now apply slice_one.
      * apply Forall_app. split; [exact Hrng|]. constructor; [|constructor].
        apply Hflush; [discriminate | exact Hcur].
Qed.

Lemma pack_finish_ranged (st : pack_state) :
  pack_ranged lines st ->
  Forall (holds_range_if_any lines) (pack_finish priority st).
Proof.
  intros (Hle & Hcur & Hrng). unfold pack_finish.
  apply holds_range_set_total.
  destruct (pk_current_chunk_lines st) as [|l0 cur] eqn:Hc; [exact Hrng|].
  apply Forall_app. split; [exact Hrng|]. constructor; [|constructor].
  apply flushed_chunk_ranged; [rewrite Hc; discriminate | now rewrite Hc].
Qed.

End PackerRanges.

Lemma create_chunks_with_boundaries_ranged
    (strategy : ChunkingStrategy) (stats : chunker_stats) (content : string)
    (lines : list string) (boundaries : list Boundary) (max_tokens : Z)
    (priority : PriorityLevel) :
  overlap_functions strategy = false ->
  spans_well_formed boundaries ->
  exists chunks,
    _create_chunks_with_boundaries strategy stats content lines boundaries
      max_tokens priority = Some (chunks, stats)
    /\ Forall (holds_range_if_any lines) chunks.
Proof.
  intros Hov Hwf.
  destruct (create_chunks_with_boundaries_returns strategy stats content lines
              boundaries max_tokens priority Hwf) as (final & Hloop & Hend & Hret).
  rewrite Hov in Hret.
  pose proof (pack_loop_invariant lines boundaries max_tokens priority
                (pack_ranged lines)
                (fun st Hst Hi =>
                   pack_step_ranged lines boundaries max_tokens priority Hwf st Hi Hst)
                _ pack_init final
                ltac:(repeat split; [cbn; lia | constructor])
                Hloop) as [Hinv _].
  eexists. split; [exact Hret|]. now apply pack_finish_ranged.
Qed.

Lemma returned_inv (r : option (list Chunk * chunker_stats)) (chunks : list Chunk)
    (stats : chunker_stats) :
  returned r = Some (Returned chunks, stats) -> r = Some (chunks, stats).
Proof. destruct r as [[cs s]|]; cbn; [now intros [= <- <-] | discriminate]. Qed.

(** What holds of the chunks the packer makes, whatever the well-formed
    spans, and of the chunks of the generic chunker, holds of what the
    language dispatch of [chunk_with_context] hands back. *)
Lemma chunk_dispatch_cases
    (P : list Chunk -> chunker_stats -> Prop)
    (strategy : ChunkingStrategy) (stats : chunker_stats) (source : string)
    (fp : Path) (max_tokens : Z) (priority : PriorityLevel) :
  parser_answers fp source ->
  (forall tree, ast_parse source = Parsed tree ->
     spans_well_formed (_find_python_boundaries tree (split_nl source))) ->
  (forall bs, spans_well_formed bs ->
     exists chunks s,
       _create_chunks_with_boundaries strategy stats source (split_nl source) bs
         max_tokens priority = Some (chunks, s)
       /\ P chunks s) ->
  P (_chunk_generic_content source max_tokens) stats ->
  exists chunks s,
    (if String.eqb (lower (path_suffix fp)) ".py" then
       _chunk_python_content strategy stats source max_tokens priority
     else if str_in (lower (path_suffix fp)) [".js"; ".ts"; ".jsx"; ".tsx"] then
       returned (_chunk_javascript_content strategy stats source max_tokens priority)
     else if String.eqb (lower (path_suffix fp)) ".java" then
       returned (_chunk_java_content strategy stats source max_tokens priority)
     else Some (Returned (_chunk_generic_content source max_tokens), stats))
    = Some (Returned chunks, s)
    /\ P chunks s.
Proof.
  intros Hans Hwf Hpack Hgen. unfold parser_answers in Hans.
  destruct (String.eqb _ ".py").
  - unfold _chunk_python_content.
    destruct (ast_parse source) as [tree| |e] eqn:Hp;
      [|eauto|now destruct (Hans eq_refl e)].
    destruct (Hpack _ (Hwf tree eq_refl)) as (chunks & s & -> & HP). cbn. eauto.
  - destruct (str_in _ _).
    + unfold _chunk_javascript_content.
      destruct (Hpack _ (js_boundaries_well_formed (split_nl source)))
        as (chunks & s & -> & HP). cbn. eauto.
    + destruct (String.eqb _ ".java"); [|eauto].
      unfold _chunk_java_content.
      destruct (Hpack _ (java_boundaries_well_formed (split_nl source)))
        as (chunks & s & -> & HP). cbn. eauto.
Qed.

(** X15. Let [ast.parse] raise nothing but SyntaxError on a [.py] file and
    report spans that end no earlier than they start. With the annotation
    passes off, [chunk_with_context] returns chunks, and every chunk with
    an [end_line] also has a [start_line], not behind the end line, and its
    content is exactly the source lines [start_line..end_line], joined by
    newlines. *)
Theorem chunk_line_ranges_name_their_lines
    (strategy : ChunkingStrategy) (stats : chunker_stats) (source : string)
    (fp : Path) (max_tokens : Z) (priority : PriorityLevel) (pf : bool) :
  no_enrichment strategy ->
  parser_answers fp source ->
  (forall tree, ast_parse source = Parsed tree ->
     spans_well_formed (_find_python_boundaries tree (split_nl source))) ->
  exists chunks stats',
    chunk_with_context strategy stats source fp max_tokens priority pf
    = Some (Returned chunks, stats')
    /\ Forall (holds_range_if_any (split_nl source)) chunks.
Proof.
  intros [Hhdr Hov] Hans Hwf.
  assert (Hgen : Forall (holds_range_if_any (split_nl source))
                   (_chunk_generic_content source max_tokens)).
  { destruct (chunk_generic_content_ranges source max_tokens) as (Htile & Hrng & _).
    eapply Forall_impl; [exact Hrng|].
    intros c (s & e & Hs & He & Hle & Hcont) e' He'.
    rewrite He in He'. injection He' as <-. exists s. auto. }
  destruct (chunk_dispatch_cases
              (fun chunks _ => Forall (holds_range_if_any (split_nl source)) chunks)
              strategy stats source fp max_tokens priority Hans Hwf)
    as (chunks & s & Hd & Hrng); [|exact Hgen|].
  { intros bs Hbs.
    destruct (create_chunks_with_boundaries_ranged strategy stats source
                (split_nl source) bs max_tokens priority Hov Hbs) as (chunks & Hc & Hr).
    eauto. }
  unfold chunk_with_context.
  destruct (negb _); [exists [], stats; split; [reflexivity | constructor]|].
  destruct (_ <=? max_tokens)%Z.
  { eexists _, stats. split; [reflexivity|].
    constructor; [|constructor]. intros e He. discriminate. }
  rewrite Hd. cbn [mbind option_bind]. rewrite Hhdr.
  eexists chunks, _. split; [reflexivity | exact Hrng].
Qed.

(** ** The estimate a chunk carries *)

Lemma fresh_or_many_app (cs ds : list Chunk) :
  fresh_or_many cs -> fresh_or_many ds -> fresh_or_many (cs ++ ds).
Proof.
  unfold fresh_or_many. rewrite length_app.
  intros [Hc|Hc] [Hd|Hd]; try (right; lia). left. now apply Forall_app.
Qed.

Lemma fresh_or_many_snoc (cs : list Chunk) (c : Chunk) :
  fresh_or_many cs -> fresh_estimate c -> fresh_or_many (cs ++ [c]).
Proof.
  intros Hcs Hc. apply fresh_or_many_app; [exact Hcs|]. left. now repeat constructor.
Qed.

Lemma fresh_or_many_set_total (n : nat) (cs : list Chunk) :
  fresh_or_many cs -> fresh_or_many (map (set_total_chunks n) cs).
Proof.
  unfold fresh_or_many. rewrite length_map. intros [H|H]; [left | now right].
  apply Forall_map. eapply Forall_impl; [exact H|]. intros c Hc. exact Hc.
Qed.

Lemma split_large_boundary_fresh
    (boundary_lines : list string) (max_tokens : Z) (start_chunk_id : nat)
    (btype name : string) (start : nat) :
  fresh_or_many
    (_split_large_boundary boundary_lines max_tokens start_chunk_id btype name start).
Proof.
  unfold _split_large_boundary.
  match goal with |- context [fold_left ?f ?l ?s0] => set (st := fold_left f l s0) end.
  assert (Hne : sp_current_lines st <> []).
  { subst st. apply fold_left_invariant; [discriminate|].
    intros s line Hs. unfold split_step.
    destruct (_ <=? max_tokens)%Z; cbn [sp_current_lines]; [|discriminate].
    destruct (sp_current_lines s); [congruence | discriminate]. }
  destruct (sp_current_lines st) as [|l0 cur] eqn:Hcur; [congruence|].
  destruct (sp_sub_chunks st) as [|c0 subs].
  - left. repeat constructor.
  - right. cbn. rewrite length_app. cbn. lia.
Qed.

Lemma pack_step_fresh (lines : list string) (boundaries : list Boundary)
    (max_tokens : Z) (priority : PriorityLevel) (st : pack_state) :
  fresh_or_many (pk_chunks st) ->
  fresh_or_many (pk_chunks (pack_step lines boundaries max_tokens priority st)).
Proof.
  intros Hst. unfold pack_step.
  assert (Hflush : fresh_or_many (pk_chunks st ++ [flushed_chunk priority st]))
    by (apply fresh_or_many_snoc; [exact Hst | reflexivity]).
  destruct (find_boundary boundaries (pk_i st)) as [[[[start end_] btype] name]|];
    repeat (match goal with |- context [if ?b then _ else _] => destruct b end);
    destruct (pk_current_chunk_lines st);
    cbn [pk_chunks pk_chunk_id];
    try assumption;
    apply fresh_or_many_app; try assumption; apply split_large_boundary_fresh.
Qed.

Lemma create_chunks_with_boundaries_fresh
    (strategy : ChunkingStrategy) (stats : chunker_stats) (content : string)
    (lines : list string) (boundaries : list Boundary) (max_tokens : Z)
    (priority : PriorityLevel) :
  spans_well_formed boundaries ->
  exists chunks stats',
    _create_chunks_with_boundaries strategy stats content lines boundaries
      max_tokens priority = Some (chunks, stats')
    /\ fresh_or_many chunks.
Proof.
  intros Hwf.
  destruct (create_chunks_with_boundaries_returns strategy stats content lines
              boundaries max_tokens priority Hwf) as (final & Hloop & Hend & Hret).
  pose proof (pack_loop_invariant lines boundaries max_tokens priority
                (fun st => fresh_or_many (pk_chunks st))
                (fun st Hst _ =>
                   pack_step_fresh lines boundaries max_tokens priority st Hst)
                _ pack_init final
                ltac:(left; constructor)
                Hloop) as [Hinv _].
  assert (Hfin : fresh_or_many (pack_finish priority final)).
  { unfold pack_finish. apply fresh_or_many_set_total.
    destruct (pk_current_chunk_lines final); [exact Hinv|].
    apply fresh_or_many_snoc; [exact Hinv | reflexivity]. }
  rewrite Hret. destruct (overlap_functions strategy).
  - unfold _add_function_overlaps. eexists _, _. split; [reflexivity|].
    left. apply Forall_map, Forall_true. intros c. reflexivity.
  - eauto.
Qed.

Lemma chunk_generic_content_fresh (text : string) (max_tokens : Z) :
  fresh_or_many (_chunk_generic_content text max_tokens).
Proof.
  unfold _chunk_generic_content. set (lines := split_nl text).
  match goal with |- context [fold_left ?f ?l ?s0] => set (st := fold_left f l s0) end.
  assert (Hne : length lines = 0 \/ g_current_lines st <> []).
  { subst st.
    apply (fold_left_enumerate_invariant
             (fun s k => k = 0 \/ g_current_lines s <> [])); [now left|].
    intros s k line _ _. right. unfold generic_step.
    destruct (_ <=? max_tokens)%Z; cbn [g_current_lines].
    - destruct (g_current_lines s); discriminate.
    - destruct (g_current_lines s); discriminate. }
  destruct Hne as [Hz|Hne].
  { pose proof (split_nl_nonempty text). fold lines in H.
    destruct lines; [congruence | discriminate]. }
  apply fresh_or_many_set_total.
  destruct (g_current_lines st) as [|l0 cur]; [congruence|].
  destruct (g_chunks st) as [|c0 cs].
  - left. repeat constructor.
  - right. cbn. rewrite length_app. cbn. lia.
Qed.

(** X16. Let [ast.parse] raise nothing but SyntaxError on a [.py] file and
    report spans that end no earlier than they start. When the strategy
    has [include_context_headers] on (the default), [chunk_with_context]
    returns chunks, and every chunk carries as [estimated_tokens] the
    estimate of its own final content. *)
Theorem estimates_are_of_final_content
    (strategy : ChunkingStrategy) (stats : chunker_stats) (source : string)
    (fp : Path) (max_tokens : Z) (priority : PriorityLevel) (pf : bool) :
  include_context_headers strategy = true ->
  parser_answers fp source ->
  (forall tree, ast_parse source = Parsed tree ->
     spans_well_formed (_find_python_boundaries tree (split_nl source))) ->
  exists chunks stats',
    chunk_with_context strategy stats source fp max_tokens priority pf
    = Some (Returned chunks, stats')
    /\ Forall fresh_estimate chunks.
Proof.
  intros Hhdr Hans Hwf.
  destruct (chunk_dispatch_cases (fun chunks _ => fresh_or_many chunks)
              strategy stats source fp max_tokens priority Hans Hwf)
    as (chunks & stats1 & Hd & Hfresh);
    [intros bs Hbs; now apply create_chunks_with_boundaries_fresh
    |apply chunk_generic_content_fresh|].
  unfold chunk_with_context.
  destruct (negb _); [exists [], stats; split; [reflexivity | constructor]|].
  destruct (_ <=? max_tokens)%Z.
  { eexists _, stats. split; [reflexivity|]. repeat constructor. }
  rewrite Hd. cbn [mbind option_bind]. rewrite Hhdr.
  unfold add_continuation_context.
  destruct (Nat.leb_spec (length chunks) 1) as [Hone|Hmany].
  - eexists chunks, _. split; [reflexivity|].
    destruct Hfresh as [H|H]; [exact H | lia].
  - eexists _, _. split; [reflexivity|].
    apply Forall_map, Forall_true. intros [i c]. reflexivity.
Qed.

(** ** Spans of JavaScript and Java files *)

Lemma block_end_from_lt (rest : list string) (i : nat) (bc : Z) (ib : bool) (e : nat) :
  block_end_from rest i bc ib = Some e -> e < i + length rest.
Proof.
  revert i bc ib. induction rest as [|line rest IH]; intros i bc ib; cbn; [discriminate|].
  destruct (scan_braces line bc ib) as [[bc' ib']|].
  - intros H. apply IH in H. lia.
  - intros [= <-]. lia.
Qed.

Lemma find_js_block_end_lt (lines : list string) (start : nat) :
  start < length lines -> _find_js_block_end lines start < length lines.
Proof.
  intros Hlt. unfold _find_js_block_end.
  destruct (block_end_from _ _ _ _) as [e|] eqn:He; cbn.
  - apply block_end_from_lt in He. rewrite length_drop in He. lia.
  - lia.
Qed.

(** X17. Every span that [_chunk_javascript_content] and
    [_chunk_java_content] collect lies within the file: it starts on a line
    of the file and ends on the same or a later line of the file. *)
Theorem brace_spans_lie_within_the_file (lines : list string) :
  Forall (fun b => b_start b <= b_end b < length lines) (js_boundaries lines)
  /\ Forall (fun b => b_start b <= b_end b < length lines) (java_boundaries lines).
Proof.
  split; apply List.Forall_forall; intros b Hb; apply list_elem_of_In in Hb.
  - unfold js_boundaries in Hb. apply list_elem_of_omap in Hb as ([i line] & Hin & Hf).
    apply list_elem_of_In, enumerate_In in Hin.
    destruct (js_function_pattern line); [|discriminate].
    injection Hf as <-. cbn.
    split; [apply find_js_block_end_ge | apply find_js_block_end_lt]; lia.
  - unfold java_boundaries in Hb. apply list_elem_of_omap in Hb as ([i line] & Hin & Hf).
    apply list_elem_of_In, enumerate_In in Hin.
    destruct (java_declaration_pattern (strip line)); [|discriminate].
    injection Hf as <-. cbn. unfold _find_java_block_end.
    split; [apply find_js_block_end_ge | apply find_js_block_end_lt]; lia.
Qed.

Lemma scan_braces_no_open (line : string) (bc : Z) :
  no_open_brace line = true ->
  exists bc', scan_braces line bc false = Some (bc', false).
Proof.
  revert bc. induction line as [|c line IH]; intros bc H; cbn; [eauto|].
  cbn in H. apply andb_true_iff in H as [Hc Hl]. apply negb_true_iff in Hc.
  rewrite Hc. destruct (Ascii.eqb c "}"); cbn; apply IH; exact Hl.
Qed.

Lemma block_end_from_no_open (rest : list string) (i : nat) (bc : Z) :
  Forall (fun l => no_open_brace l = true) rest ->
  block_end_from rest i bc false = None.
Proof.
  intros H. revert i bc. induction H as [|line rest Hl _ IH]; intros i bc; cbn;
    [reflexivity|].
  destruct (scan_braces_no_open line bc Hl) as [bc' ->]. apply IH.
Qed.

(** X18. When no line from [start] on holds an opening brace,
    [_find_js_block_end] (and with it [_find_java_block_end]) answers the
    last line of the file: a declaration without a braced body is given a
    span that runs to the end of the file. *)
Theorem braceless_span_runs_to_end_of_file (lines : list string) (start : nat) :
  Forall (fun l => no_open_brace l = true) (drop start lines) ->
  _find_js_block_end lines start = length lines - 1
  /\ _find_java_block_end lines start = length lines - 1.
Proof.
  intros H. unfold _find_java_block_end, _find_js_block_end.
  rewrite (block_end_from_no_open _ start 0%Z H). split; reflexivity.
Qed.

(** ** The chunker's counters *)

Lemma create_chunks_with_boundaries_stats
    (strategy : ChunkingStrategy) (stats : chunker_stats) (content : string)
    (lines : list string) (boundaries : list Boundary) (max_tokens : Z)
    (priority : PriorityLevel) (chunks : list Chunk) (stats1 : chunker_stats) :
  _create_chunks_with_boundaries strategy stats content lines boundaries
    max_tokens priority = Some (chunks, stats1) ->
  same_file_counters stats stats1.
Proof.
  unfold _create_chunks_with_boundaries, same_file_counters.
  destruct (pack_loop _ _ _ _ _ _) as [final|]; cbn [mbind option_bind]; [|discriminate].
  destruct (overlap_functions strategy); unfold _add_function_overlaps;
    intros [= <- <-]; cbn; repeat split; lia.
Qed.

Lemma chunk_with_context_stats
    (strategy : ChunkingStrategy) (stats : chunker_stats) (source : string)
    (fp : Path) (max_tokens : Z) (priority : PriorityLevel) (pf : bool)
    (chunks : list Chunk) (stats' : chunker_stats) :
  chunk_with_context strategy stats source fp max_tokens priority pf
  = Some (Returned chunks, stats') ->
  if truthy_str (strip source) && (max_tokens <? estimate_tokens_from_text source)%Z
  then files_chunked stats' = (files_chunked stats + 1)%Z
       /\ total_chunks_created stats'
          = (total_chunks_created stats + Z.of_nat (length chunks))%Z
       /\ (context_preservations stats' = context_preservations stats
           \/ (include_context_headers strategy = true /\ 2 <= length chunks
               /\ context_preservations stats'
                  = (context_preservations stats + Z.of_nat (length chunks))%Z))
  else stats' = stats.
Proof.
  unfold chunk_with_context. rewrite (Z.ltb_antisym _ max_tokens).
  destruct (truthy_str (strip source)); cbn [negb andb]; [|now intros [= <- <-]].
  destruct (_ <=? max_tokens)%Z; cbn [negb]; [now intros [= <- <-]|].
  match goal with
  | |- context [mbind _ ?d] => destruct d as [[[cs|e] stats1]|] eqn:Hd
  end; cbn [mbind option_bind]; [|discriminate..].
  assert (Hsame : same_file_counters stats stats1).
  { revert Hd. destruct (String.eqb _ ".py").
    - unfold _chunk_python_content. destruct (ast_parse source).
      + intros H. apply returned_inv in H. revert H.
        apply create_chunks_with_boundaries_stats.
      + intros [= <- <-]. repeat split; lia.
      + discriminate.
    - destruct (str_in _ _);
        [intros H; apply returned_inv in H; revert H;
         apply create_chunks_with_boundaries_stats|].
      destruct (String.eqb _ ".java");
        [intros H; apply returned_inv in H; revert H;
         apply create_chunks_with_boundaries_stats|].
      intros [= <- <-]. repeat split; lia. }
  destruct Hsame as (Hf & Ht & Hc & _).
  destruct (include_context_headers strategy); unfold add_continuation_context.
  - destruct (Nat.leb_spec (length cs) 1); intros [= <- <-]; cbn.
    + repeat split; [lia | lia | left; lia].
    + rewrite length_map. unfold enumerate. rewrite enumerate_length.
      repeat split; [lia | lia | right; repeat split; lia].
  - intros [= <- <-]; cbn. repeat split; [lia | lia | left; lia].
Qed.

(** X19. The counters of the chunker after [chunk_with_context], when
    every span [ast.parse] reports ends no earlier than it starts. Unless
    [ast.parse] raises something other than SyntaxError on a [.py] file,
    the call returns chunks, and: content that is whitespace-only or fits
    the budget leaves every counter as it was (also when one chunk is
    returned); content that is split counts as one file and as many chunks
    as are returned, and the count of context preservations grows, by the
    number of chunks, only when the headers are on and at least two chunks
    are returned. When [ast.parse] does raise such an exception on a [.py]
    file that would be split, the call raises it and every counter is as it
    was. *)
Theorem chunker_counts_only_files_it_splits
    (strategy : ChunkingStrategy) (stats : chunker_stats) (source : string)
    (fp : Path) (max_tokens : Z) (priority : PriorityLevel) (pf : bool) :
  (forall tree, ast_parse source = Parsed tree ->
     spans_well_formed (_find_python_boundaries tree (split_nl source))) ->
  (parser_answers fp source ->
   exists chunks stats',
     chunk_with_context strategy stats source fp max_tokens priority pf
     = Some (Returned chunks, stats')
     /\ if truthy_str (strip source)
           && (max_tokens <? estimate_tokens_from_text source)%Z
        then files_chunked stats' = (files_chunked stats + 1)%Z
             /\ total_chunks_created stats'
                = (total_chunks_created stats + Z.of_nat (length chunks))%Z
             /\ (context_preservations stats' = context_preservations stats
                 \/ (include_context_headers strategy = true /\ 2 <= length chunks
                     /\ context_preservations stats'
                        = (context_preservations stats + Z.of_nat (length chunks))%Z))
        else stats' = stats)
  /\ (forall e,
        truthy_str (strip source) = true ->
        (max_tokens < estimate_tokens_from_text source)%Z ->
        String.eqb (lower (path_suffix fp)) ".py" = true ->
        ast_parse source = ParseFails e ->
        chunk_with_context strategy stats source fp max_tokens priority pf
        = Some (Raised e, stats)).
Proof.
  intros Hwf. split.
  - intros Hans.
    destruct (chunk_with_context_returns strategy stats source fp max_tokens priority
                pf Hans Hwf) as (chunks & stats' & Hret).
    exists chunks, stats'. split; [exact Hret|].
    now apply chunk_with_context_stats in Hret.
  - intros e Hws Hbig Hpy Hp. unfold chunk_with_context. rewrite Hws. cbn [negb].
    destruct (Z.leb_spec (estimate_tokens_from_text source) max_tokens); [lia|].
    rewrite Hpy. unfold _chunk_python_content. rewrite Hp. reflexivity.
Qed.

(** ** Condensing one function *)

Lemma str_in_In (x : string) (l : list string) : str_in x l = true -> In x l.
Proof.
  unfold str_in. intros H. apply existsb_exists in H as (y & Hin & Heq).
  apply String.eqb_eq in Heq. now subst.
Qed.

Lemma split_nl_two (l m : string) :
  no_nl l = true -> no_nl m = true -> split_nl (l +:+ nl_string +:+ m) = [l; m].
Proof.
  intros Hl Hm. change (nl_string +:+ m) with (String nl m).
  rewrite (split_nl_append l m Hl), (split_nl_line m Hm). reflexivity.
Qed.

Lemma In_split_nl_no_nl (text l : string) : In l (split_nl text) -> no_nl l = true.
Proof.
  intros Hin. pose proof (split_nl_no_nl text) as H.
  rewrite List.Forall_forall in H. now apply H.
Qed.

Lemma condense_function_minimal_two_lines (function_content language : string) :
  exists l m,
    In l (split_nl function_content)
    /\ In m ["    # ... implementation ..."; "    // ... implementation ...";
             "    # ..."]
    /\ _condense_function_minimal function_content language = l +:+ nl_string +:+ m.
Proof.
  unfold _condense_function_minimal.
  assert (Hhd : In (List.hd EmptyString (split_nl function_content))
                  (split_nl function_content)).
  { pose proof (split_nl_nonempty function_content).
    destruct (split_nl function_content); [congruence | now left]. }
  destruct (String.eqb language "python").
  - destruct (List.find _ _) as [l|] eqn:Hf; cbn [option_map].
    + apply find_some in Hf as [Hin _]. exists l, "    # ... implementation ...".
      split; [exact Hin|]. split; [cbn [In]; auto | reflexivity].
    + exists (List.hd EmptyString (split_nl function_content)), "    # ...".
      split; [exact Hhd|]. split; [cbn [In]; auto | reflexivity].
  - destruct (List.find _ _) as [l|] eqn:Hf; cbn [option_map].
    + apply find_some in Hf as [Hin _]. exists l, "    // ... implementation ...".
      split; [exact Hin|]. split; [cbn [In]; auto | reflexivity].
    + exists (List.hd EmptyString (split_nl function_content)), "    # ...".
      split; [exact Hhd|]. split; [cbn [In]; auto | reflexivity].
Qed.

(** X20. A function of MEDIUM or LOW priority (any priority but CRITICAL
    and HIGH) that does not fit its budget is cut by
    [condense_function_selectively] to exactly two lines, in every
    language: one line of the function as it stands, and a placeholder
    comment. *)
Theorem low_priority_function_becomes_two_lines
    (function_content : string) (function_priority : PriorityLevel)
    (available_tokens : Z) (language : string) :
  (available_tokens < estimate_tokens_from_text function_content)%Z ->
  function_priority <> CRITICAL ->
  function_priority <> HIGH ->
  exists l m,
    In l (split_nl function_content)
    /\ In m ["    # ... implementation ..."; "    // ... implementation ...";
             "    # ..."]
    /\ split_nl (condense_function_selectively function_content function_priority
                   available_tokens language) = [l; m].
Proof.
  intros Hbig Hc Hh. unfold condense_function_selectively.
  destruct (Z.leb_spec (estimate_tokens_from_text function_content) available_tokens);
    [lia|].
  destruct (condense_function_minimal_two_lines function_content language)
    as (l & m & Hl & Hm & Heq).
  exists l, m. split; [exact Hl|]. split; [exact Hm|].
  assert (Hsplit : split_nl (_condense_function_minimal function_content language)
                   = [l; m]).
  { rewrite Heq. apply split_nl_two; [now apply In_split_nl_no_nl with function_content|].
    cbn [In] in Hm. destruct Hm as [<-|[<-|[<-|[]]]]; reflexivity. }
  destruct function_priority; try congruence; exact Hsplit.
Qed.

Lemma preserve_structure_loop_sublist
    (lines : list string) (in_docstring : bool) (docstring_quotes : string) :
  exists kept tail,
    preserve_structure_loop lines in_docstring docstring_quotes = kept ++ tail
    /\ kept `sublist_of` lines
    /\ (tail = [] \/ tail = ["    # ... implementation details ..."]).
Proof.
  revert in_docstring docstring_quotes.
  induction lines as [|line rest IH]; intros b q; cbn [preserve_structure_loop].
  - exists [], []. repeat split; [constructor | now left].
  - assert (Hkeep : forall b' q',
               exists kept tail,
                 line :: preserve_structure_loop rest b' q' = kept ++ tail
                 /\ kept `sublist_of` line :: rest
                 /\ (tail = [] \/ tail = ["    # ... implementation details ..."])).
    { intros b' q'. destruct (IH b' q') as (kept & tail & -> & Hsub & Htail).
      exists (line :: kept), tail. repeat split; [now constructor | exact Htail]. }
    cbv zeta.
    repeat (match goal with
            | |- context [if ?c then _ else _] => destruct c; [apply Hkeep|]
            end).
    destruct (truthy_str (strip line) && negb (startswith (strip line) "#")).
    + exists [], ["    # ... implementation details ..."].
      repeat split; [apply sublist_nil_l | now right].
    + match goal with
      | |- context [preserve_structure_loop rest ?b' ?q'] =>
          destruct (IH b' q') as (kept & tail & -> & Hsub & Htail)
      end.
      exists kept, tail. repeat split; [now constructor | exact Htail].
Qed.

(** X21. For a Python function of CRITICAL or HIGH priority,
    [condense_function_selectively] returns lines of the function, in
    their order and none of them changed, followed by at most one
    placeholder comment: it drops lines and never rewrites or reorders
    them. *)
Theorem important_python_function_keeps_its_lines
    (function_content : string) (function_priority : PriorityLevel)
    (available_tokens : Z) :
  function_priority = CRITICAL \/ function_priority = HIGH ->
  exists kept tail,
    condense_function_selectively function_content function_priority
      available_tokens "python" = join_nl (kept ++ tail)
    /\ kept `sublist_of` split_nl function_content
    /\ (tail = [] \/ tail = ["    # ... implementation details ..."]).
Proof.
  intros Hp. unfold condense_function_selectively.
  destruct (_ <=? available_tokens)%Z.
  - exists (split_nl function_content), []. rewrite app_nil_r, join_split_nl.
    repeat split; [reflexivity | now left].
  - destruct (preserve_structure_loop_sublist (split_nl function_content) false
                EmptyString) as (kept & tail & Heq & Hsub & Htail).
    exists kept, tail. split; [|split; assumption].
    destruct Hp as [-> | ->]; unfold _condense_function_preserve_structure;
      cbn [String.eqb Ascii.eqb]; rewrite <- Heq; reflexivity.
Qed.

(** X22. For a function of CRITICAL or HIGH priority in a language other
    than Python that does not fit its budget,
    [condense_function_selectively] returns the function unchanged when it
    has at most 10 lines (although it does not fit), and 8 lines otherwise:
    its first five, a placeholder, its last two. *)
Theorem important_function_in_other_language
    (function_content : string) (function_priority : PriorityLevel)
    (available_tokens : Z) (language : string) :
  (available_tokens < estimate_tokens_from_text function_content)%Z ->
  function_priority = CRITICAL \/ function_priority = HIGH ->
  String.eqb language "python" = false ->
  let lines := split_nl function_content in
  let out :=
    condense_function_selectively function_content function_priority
      available_tokens language in
  (length lines <= 10 -> out = function_content)
  /\ (10 < length lines ->
      split_nl out
      = take 5 lines ++ ["    // ... implementation ..."] ++ last_n lines 2
      /\ length (split_nl out) = 8).
Proof.
  intros Hbig Hp Hlang lines out. subst out. unfold condense_function_selectively.
  destruct (Z.leb_spec (estimate_tokens_from_text function_content) available_tokens);
    [lia|].
  assert (Heq : match function_priority with
                | CRITICAL | HIGH =>
                    _condense_function_preserve_structure function_content language
                | _ => _condense_function_minimal function_content language
                end = _condense_function_preserve_structure function_content language)
    by (destruct Hp as [-> | ->]; reflexivity).
  rewrite Heq. unfold _condense_function_preserve_structure. rewrite Hlang.
  fold lines. split; intros Hlen.
  - destruct (Nat.leb_spec (length lines) 10); [reflexivity | lia].
  - destruct (Nat.leb_spec (length lines) 10); [lia|].
    assert (Hno : Forall (fun l => no_nl l = true) lines) by apply split_nl_no_nl.
    rewrite split_join_nl.
    + split; [reflexivity|].
      rewrite !length_app, length_take. unfold last_n. rewrite length_drop.
      cbn [length]. lia.
    + destruct (take 5 lines); discriminate.
    + apply Forall_app. split; [now apply Forall_take|].
      apply Forall_app. split; [repeat constructor|]. unfold last_n.
      now apply Forall_drop.
Qed.

(** ** Signatures *)

Lemma signature_lines_spec (rest : list string) :
  rest <> [] ->
  exists before closing,
    signature_lines rest = before ++ [closing]
    /\ (before ++ [closing]) `prefix_of` rest
    /\ Forall (fun l => contains l ":" = false) before
    /\ (contains closing ":" = true \/ before ++ [closing] = rest).
Proof.
  induction rest as [|l rest IH]; [congruence|]. intros _. cbn [signature_lines].
  destruct (contains l ":") eqn:Hl.
  - exists [], l. repeat split; [now exists rest | constructor | now left].
  - destruct rest as [|l2 rest].
    + exists [], l. repeat split; [now exists [] | constructor | now right].
    + destruct (IH ltac:(discriminate)) as (before & closing & Heq & [k Hk] & Hno & Hlast).
      exists (l :: before), closing. rewrite Heq. repeat split.
      * exists k. cbn. now rewrite Hk.
      * now constructor.
      * destruct Hlast as [Hc|Hall]; [now left | right]. cbn. now rewrite Hall.
Qed.

(** X23. For a definition that starts on a line of the file,
    [_get_function_signature] returns consecutive lines of the file from
    the definition's line on: lines without a colon, then one closing line,
    which is the first line with a colon anywhere in it, or the last line
    of the file when no line from there on has one. *)
Theorem function_signature_stops_at_first_colon
    (name : string) (lineno : nat) (lines : list string) :
  1 <= lineno <= length lines ->
  exists before closing,
    _get_function_signature name lineno lines = join_nl (before ++ [closing])
    /\ (before ++ [closing]) `prefix_of` drop (lineno - 1) lines
    /\ Forall (fun l => contains l ":" = false) before
    /\ (contains closing ":" = true \/ before ++ [closing] = drop (lineno - 1) lines).
Proof.
  intros Hline. unfold _get_function_signature.
  destruct (Nat.ltb_spec (lineno - 1) (length lines)); [|lia].
  destruct (signature_lines_spec (drop (lineno - 1) lines)) as
    (before & closing & Heq & Hpre & Hno & Hlast).
  - intros Hnil. apply (f_equal length) in Hnil. rewrite length_drop in Hnil.
    cbn in Hnil. lia.
  - exists before, closing. rewrite Heq. auto.
Qed.

(** ** Condensing a configuration file *)

(** X24. A JSON or YAML file for which the LIGHT level is chosen is
    returned by [condense_with_budget] exactly as it came, with a record
    that reports level LIGHT and no tokens saved: the text that comes back
    is over the budget it was to be condensed to. *)
Theorem light_config_file_is_returned_unchanged
    (stats : condenser_stats) (text : string) (fp : Path) (available : Z)
    (p : PriorityLevel) :
  truthy_str (strip text) = true ->
  str_in (lower (path_suffix fp)) [".json"; ".yaml"; ".yml"] = true ->
  _determine_condensing_level (estimate_tokens_from_text text) available p
  = Returned LIGHT ->
  exists info stats',
    condense_with_budget stats text fp available p None
    = (Returned (text, info), stats')
    /\ info !! "level" = Some (VStr LIGHT)
    /\ info !! "tokens_saved" = Some (VInt 0)
    /\ info !! "final_tokens" = Some (VInt (estimate_tokens_from_text text))
    /\ (available < estimate_tokens_from_text text)%Z.
Proof.
  intros Hws Hcfg Hlevel.
  assert (Happly : _apply_condensing text fp LIGHT p = Returned text).
  { unfold _apply_condensing. cbv zeta.
    remember (lower (path_suffix fp)) as suffix eqn:Hs. clear Hs.
    apply str_in_In in Hcfg. cbn [In] in Hcfg.
    destruct Hcfg as [<-|[<-|[<-|[]]]]; reflexivity. }
  assert (Hover : (available < estimate_tokens_from_text text)%Z).
  { destruct (Z.lt_ge_cases available (estimate_tokens_from_text text)) as [?|Hge];
      [assumption|].
    rewrite determine_level_under_budget in Hlevel by lia. discriminate. }
  unfold condense_with_budget. rewrite Hws. cbn [negb]. rewrite Hlevel, Happly.
  eexists _, _. split; [reflexivity|].
  repeat split; simplify_map_eq; try reflexivity; try assumption.
  do 2 f_equal. lia.
Qed.


(** ** The recommended chunk size *)

Lemma int_of_product_raises (n : Z) (c : Q) (e : exn) :
  int_of_product n c = Raised e -> e = OverflowError.
Proof.
  unfold int_of_product, float_of_int. cbv zeta.
  repeat match goal with |- context [if ?b then _ else _] => destruct b end;
    intros [= <-]; reflexivity.
Qed.

Lemma floor_div_abs_le (a b : Z) : b <> 0%Z -> (Z.abs (a / b) <= Z.abs a)%Z.
Proof. intros Hb. Z.div_mod_to_equations. nia. Qed.

(** X25. [estimate_optimal_chunk_size]: content within the budget gets its
    own estimate back, whatever [target_chunks] is; content over the budget
    raises ZeroDivisionError exactly when [target_chunks] is 0; a size
    returned for content over the budget is, for a Python file, at most
    half the budget and, for a JavaScript or TypeScript file, at least 500
    tokens, also when the whole budget is smaller than that; and a size is
    returned for content over the budget whenever [target_chunks] is not 0
    and the budget is below 2^1000 in absolute value, which keeps the
    product with the float 1.2 or 0.8 within the range of a float. *)
Theorem optimal_chunk_size_outcome
    (text : string) (fp : Path) (total_token_budget target_chunks : Z) :
  let total := estimate_tokens_from_text text in
  let result := estimate_optimal_chunk_size text fp total_token_budget target_chunks in
  ((total <= total_token_budget)%Z -> result = Returned total)
  /\ (result = Raised ZeroDivisionError
      <-> (total_token_budget < total)%Z /\ target_chunks = 0%Z)
  /\ (forall size,
        (total_token_budget < total)%Z -> result = Returned size ->
        (String.eqb (lower (path_suffix fp)) ".py" = true ->
         (size <= total_token_budget / 2)%Z)
        /\ (str_in (lower (path_suffix fp)) [".js"; ".ts"; ".jsx"; ".tsx"] = true ->
            (500 <= size)%Z))
  /\ ((total_token_budget < total)%Z -> target_chunks <> 0%Z ->
      (Z.abs total_token_budget < 2 ^ 1000)%Z ->
      exists size, result = Returned size).
Proof.
  intros total result. subst result. unfold estimate_optimal_chunk_size. fold total.
  destruct (Z.leb_spec total total_token_budget) as [Hfit|Hbig].
  { repeat split; try lia; try discriminate. }
  destruct (Z.eqb_spec target_chunks 0) as [Hz|Hnz].
  { repeat split; try lia; try reflexivity; try discriminate. }
  cbv zeta. split; [lia|]. split; [|split].
  - split; [|lia]. intros H. exfalso.
    repeat (match type of H with
            | context [if ?c then _ else _] => destruct c
            | context [match int_of_product ?n ?c with _ => _ end] =>
                destruct (int_of_product n c) as [z|e] eqn:Hprod;
                [|apply int_of_product_raises in Hprod; subst e]
            end); discriminate.
  - intros size _.
    destruct (String.eqb (lower (path_suffix fp)) ".py") eqn:Hpy.
    + destruct (int_of_product _ _) as [z|e]; [|discriminate].
      intros [= <-]. split; [intros _; lia|].
      intros Hjs. apply str_in_In in Hjs. apply String.eqb_eq in Hpy.
      rewrite Hpy in Hjs. cbn [In] in Hjs.
      repeat (destruct Hjs as [Hjs|Hjs]; [discriminate|]). destruct Hjs.
    + destruct (str_in (lower (path_suffix fp)) [".js"; ".ts"; ".jsx"; ".tsx"]).
      * destruct (int_of_product _ _) as [z|e]; [|discriminate].
        intros [= <-]. split; [discriminate | intros _; lia].
      * intros _. split; discriminate.
  - intros _ _ Hb.
    pose proof (floor_div_abs_le total_token_budget target_chunks Hnz) as Hbase.
    assert (H12 : (0 <= float_lit 1.2 /\ float_lit 1.2 <= 2)%Q)
      by (split; vm_compute; discriminate).
    assert (H08 : (0 <= float_lit 0.8 /\ float_lit 0.8 <= 2)%Q)
      by (split; vm_compute; discriminate).
    destruct (int_of_product_returns (total_token_budget / target_chunks)
                (float_lit 1.2) ltac:(lia) (proj1 H12) (proj2 H12)) as [z1 ->].
    destruct (int_of_product_returns (total_token_budget / target_chunks)
                (float_lit 0.8) ltac:(lia) (proj1 H08) (proj2 H08)) as [z2 ->].
    repeat match goal with |- context [if ?b then _ else _] => destruct b end; eauto.
Qed.

(** ** Spans of Python files *)

Lemma insert_by_start_In (b x : Boundary) (l : list Boundary) :
  In x (insert_by_start b l) <-> x = b \/ In x l.
Proof.
  induction l as [|y l IH]; cbn [insert_by_start].
  - cbn. intuition congruence.
  - destruct (b_start b <=? b_start y); cbn [In]; [intuition congruence|].
    rewrite IH. intuition congruence.
Qed.

Lemma sorted_by_start_In (x : Boundary) (l : list Boundary) :
  In x (sorted_by_start l) <-> In x l.
Proof.
  unfold sorted_by_start. induction l as [|y l IH]; cbn [fold_right]; [reflexivity|].
  rewrite insert_by_start_In, IH. cbn. intuition congruence.
Qed.

Lemma insert_by_start_ascending (b : Boundary) (l : list Boundary) :
  ascending (map b_start l) -> ascending (map b_start (insert_by_start b l)).
Proof.
  induction l as [|y l IH]; cbn [insert_by_start map ascending].
  - intros _. split; [constructor | exact I].
  - intros [Hy Hl]. destruct (Nat.leb_spec (b_start b) (b_start y)) as [Hle|Hgt];
      cbn [map ascending].
    + split; [|split; assumption]. constructor; [exact Hle|].
      eapply Forall_impl; [exact Hy|]. cbn. intros z Hz. lia.
    + split; [|now apply IH].
      apply List.Forall_forall. intros z Hz. apply in_map_iff in Hz as (c & <- & Hc).
      apply insert_by_start_In in Hc as [->|Hc]; [lia|].
      rewrite List.Forall_forall in Hy. apply Hy. now apply in_map.
Qed.

Lemma sorted_by_start_ascending (l : list Boundary) :
  ascending (map b_start (sorted_by_start l)).
Proof.
  unfold sorted_by_start. induction l as [|y l IH]; cbn [fold_right]; [exact I|].
  now apply insert_by_start_ascending.
Qed.

(** X26. [_find_python_boundaries] returns its spans in ascending order of
    start line, and among them one for every top-level function (also
    [async]), one for every top-level class and one, named
    [Class.method], for every function directly in the body of a
    top-level class, with the 0-based lines [lineno - 1] and
    [end_lineno - 1]. *)
Theorem python_boundaries_sorted_and_complete (tree : list stmt) (lines : list string) :
  let spans := _find_python_boundaries tree lines in
  ascending (map b_start spans)
  /\ (forall name l e,
        In (FunctionDef name l (Some e)) tree \/ In (AsyncFunctionDef name l (Some e)) tree ->
        In (l - 1, e - 1, "function", name) spans)
  /\ (forall cname l e body,
        In (ClassDef cname l (Some e) body) tree ->
        In (l - 1, e - 1, "class", cname) spans
        /\ forall name lm em,
             In (FunctionDef name lm (Some em)) body
             \/ In (AsyncFunctionDef name lm (Some em)) body ->
             In (lm - 1, em - 1, "method", cname +:+ "." +:+ name) spans).
Proof.
  intros spans. subst spans. unfold _find_python_boundaries.
  split; [apply sorted_by_start_ascending|]. split.
  - intros name l e [Hin|Hin]; apply sorted_by_start_In, in_flat_map;
      eexists; (split; [exact Hin|]); now left.
  - intros cname l e body Hin. split.
    + apply sorted_by_start_In, in_flat_map. eexists. split; [exact Hin|]. now left.
    + intros name lm em Hm. apply sorted_by_start_In, in_flat_map.
      eexists. split; [exact Hin|]. right. unfold method_boundaries.
      apply list_elem_of_In, list_elem_of_omap.
      destruct Hm as [Hm|Hm]; eexists; (split; [apply list_elem_of_In; exact Hm|]);
        reflexivity.
Qed.

(** X27. For a syntax tree whose functions, classes and methods all carry
    an [end_lineno] with [1 <= lineno <= end_lineno] (what [ast.parse]
    gives), every span of [_find_python_boundaries] is well formed: its
    start is not behind its end. *)
Theorem ranged_tree_gives_well_formed_spans (tree : list stmt) (lines : list string) :
  Forall has_line_range tree ->
  spans_well_formed (_find_python_boundaries tree lines).
Proof.
  intros Htree. unfold spans_well_formed, _find_python_boundaries.
  apply List.Forall_forall. intros b Hb.
  apply sorted_by_start_In, in_flat_map in Hb as (node & Hnode & Hb).
  rewrite List.Forall_forall in Htree. specialize (Htree node Hnode).
  destruct node as [name l [e|]|name l [e|]|name l [e|] body|]; cbn in Htree;
    try contradiction; cbn [In] in Hb.
  - destruct Hb as [<-|[]]. unfold b_start, b_end. cbn. lia.
  - destruct Hb as [<-|[]]. unfold b_start, b_end. cbn. lia.
  - destruct Htree as [Hl Hbody]. destruct Hb as [<-|Hb].
    + unfold b_start, b_end. cbn. lia.
    + unfold method_boundaries in Hb.
      apply list_elem_of_In, list_elem_of_omap in Hb as (item & Hitem & Hf).
      apply list_elem_of_In in Hitem.
      rewrite List.Forall_forall in Hbody. specialize (Hbody item Hitem).
      destruct item as [m lm [em|]|m lm [em|]|? ? ? ?|]; cbn in Hbody;
        try contradiction; try discriminate;
        injection Hf as <-; unfold b_start, b_end; cbn; lia.
Qed.


(** ** The two annotation passes *)

Lemma enumerate_lookup {A} (l : list A) (k : nat) (x : A) :
  l !! k = Some x -> enumerate l !! k = Some (k, x).
Proof.
  intros Hx. unfold enumerate, zip. apply lookup_zip_with_Some.
  exists k, x. split; [reflexivity|]. split; [|exact Hx].
  apply lookup_seq. split; [reflexivity|]. eapply lookup_lt_Some; eauto.
Qed.

Lemma prefix_app (p l x : string) :
  String.prefix p l = true -> String.prefix p (l +:+ x) = true.
Proof.
  revert l. induction p as [|a p IH]; intros l H.
  - destruct (l +:+ x); reflexivity.
  - destruct l as [|b l]; [discriminate|].
    change (String b l +:+ x) with (String b (l +:+ x)).
    cbn [String.prefix] in *. destruct (ascii_dec a b); [now apply IH | discriminate].
Qed.

(** X28. Given two chunks or more, [add_continuation_context] returns as
    many chunks, and the [k]-th of them (from 0) keeps the line range of
    the [k]-th chunk it was given, has the label ["Part k+1 of n"] in place
    of whatever label the chunk had, and a content that starts with a
    ["# "] header line. *)
Theorem continuation_pass_relabels_every_chunk
    (stats : chunker_stats) (chunks : list Chunk) (file_path : Path) :
  2 <= length chunks ->
  let out := (add_continuation_context stats chunks file_path).1 in
  length out = length chunks
  /\ forall k o, chunks !! k = Some o ->
       exists c,
         out !! k = Some c
         /\ context_info c
            = Some ("Part " +:+ pretty (k + 1) +:+ " of " +:+ pretty (length chunks))
         /\ startswith (content c) "# " = true
         /\ chunk_id c = chunk_id o
         /\ start_line c = start_line o
         /\ end_line c = end_line o.
Proof.
  intros Hlen out. subst out. unfold add_continuation_context.
  destruct (Nat.leb_spec (length chunks) 1); [lia|]. cbn [fst].
  split.
  - rewrite length_map. unfold enumerate. apply enumerate_length.
  - intros k o Hk. eexists. split.
    + rewrite list_lookup_fmap, (enumerate_lookup chunks k o Hk). reflexivity.
    + cbn [continuation_chunk context_info content chunk_id start_line end_line].
      repeat split.
      unfold startswith.
      destruct (0 <? k); destruct (k <? length chunks - 1); cbn [app join_nl];
        repeat apply prefix_app; reflexivity.
Qed.

Lemma overlapping_functions_none (chunk : Chunk) (boundaries : list Boundary) :
  (truthy_int (start_line chunk) = false /\ truthy_int (end_line chunk) = false)
  \/ Forall (fun b => b_type b = "class") boundaries ->
  overlapping_functions chunk boundaries = [].
Proof.
  intros H. unfold overlapping_functions.
  induction boundaries as [|[[[start end_] btype] name] bs IH]; [reflexivity|].
  cbn [flat_map]. rewrite IH.
  - destruct H as [[Hs He]|Hcls].
    + rewrite Hs, He. cbn [andb]. now destruct (str_in btype _).
    + inversion Hcls as [|? ? Hb _]; subst. unfold b_type in Hb. cbn in Hb. subst btype.
      reflexivity.
  - destruct H as [H|Hcls]; [now left | right]. now inversion Hcls.
Qed.

(** X29. [_add_function_overlaps] leaves the content of a chunk as it is
    when the chunk's [start_line] and [end_line] are each missing or 0 (a
    chunk that is line 0 alone, or a part of a span that starts on line 0,
    gets no marker, whatever functions run through it), and when all spans
    are classes. *)
Theorem overlap_markers_need_a_nonzero_line
    (chunk : Chunk) (boundaries : list Boundary) :
  (truthy_int (start_line chunk) = false /\ truthy_int (end_line chunk) = false)
  \/ Forall (fun b => b_type b = "class") boundaries ->
  content (overlap_chunk chunk boundaries) = content chunk.
Proof.
  intros H. unfold overlap_chunk.
  rewrite (overlapping_functions_none chunk boundaries H). reflexivity.
Qed.

End Core.

(* ===================================================================== *)
(** * Part VIII. The properties at concrete inputs                        *)
(* ===================================================================== *)

Lemma determine_level_matches_table_witness :
  _determine_condensing_level 25 10 HIGH = Returned CondensingLevel.MODERATE.
Proof.
  exact (determine_level_matches_table 25 10 HIGH
           ltac:(split; reflexivity) ltac:(split; reflexivity)).
Defined.

(** C4 as stated fails beyond the precision of a float. The quotient
    1300000000000000001 / 10^18 is above 1.3, so the table gives MODERATE
    for CRITICAL; the code compares the quotient rounded to binary64, which
    is the float of 1.3, and returns LIGHT. And for an estimate of 10^400
    the division raises OverflowError. *)
Lemma rounded_quotient_misses_threshold :
  (1300000000000000000 < 1300000000000000001)%Z
  /\ (0 < 1000000000000000000)%Z
  /\ spec_level CRITICAL
       (inject_Z 1300000000000000001 / inject_Z 1000000000000000000)
     = CondensingLevel.MODERATE
  /\ _determine_condensing_level 1300000000000000001 1000000000000000000 CRITICAL
     = Returned CondensingLevel.LIGHT
  /\ _determine_condensing_level (10 ^ 400) 1 CRITICAL = Raised OverflowError.
Proof. repeat split; vm_compute; reflexivity. Qed.

Lemma adjust_condensing_level_steps_witness :
  adjust_condensing_level "" CondensingLevel.LIGHT 9 10
  = Returned CondensingLevel.MODERATE
  /\ adjust_condensing_level "" CondensingLevel.LIGHT 1 10
     = Returned CondensingLevel.NONE
  /\ adjust_condensing_level "" CondensingLevel.LIGHT 6 10
     = Returned CondensingLevel.LIGHT.
Proof.
  pose proof (adjust_condensing_level_steps "" CondensingLevel.LIGHT 9 10
                ltac:(right; left; reflexivity) ltac:(reflexivity)
                ltac:(reflexivity)) as (H1 & _ & _).
  pose proof (adjust_condensing_level_steps "" CondensingLevel.LIGHT 1 10
                ltac:(right; left; reflexivity) ltac:(reflexivity)
                ltac:(reflexivity)) as (_ & H2 & _).
  pose proof (adjust_condensing_level_steps "" CondensingLevel.LIGHT 6 10
                ltac:(right; left; reflexivity) ltac:(reflexivity)
                ltac:(reflexivity)) as (_ & _ & H3).
  split; [exact (H1 ltac:(reflexivity))|].
  split; [exact (H2 ltac:(reflexivity))|].
  apply H3; vm_compute; discriminate.
Defined.

(** C9 as stated fails for a negative budget: the quotient -9 / -10 is
    0.9 > 0.8 and the budget is not 0, yet the code takes the ratio as 0 and
    steps down. *)
Lemma adjust_negative_budget_steps_down :
  (0.8 < claimed_usage_ratio (-9) (-10))%Q
  /\ adjust_condensing_level "" CondensingLevel.LIGHT (-9) (-10)
     = Returned (one_step_down CondensingLevel.LIGHT)
  /\ one_step_down CondensingLevel.LIGHT <> one_step_up CondensingLevel.LIGHT.
Proof. split; [reflexivity|]. split; [reflexivity|]. discriminate. Qed.

(** It also fails beyond the precision of a float: the ratio
    8000000000000000001 / 10^19 is above 0.8, but rounded to binary64 it is
    the float of 0.8, and the level stays. *)
Lemma adjust_rounded_ratio_stays :
  (0.8 < claimed_usage_ratio 8000000000000000001 10000000000000000000)%Q
  /\ adjust_condensing_level "" CondensingLevel.LIGHT
       8000000000000000001 10000000000000000000
     = Returned CondensingLevel.LIGHT
  /\ adjust_condensing_level "" CondensingLevel.LIGHT (10 ^ 400) 1
     = Raised OverflowError.
Proof. repeat split; vm_compute; reflexivity. Qed.

(** C1 as stated fails in two ways. An oversized function is split with its
    first line repeated in the second sub-chunk, so joining the original
    contents gives a text with one line more than the input; and
    whitespace-only content whose estimate exceeds a negative budget gives
    no chunk at all. *)
Lemma oversized_span_repeats_signature :
  (exists chunks stats,
      chunk_with_context sample_estimate sample_ast_parse sample_pattern sample_pattern
        plain_strategy chunker_init sample_function (mkPath "f.py" ".py") 5 MEDIUM true
      = Some (Returned chunks, stats)
      /\ (5 < sample_estimate sample_function)%Z
      /\ map content chunks
         = [join_nl ["def f():"; "    a = 1"]; join_nl ["def f():"; "    b = 2"]]
      /\ join_nl (map content chunks) <> sample_function)
  /\ (exists stats,
        chunk_with_context sample_estimate sample_ast_parse sample_pattern sample_pattern
          plain_strategy chunker_init "   " (mkPath "f.txt" ".txt") (-1) MEDIUM true
        = Some (Returned [], stats)
        /\ (-1 < sample_estimate "   ")%Z
        /\ join_nl (map content []) <> "   ").
Proof.
  split.
  - eexists _, _. split; [vm_compute; reflexivity|].
    split; [reflexivity|]. split; [reflexivity|]. vm_compute. discriminate.
  - eexists. split; [vm_compute; reflexivity|].
    split; [reflexivity|]. vm_compute. discriminate.
Qed.

Lemma chunks_reproduce_source_lines_witness :
  (truthy_str (strip sample_function) = true
   /\ (5 < sample_estimate sample_function)%Z)
  /\ exists chunks stats' originals stats0 gs,
    chunk_with_context sample_estimate sample_ast_parse sample_pattern sample_pattern
      default_strategy chunker_init sample_function (mkPath "f.py" ".py") 5 MEDIUM true
    = Some (Returned chunks, stats')
    /\ chunk_with_context sample_estimate sample_ast_parse sample_pattern sample_pattern
         (without_enrichment default_strategy) chunker_init sample_function
         (mkPath "f.py" ".py") 5 MEDIUM true
       = Some (Returned originals, stats0)
    /\ Forall2 wraps chunks originals
    /\ carried (split_nl sample_function) 0 originals gs
    /\ concat gs = split_nl sample_function
    /\ (spans_fit sample_estimate (split_nl sample_function)
          (file_spans sample_ast_parse sample_pattern sample_pattern
             (mkPath "f.py" ".py") sample_function) 5 ->
        join_nl (map content originals) = sample_function).
Proof.
  split; [split; reflexivity|].
  apply (chunks_reproduce_source_lines sample_estimate sample_ast_parse
           sample_pattern sample_pattern default_strategy chunker_init sample_function
           (mkPath "f.py" ".py") 5 MEDIUM true).
  - intros _ e. vm_compute. discriminate.
  - intros tree H. vm_compute in H. injection H as <-.
    vm_compute. repeat constructor.
  - reflexivity.
  - reflexivity.
Defined.

Lemma condense_under_budget_is_identity_witness :
  match condense_with_budget sample_estimate sample_ast_parse
          (fun c t _ => sample_tree_strategy c t) sample_tree_strategy sample_tree_strategy
          sample_text_strategy sample_text_strategy sample_config
          condenser_init sample_function (mkPath "f.py" ".py") 100 CRITICAL None with
  | (Returned (out, info), stats1) =>
      out = sample_function
      /\ info !! "level" = Some (VStr CondensingLevel.NONE)
      /\ match condense_with_budget sample_estimate sample_ast_parse
                (fun c t _ => sample_tree_strategy c t) sample_tree_strategy
                sample_tree_strategy sample_text_strategy sample_text_strategy
                sample_config stats1 out (mkPath "f.py" ".py") 100 CRITICAL None with
         | (Returned (out2, info2), _) => out2 = out /\ info2 = info
         | (Raised _, _) => False
         end
  | (Raised _, _) => False
  end.
Proof.
  apply (condense_under_budget_is_identity sample_estimate sample_ast_parse
           (fun c t _ => sample_tree_strategy c t) sample_tree_strategy sample_tree_strategy
           sample_text_strategy sample_text_strategy sample_config
           condenser_init sample_function (mkPath "f.py" ".py") 100 CRITICAL None).
  vm_compute. discriminate.
Defined.

Lemma chunk_ids_dense_and_totals_final_witness :
  exists chunks stats',
    chunk_with_context sample_estimate sample_ast_parse sample_pattern sample_pattern
      default_strategy chunker_init sample_class (mkPath "c.py" ".py") 8 MEDIUM true
    = Some (Returned chunks, stats')
    /\ map chunk_id chunks = [1; 2; 3; 4]
    /\ Forall (fun c => total_chunks c = 4) chunks
    /\ in_document_order chunks.
Proof.
  destruct (chunk_ids_dense_and_totals_final sample_estimate sample_ast_parse
              sample_pattern sample_pattern default_strategy chunker_init sample_class
              (mkPath "c.py" ".py") 8 MEDIUM true) as [Hnum Hrest].
  destruct Hrest as [Hord Hret].
  { intros tree H. vm_compute in H. injection H as <-.
    vm_compute. repeat constructor. }
  destruct Hret as (chunks & stats' & Hret).
  { intros _ e. vm_compute. discriminate. }
  destruct (Hnum chunks stats' Hret) as [Hids Htot].
  pose proof (Hord chunks stats' Hret) as Ho.
  assert (Hlen : length chunks = 4).
  { vm_compute in Hret. injection Hret as <- _. reflexivity. }
  rewrite Hlen in Hids, Htot. eauto 6.
Defined.

(** C7 as stated fails for a method of an oversized class: the class span
    is split line by line, and the two lines of method [C.a] (cost 8, not
    above max_tokens = 8) end up in different chunks. *)
Lemma method_of_oversized_class_is_split :
  exists chunks stats,
    chunk_with_context sample_estimate sample_ast_parse sample_pattern sample_pattern
      plain_strategy chunker_init sample_class (mkPath "c.py" ".py") 8 MEDIUM true
    = Some (Returned chunks, stats)
    /\ In (1, 2, "method", "C.a")
          (_find_python_boundaries
             [ClassDef "C" 1 (Some 5)
                [FunctionDef "a" 2 (Some 3); FunctionDef "b" 4 (Some 5)]]
             (split_nl sample_class))
    /\ (sample_estimate (join_nl (slice (split_nl sample_class) 1 3)) <= 8)%Z
    /\ ~ (exists c pre post,
             In c chunks
             /\ chunk_lines c = pre ++ slice (split_nl sample_class) 1 3 ++ post).
Proof.
  eexists _, _. split; [vm_compute; reflexivity|].
  split; [vm_compute; tauto|]. split; [vm_compute; discriminate|].
  intros (c & pre & post & Hin & Heq).
  change (slice (split_nl sample_class) 1 3)
    with ["    def a(self):"; "        return 1"] in Heq.
  cbn [In] in Hin.
  destruct Hin as [<-|[<-|[<-|[<-|[]]]]];
    cbv [chunk_lines content] in Heq;
    match type of Heq with
    | split_nl ?s = _ =>
        let l := eval vm_compute in (split_nl s) in
        change (split_nl s) with l in Heq
    end;
    destruct pre as [|p1 [|p2 [|p3 pre]]]; cbn [app] in Heq; congruence.
Qed.

Lemma uncovered_span_kept_whole_witness :
  exists st chunks c post pre' post',
    reached sample_estimate (split_nl sample_class)
      [(0, 4, "class", "C"); (1, 2, "method", "C.a"); (3, 4, "method", "C.b")]
      20 MEDIUM st
    /\ pk_i st = 0
    /\ _create_chunks_with_boundaries sample_estimate plain_strategy chunker_init
         sample_class (split_nl sample_class)
         [(0, 4, "class", "C"); (1, 2, "method", "C.a"); (3, 4, "method", "C.b")]
         20 MEDIUM
       = Some (chunks, chunker_init)
    /\ In c chunks
    /\ chunk_lines c
       = (if (pk_current_tokens st
              + sample_estimate (join_nl (slice (split_nl sample_class) 0%nat 5%nat))
              <=? 20)%Z
          then pk_current_chunk_lines st else [])
         ++ slice (split_nl sample_class) 0 5 ++ post
    /\ chunk_lines c = pre' ++ slice (split_nl sample_class) 1 3 ++ post'.
Proof.
  destruct (uncovered_span_kept_whole sample_estimate plain_strategy chunker_init
              sample_class (split_nl sample_class)
              [(0, 4, "class", "C"); (1, 2, "method", "C.a"); (3, 4, "method", "C.b")]
              20 MEDIUM 0 (0, 4, "class", "C"))
    as [Hmet Hkept].
  - reflexivity.
  - reflexivity.
  - repeat constructor.
  - vm_compute. lia.
  - reflexivity.
  - vm_compute. discriminate.
  - destruct Hmet as (st & Hr & Hi).
    { intros b' Hin. cbn [In] in Hin.
      destruct Hin as [<-|[<-|[<-|[]]]]; cbn; lia. }
    destruct (Hkept st Hr Hi) as (chunks & c & post & Hret & Hin & Hc & Hnested).
    destruct (Hnested (1, 2, "method", "C.a")) as (pre' & post' & Hc');
      [right; left; reflexivity | cbn; lia | cbn; lia|].
    exists st, chunks, c, post, pre', post'. auto 10.
Defined.

(** C8 as stated fails on whitespace-only content: the info record then
    holds the level and tokens_saved only. *)
Lemma whitespace_info_record_is_short :
  exists info stats,
    condense_with_budget sample_estimate sample_ast_parse
      (fun c t _ => sample_tree_strategy c t) sample_tree_strategy sample_tree_strategy
      sample_text_strategy sample_text_strategy sample_config
      condenser_init "   " (mkPath "f.py" ".py") 100 CRITICAL None
    = (Returned ("   ", info), stats)
    /\ info !! "original_tokens" = None
    /\ info !! "final_tokens" = None
    /\ info !! "compression_ratio" = None
    /\ info !! "priority" = None.
Proof. eexists _, _. split; [reflexivity|]. repeat split. Qed.

(** It also fails when a call raises: on a [.py] file whose text holds a
    NUL byte [ast.parse] raises ValueError, which the code does not catch,
    and for an estimate of 10^400 the level selection raises
    OverflowError. *)
Lemma condense_call_can_raise :
  (condense_with_budget sample_estimate sample_ast_parse
     (fun c t _ => sample_tree_strategy c t) sample_tree_strategy sample_tree_strategy
     sample_text_strategy sample_text_strategy sample_config
     condenser_init sample_nul (mkPath "f.py" ".py") 3 HIGH None).1
  = Raised ValueError
  /\ (condense_with_budget sample_estimate sample_ast_parse
        (fun c t _ => sample_tree_strategy c t) sample_tree_strategy sample_tree_strategy
        sample_text_strategy sample_text_strategy sample_config
        condenser_init sample_function (mkPath "f.py" ".py") 1 HIGH
        (Some (10 ^ 400)%Z)).1
     = Raised OverflowError.
Proof. split; vm_compute; reflexivity. Qed.

Lemma condense_info_record_witness :
  exists out info stats1,
    condense_with_budget sample_estimate sample_ast_parse
      (fun c t _ => sample_tree_strategy c t) sample_tree_strategy sample_tree_strategy
      sample_text_strategy sample_text_strategy sample_config
      condenser_init sample_notes (mkPath "n.txt" ".txt") 4 HIGH None
    = (Returned (out, info), stats1)
    /\ out = join_nl ["x = 1"; "y = 2222"]
    /\ info !! "level" = Some (VStr CondensingLevel.LIGHT)
    /\ info !! "original_tokens" = Some (VInt 5)
    /\ info !! "final_tokens" = Some (VInt 3)
    /\ info !! "tokens_saved" = Some (VInt 2)
    /\ info !! "compression_ratio" = Some (VFloat (b64 (3 # 5)))
    /\ info !! "priority" = Some (VStr "HIGH").
Proof.
  destruct (condense_info_record sample_estimate sample_ast_parse
              (fun c t _ => sample_tree_strategy c t) sample_tree_strategy
              sample_tree_strategy sample_text_strategy sample_text_strategy
              sample_config condenser_init sample_notes (mkPath "n.txt" ".txt")
              4 HIGH None)
    as (out & info & stats1 & Hret & Hinfo).
  { intros _. split; [right; split; [discriminate | reflexivity]|].
    split; intros H; discriminate H. }
  change (truthy_str (strip sample_notes)) with true in Hinfo.
  destruct Hinfo as (level & Hlevel & Hout & H1 & H2 & H3 & H4 & H5 & H6 & _).
  vm_compute in Hlevel. injection Hlevel as <-.
  vm_compute in Hout. injection Hout as <-.
  exists (join_nl ["x = 1"; "y = 2222"]), info, stats1.
  split; [exact Hret|]. split; [reflexivity|].
  repeat split; assumption.
Defined.

(** ** The further properties at concrete inputs *)

Lemma level_grows_with_estimate_witness :
  exists l1 l2,
    _determine_condensing_level 12 10 HIGH = Returned l1
    /\ _determine_condensing_level 25 10 HIGH = Returned l2
    /\ level_rank l1 <= level_rank l2.
Proof.
  exact (level_grows_with_estimate 12 25 10 HIGH ltac:(reflexivity) ltac:(discriminate)
           ltac:(reflexivity)).
Defined.

Lemma level_respects_priority_except_critical_high_witness :
  exists l1 l2,
    _determine_condensing_level 25 10 HIGH = Returned l1
    /\ _determine_condensing_level 25 10 LOW = Returned l2
    /\ level_rank l1 <= level_rank l2.
Proof.
  apply (level_respects_priority_except_critical_high 25 10 HIGH LOW).
  - reflexivity.
  - split; reflexivity.
  - vm_compute. lia.
  - intros [H _]. discriminate.
Defined.

Lemma negative_budget_selects_mildest_level_witness :
  _determine_condensing_level 5 (-3) LOW = Returned CondensingLevel.MODERATE.
Proof.
  exact (negative_budget_selects_mildest_level 5 (-3) LOW ltac:(reflexivity)
           ltac:(reflexivity) ltac:(reflexivity)).
Defined.

Lemma generic_heavy_appends_marker_witness :
  split_nl (_condense_generic_content sample_function CondensingLevel.HEAVY)
  = ["def f():"; "    a = 1"; "    b = 2"; "# ... heavily truncated ..."].
Proof.
  exact (proj1 (generic_heavy_appends_marker sample_function CondensingLevel.HEAVY
                  ltac:(reflexivity) ltac:(reflexivity))).
Defined.

Lemma negative_budget_gives_one_line_per_chunk_witness :
  map content (_chunk_generic_content sample_estimate sample_function (-1))
  = ["def f():"; "    a = 1"; "    b = 2"].
Proof.
  apply (negative_budget_gives_one_line_per_chunk sample_estimate sample_function (-1)).
  - intros s. unfold sample_estimate. apply Z.div_pos; lia.
  - reflexivity.
Defined.

Lemma chunk_line_ranges_name_their_lines_witness :
  exists chunks stats',
    chunk_with_context sample_estimate sample_ast_parse sample_pattern sample_pattern
      plain_strategy chunker_init sample_module (mkPath "m.py" ".py") 8 MEDIUM true
    = Some (Returned chunks, stats')
    /\ Forall (holds_range_if_any (split_nl sample_module)) chunks.
Proof.
  apply (chunk_line_ranges_name_their_lines sample_estimate sample_ast_parse
           sample_pattern sample_pattern plain_strategy chunker_init sample_module
           (mkPath "m.py" ".py") 8 MEDIUM true).
  - split; reflexivity.
  - intros _ e. vm_compute. discriminate.
  - intros tree H. vm_compute in H. injection H as <-.
    vm_compute. repeat constructor.
Defined.

Lemma estimates_are_of_final_content_witness :
  exists chunks stats',
    chunk_with_context sample_estimate sample_ast_parse sample_pattern sample_pattern
      default_strategy chunker_init sample_module (mkPath "m.py" ".py") 8 MEDIUM true
    = Some (Returned chunks, stats')
    /\ Forall (fresh_estimate sample_estimate) chunks.
Proof.
  apply (estimates_are_of_final_content sample_estimate sample_ast_parse
           sample_pattern sample_pattern default_strategy chunker_init sample_module
           (mkPath "m.py" ".py") 8 MEDIUM true).
  - reflexivity.
  - intros _ e. vm_compute. discriminate.
  - intros tree H. vm_compute in H. injection H as <-.
    vm_compute. repeat constructor.
Defined.

Lemma braceless_span_runs_to_end_of_file_witness :
  _find_js_block_end ["const f = x => x + 1;"; "let y = 2;"; "let z = 3;"] 0 = 2
  /\ _find_java_block_end ["const f = x => x + 1;"; "let y = 2;"; "let z = 3;"] 0 = 2.
Proof.
  apply (braceless_span_runs_to_end_of_file
           ["const f = x => x + 1;"; "let y = 2;"; "let z = 3;"] 0).
  repeat constructor.
Defined.

Lemma chunker_counts_only_files_it_splits_witness :
  (exists chunks stats',
      chunk_with_context sample_estimate sample_ast_parse sample_pattern sample_pattern
        default_strategy chunker_init sample_module (mkPath "m.py" ".py") 8 MEDIUM true
      = Some (Returned chunks, stats')
      /\ files_chunked stats' = 1%Z
      /\ total_chunks_created stats' = Z.of_nat (length chunks))
  /\ chunk_with_context sample_estimate sample_ast_parse sample_pattern sample_pattern
       default_strategy chunker_init sample_nul (mkPath "n.py" ".py") 3 MEDIUM true
     = Some (Raised ValueError, chunker_init).
Proof.
  split.
  - destruct (chunker_counts_only_files_it_splits sample_estimate sample_ast_parse
                sample_pattern sample_pattern default_strategy chunker_init sample_module
                (mkPath "m.py" ".py") 8 MEDIUM true) as [Hret _].
    { intros tree H. vm_compute in H. injection H as <-.
      vm_compute. repeat constructor. }
    destruct Hret as (chunks & stats' & Hret & Hstats).
    { intros _ e. vm_compute. discriminate. }
    exists chunks, stats'. split; [exact Hret|].
    change (truthy_str (strip sample_module)
            && (8 <? sample_estimate sample_module)%Z) with true in Hstats.
    destruct Hstats as (Hf & Ht & _). split; [exact Hf | exact Ht].
  - destruct (chunker_counts_only_files_it_splits sample_estimate sample_ast_parse
                sample_pattern sample_pattern default_strategy chunker_init sample_nul
                (mkPath "n.py" ".py") 3 MEDIUM true) as [_ Hraise].
    { intros tree H. vm_compute in H. discriminate H. }
    apply Hraise; reflexivity.
Defined.

Lemma low_priority_function_becomes_two_lines_witness :
  exists l m,
    In l (split_nl sample_function)
    /\ In m ["    # ... implementation ..."; "    // ... implementation ...";
             "    # ..."]
    /\ split_nl (condense_function_selectively sample_estimate sample_function LOW 1
                   "python") = [l; m].
Proof.
  apply (low_priority_function_becomes_two_lines sample_estimate sample_function LOW 1
           "python").
  - reflexivity.
  - discriminate.
  - discriminate.
Defined.

Lemma important_python_function_keeps_its_lines_witness :
  exists kept tail,
    condense_function_selectively sample_estimate sample_function HIGH 1 "python"
    = join_nl (kept ++ tail)
    /\ kept `sublist_of` split_nl sample_function
    /\ (tail = [] \/ tail = ["    # ... implementation details ..."]).
Proof.
  apply (important_python_function_keeps_its_lines sample_estimate sample_function
           HIGH 1).
  right. reflexivity.
Defined.

Lemma important_function_in_other_language_witness :
  condense_function_selectively sample_estimate sample_function HIGH 1 "javascript"
  = sample_function.
Proof.
  apply (important_function_in_other_language sample_estimate sample_function HIGH 1
           "javascript").
  - reflexivity.
  - right. reflexivity.
  - reflexivity.
  - vm_compute. lia.
Defined.

Lemma function_signature_stops_at_first_colon_witness :
  exists before closing,
    _get_function_signature "f" 1 ["def f(a,"; "      b):"; "    pass"]
    = join_nl (before ++ [closing])
    /\ (before ++ [closing]) `prefix_of` ["def f(a,"; "      b):"; "    pass"]
    /\ Forall (fun l => contains l ":" = false) before
    /\ (contains closing ":" = true
        \/ before ++ [closing] = ["def f(a,"; "      b):"; "    pass"]).
Proof.
  apply (function_signature_stops_at_first_colon "f" 1
           ["def f(a,"; "      b):"; "    pass"]).
  cbn. lia.
Defined.

Lemma light_config_file_is_returned_unchanged_witness :
  exists info stats',
    condense_with_budget sample_estimate sample_ast_parse
      (fun c t _ => sample_tree_strategy c t) sample_tree_strategy sample_tree_strategy
      sample_text_strategy sample_text_strategy sample_config
      condenser_init sample_function (mkPath "c.json" ".json") 5 HIGH None
    = (Returned (sample_function, info), stats')
    /\ info !! "level" = Some (VStr CondensingLevel.LIGHT)
    /\ info !! "tokens_saved" = Some (VInt 0)
    /\ info !! "final_tokens" = Some (VInt (sample_estimate sample_function))
    /\ (5 < sample_estimate sample_function)%Z.
Proof.
  apply (light_config_file_is_returned_unchanged sample_estimate sample_ast_parse
           (fun c t _ => sample_tree_strategy c t) sample_tree_strategy
           sample_tree_strategy sample_text_strategy sample_text_strategy
           sample_config condenser_init sample_function (mkPath "c.json" ".json")
           5 HIGH).
  - reflexivity.
  - reflexivity.
  - vm_compute. reflexivity.
Defined.

Lemma ranged_tree_gives_well_formed_spans_witness :
  spans_well_formed
    (_find_python_boundaries
       [FunctionDef "f" 1 (Some 2);
        ClassDef "C" 3 (Some 5) [FunctionDef "a" 4 (Some 5)]]
       ["def f():"; "    return 1"; "class C:"; "    def a(self):";
        "        return 2"]).
Proof.
  apply ranged_tree_gives_well_formed_spans.
  repeat constructor; cbn; lia.
Defined.

Lemma continuation_pass_relabels_every_chunk_witness :
  length (add_continuation_context sample_estimate chunker_init
            [mkChunk "a = 1" 1 2 (Some 0) (Some 0) None None None (Some 1%Z) "content";
             mkChunk "b = 2" 2 2 (Some 1) (Some 1) None None None (Some 1%Z) "content"]
            (mkPath "m.txt" ".txt")).1 = 2.
Proof.
  apply (continuation_pass_relabels_every_chunk sample_estimate chunker_init
           [mkChunk "a = 1" 1 2 (Some 0) (Some 0) None None None (Some 1%Z) "content";
            mkChunk "b = 2" 2 2 (Some 1) (Some 1) None None None (Some 1%Z) "content"]
           (mkPath "m.txt" ".txt")).
  cbn. lia.
Defined.

Lemma overlap_markers_need_a_nonzero_line_witness :
  content
    (overlap_chunk sample_estimate
       (mkChunk "def f():" 1 2 (Some 0) (Some 0) None None None (Some 2%Z) "content")
       [(0, 3, "function", "f")])
  = "def f():".
Proof.
  apply (overlap_markers_need_a_nonzero_line sample_estimate
           (mkChunk "def f():" 1 2 (Some 0) (Some 0) None None None (Some 2%Z) "content")
           [(0, 3, "function", "f")]).
  left. split; reflexivity.
Defined.
